(** * playgama_sdk.js: the Playgama Bridge wrapper of the card solitaire

    A shallow embedding of [src/playgama_sdk.js] and the properties of its
    cooldown-gated ad policy, its storage fallback and merge logic and its
    error handling.

    The file is a flat set of functions over module-level variables that call
    out to the Playgama bridge, to the VK bridge and to [localStorage].  The
    embedding keeps that shape:

    - the module-level [let] variables are the record [ModuleState];
    - everything outside the module (the two bridges, [Date.now], the
      [window] globals, [localStorage] faults and the JS builtins the code
      calls) is an environment [Env]: the functions are written once and hold
      for every behaviour of the environment;
    - every function is a computation [M A] that threads a [World] (module
      variables, a step counter, the trace of external calls made so far and
      the contents of [localStorage]) and ends either with a value or with a
      thrown JS value;
    - an [async] function is run to completion: the calls are [await]ed in
      sequence and no other entry point runs in between (section 5 of the
      specification);
    - [console.log], [console.warn] and [console.error] are diagnostics only
      and are left out. *)

From Stdlib Require Import ZArith Ascii String.
From Stdlib Require DecimalString DecimalZ DecimalPos.
From stdpp Require Import gmap strings list pretty.

Local Open Scope string_scope.

(** ** JavaScript values *)

(** The values that flow through the wrapper: objects are kept as ordered
    lists of own properties, numbers are the integers ([Date.now] stamps,
    counters) plus [NaN], which [parseInt] returns on malformed input.
    [VArrayKeys] is the function [Array.prototype.keys], which every array
    inherits as its [keys]: the one function value a property read of the
    module can meet. *)
#[warnings="-register-all"]
Inductive JsVal : Type :=
  | VUndef
  | VNull
  | VBool (b : bool)
  | VNum (z : Z)
  | VNaN
  | VStr (s : string)
  | VArr (items : list JsVal)
  | VObj (fields : list (string * JsVal))
  | VArrayKeys.

(** The result of running a piece of code: a value, or a thrown JS value. *)
Inductive Res (A : Type) : Type :=
  | Val (a : A)
  | Exn (e : JsVal).
Arguments Val {A} a.
Arguments Exn {A} e.

(** The error the engine throws on a property read of [null]/[undefined] or
    on a call of something that is not a function. *)
Definition TypeError : JsVal := VObj [("name", VStr "TypeError")].

(** ToBoolean. *)
Definition truthy (v : JsVal) : bool :=
  match v with
  | VUndef | VNull | VNaN => false
  | VBool b => b
  | VNum z => negb (z =? 0)%Z
  | VStr s => negb (String.eqb s "")
  | VArr _ | VObj _ | VArrayKeys => true
  end.

(** [v === 'lit']. *)
Definition is_str (v : JsVal) (lit : string) : bool :=
  match v with
  | VStr s => String.eqb s lit
  | _ => false
  end.

(** [v !== undefined]. *)
Definition is_defined (v : JsVal) : bool :=
  match v with
  | VUndef => false
  | _ => true
  end.

Fixpoint assoc (k : string) (fs : list (string * JsVal)) : JsVal :=
  match fs with
  | [] => VUndef
  | (k', v) :: rest => if String.eqb k k' then v else assoc k rest
  end.

(** [v.k] for the property names the module reads: throws on [null] and
    [undefined], reads an own property of an object, finds the inherited
    method [keys] on an array, and is [undefined] otherwise. *)
Definition get_prop (v : JsVal) (k : string) : Res JsVal :=
  match v with
  | VUndef | VNull => Exn TypeError
  | VObj fs => Val (assoc k fs)
  | VArr _ => Val (if String.eqb k "keys" then VArrayKeys else VUndef)
  | _ => Val VUndef
  end.

(** [o.k = v] on the property list of an object literal under construction:
    an existing key keeps its place, a new one goes last. *)
Fixpoint set_field (k : string) (v : JsVal) (fs : list (string * JsVal))
  : list (string * JsVal) :=
  match fs with
  | [] => [(k, v)]
  | (k', v') :: rest =>
      if String.eqb k k' then (k, v) :: rest else (k', v') :: set_field k v rest
  end.

(** [Math.ceil(a / b)] for integers [a] and a positive integer [b].  The
    operands here are differences of millisecond stamps, far below 2^53, where
    the double quotient rounds up to the same integer. *)
Definition ceil_div (a b : Z) : Z := (- ((- a) / b))%Z.

(** ** The world outside the module *)

(** What the code reads off the bridge handle without calling it. *)
Record Bridge : Type := mkBridge {
  platform_id : string;            (* bridge.platform.id *)
  platform_language : JsVal;       (* bridge.platform.language *)
  advertisement : bool;            (* bridge.advertisement is an object *)
  showSticky_is_function : bool    (* typeof bridge.advertisement.showSticky === 'function' *)
}.

(** [window.vkBridge], when defined. *)
Inductive VkHandle : Type := WindowVkBridge.

(** The calls that leave the module. *)
Inductive ExtCall : Type :=
  | BridgeInitialize                              (* bridge.initialize() *)
  | PlatformSendMessage (msg : string)            (* bridge.platform.sendMessage(msg) *)
  | ShowInterstitial                              (* bridge.advertisement.showInterstitial() *)
  | ShowRewarded                                  (* bridge.advertisement.showRewarded() *)
  | ShowSticky                                    (* bridge.advertisement.showSticky() *)
  | StorageGet                                    (* bridge.storage.get() *)
  | StorageSet (data : JsVal)                     (* bridge.storage.set(data) *)
  | PaymentsPurchase (product : JsVal)            (* bridge.payments.purchase({id}) *)
  | SocialJoinCommunity (groupId : Z)             (* bridge.social.joinCommunity({groupId}) *)
  | SocialShare                                   (* bridge.social.share() *)
  | VKSend (method : string) (params : JsVal)     (* vkBridge.send(method, params) *)
  | ImportSetLang (gameLang : string)             (* import('./localization.js').then(setLang) *)
  | WindowOpen (url : string).                    (* window.open(url, '_blank') *)

(** How an external call ends: it returns (or its promise resolves with) a
    value, it returns a promise that rejects, or it throws at the call. *)
Inductive Outcome : Type :=
  | Returns (v : JsVal)
  | Rejects (e : JsVal)
  | Throws (e : JsVal).

Definition failed (o : Outcome) : bool :=
  match o with
  | Returns _ => false
  | Rejects _ | Throws _ => true
  end.

(** The environment: one answer per step for everything the module cannot
    decide itself, and the builtins it calls. *)
Record Env : Type := mkEnv {
  date_now : nat -> Z;                        (* Date.now() *)
  ext_outcome : nat -> ExtCall -> Outcome;    (* how an external call ends *)
  storage_fault : nat -> option JsVal;        (* localStorage throws this value *)
  window_bridge : nat -> option Bridge;       (* window.bridge, None = undefined *)
  window_vkBridge : nat -> option VkHandle;   (* window.vkBridge *)
  JSON_stringify : JsVal -> Res (option string);  (* None = undefined *)
  JSON_parse : JsVal -> Res JsVal;
  parseInt10 : JsVal -> option Z;             (* parseInt(v, 10), None = NaN *)
  ToString : JsVal -> string                  (* String(v) *)
}.

(** ** Module state *)

Definition INTERSTITIAL_COOLDOWN : Z := 90000.
Definition SHOP_REWARDED_COOLDOWN : Z := 600000.

Record ModuleState : Type := mkModule {
  bridge : option Bridge;
  vkBridge : option VkHandle;
  isInitialized : bool;
  languageApplied : bool;
  gameReadySent : bool;
  lastInterstitialTime : Z;
  lastShopRewardedTime : Z;
  isAdsDisabled : JsVal
}.

(** The state the module is loaded with. *)
Definition module_init : ModuleState :=
  {| bridge := None; vkBridge := None; isInitialized := false;
     languageApplied := false; gameReadySent := false;
     lastInterstitialTime := 0; lastShopRewardedTime := 0;
     isAdsDisabled := VBool false |}.

Record World : Type := mkWorld {
  vars : ModuleState;
  tick : nat;
  trace : list (ExtCall * Outcome);
  localStorage : gmap string string
}.

Definition world_init : World :=
  {| vars := module_init; tick := 0; trace := []; localStorage := ∅ |}.

(** ** The computation monad *)

Definition M (A : Type) : Type := World -> Res A * World.

Definition ret {A} (a : A) : M A := fun w => (Val a, w).

Definition throw {A} (e : JsVal) : M A := fun w => (Exn e, w).

Definition bind {A B} (m : M A) (k : A -> M B) : M B :=
  fun w =>
    match m w with
    | (Val a, w') => k a w'
    | (Exn e, w') => (Exn e, w')
    end.

Notation "x <- m ;; k" := (bind m (fun x => k))
  (at level 100, m at next level, right associativity).
Notation "m ;; k" := (bind m (fun _ => k))
  (at level 100, right associativity).

(** [try { body } catch (e) { handler e }]. *)
Definition try_catch {A} (body : M A) (handler : JsVal -> M A) : M A :=
  fun w =>
    match body w with
    | (Val a, w') => (Val a, w')
    | (Exn e, w') => handler e w'
    end.

Definition lift {A} (r : Res A) : M A := fun w => (r, w).

Definition get_vars : M ModuleState := fun w => (Val (vars w), w).

Definition modify (f : ModuleState -> ModuleState) : M unit :=
  fun w => (Val tt, {| vars := f (vars w); tick := tick w; trace := trace w;
                       localStorage := localStorage w |}).

Definition set_bridge (b : option Bridge) (m : ModuleState) : ModuleState :=
  {| bridge := b; vkBridge := vkBridge m; isInitialized := isInitialized m;
     languageApplied := languageApplied m; gameReadySent := gameReadySent m;
     lastInterstitialTime := lastInterstitialTime m;
     lastShopRewardedTime := lastShopRewardedTime m;
     isAdsDisabled := isAdsDisabled m |}.

Definition set_vkBridge (v : option VkHandle) (m : ModuleState) : ModuleState :=
  {| bridge := bridge m; vkBridge := v; isInitialized := isInitialized m;
     languageApplied := languageApplied m; gameReadySent := gameReadySent m;
     lastInterstitialTime := lastInterstitialTime m;
     lastShopRewardedTime := lastShopRewardedTime m;
     isAdsDisabled := isAdsDisabled m |}.

Definition set_isInitialized (b : bool) (m : ModuleState) : ModuleState :=
  {| bridge := bridge m; vkBridge := vkBridge m; isInitialized := b;
     languageApplied := languageApplied m; gameReadySent := gameReadySent m;
     lastInterstitialTime := lastInterstitialTime m;
     lastShopRewardedTime := lastShopRewardedTime m;
     isAdsDisabled := isAdsDisabled m |}.

Definition set_languageApplied (b : bool) (m : ModuleState) : ModuleState :=
  {| bridge := bridge m; vkBridge := vkBridge m; isInitialized := isInitialized m;
     languageApplied := b; gameReadySent := gameReadySent m;
     lastInterstitialTime := lastInterstitialTime m;
     lastShopRewardedTime := lastShopRewardedTime m;
     isAdsDisabled := isAdsDisabled m |}.

Definition set_gameReadySent (b : bool) (m : ModuleState) : ModuleState :=
  {| bridge := bridge m; vkBridge := vkBridge m; isInitialized := isInitialized m;
     languageApplied := languageApplied m; gameReadySent := b;
     lastInterstitialTime := lastInterstitialTime m;
     lastShopRewardedTime := lastShopRewardedTime m;
     isAdsDisabled := isAdsDisabled m |}.

Definition set_lastInterstitialTime (t : Z) (m : ModuleState) : ModuleState :=
  {| bridge := bridge m; vkBridge := vkBridge m; isInitialized := isInitialized m;
     languageApplied := languageApplied m; gameReadySent := gameReadySent m;
     lastInterstitialTime := t;
     lastShopRewardedTime := lastShopRewardedTime m;
     isAdsDisabled := isAdsDisabled m |}.

Definition set_lastShopRewardedTime (t : Z) (m : ModuleState) : ModuleState :=
  {| bridge := bridge m; vkBridge := vkBridge m; isInitialized := isInitialized m;
     languageApplied := languageApplied m; gameReadySent := gameReadySent m;
     lastInterstitialTime := lastInterstitialTime m;
     lastShopRewardedTime := t;
     isAdsDisabled := isAdsDisabled m |}.

Definition set_isAdsDisabled (v : JsVal) (m : ModuleState) : ModuleState :=
  {| bridge := bridge m; vkBridge := vkBridge m; isInitialized := isInitialized m;
     languageApplied := languageApplied m; gameReadySent := gameReadySent m;
     lastInterstitialTime := lastInterstitialTime m;
     lastShopRewardedTime := lastShopRewardedTime m;
     isAdsDisabled := v |}.

(** One step of the outside world passes. *)
Definition step (w : World) : World :=
  {| vars := vars w; tick := S (tick w); trace := trace w;
     localStorage := localStorage w |}.

Definition record_call (c : ExtCall) (o : Outcome) (w : World) : World :=
  {| vars := vars w; tick := S (tick w); trace := trace w ++ [(c, o)];
     localStorage := localStorage w |}.

Definition store (k v : string) (w : World) : World :=
  {| vars := vars w; tick := S (tick w); trace := trace w;
     localStorage := <[k := v]> (localStorage w) |}.

(** A number as [parseInt] returns it: an integer, or [NaN]. *)
Definition js_number (n : option Z) : JsVal :=
  match n with
  | Some z => VNum z
  | None => VNaN
  end.

(** What [getItem] hands back for a key. *)
Definition item_value (o : option string) : JsVal :=
  match o with
  | Some s => VStr s
  | None => VNull
  end.

(** [vkBridge.send('VKWebAppStorageSet', { key, value })] *)
Definition vk_storage_set (key value : string) : ExtCall :=
  VKSend "VKWebAppStorageSet" (VObj [("key", VStr key); ("value", VStr value)]).

Section Wrapper.

Variable E : Env.

(** *** Primitive interactions *)

(** [Date.now()]. *)
Definition Date_now : M Z := fun w => (Val (date_now E (tick w)), step w).

(** An external call is made: the environment decides how it ends and the
    call is appended to the trace. *)
Definition call (c : ExtCall) : M Outcome :=
  fun w => let o := ext_outcome E (tick w) c in (Val o, record_call c o w).

(** [await p]: the value of a promise, or its rejection thrown. *)
Definition await (o : Outcome) : M JsVal :=
  match o with
  | Returns v => ret v
  | Rejects e | Throws e => throw e
  end.

(** A call whose result is dropped: only a throw at the call is seen. *)
Definition sync (o : Outcome) : M unit :=
  match o with
  | Throws e => throw e
  | Returns _ | Rejects _ => ret tt
  end.

(** [typeof window.bridge !== 'undefined' ? window.bridge : undefined]. *)
Definition read_window_bridge : M (option Bridge) :=
  fun w => (Val (window_bridge E (tick w)), step w).

Definition read_window_vkBridge : M (option VkHandle) :=
  fun w => (Val (window_vkBridge E (tick w)), step w).

(** [localStorage.getItem(k)]: the stored string, or [null]. *)
Definition localStorage_getItem (k : string) : M JsVal :=
  fun w =>
    match storage_fault E (tick w) with
    | Some e => (Exn e, step w)
    | None => (Val (item_value (localStorage w !! k)), step w)
    end.

(** [localStorage.setItem(k, v)]. *)
Definition localStorage_setItem (k v : string) : M unit :=
  fun w =>
    match storage_fault E (tick w) with
    | Some e => (Exn e, step w)
    | None => (Val tt, store k v w)
    end.

(** [parseInt(v, 10)] as a JS value. *)
Definition parseInt (v : JsVal) : JsVal := js_number (parseInt10 E v).

(** [bridge.platform.id === 'vk'] *)
Definition is_vk (b : Bridge) : bool := String.eqb (platform_id b) "vk".

(** A method call on [bridge.advertisement]: a [TypeError] before any call
    is made when the bridge has no advertisement object. *)
Definition call_advertisement (b : Bridge) (c : ExtCall) : M Outcome :=
  if advertisement b then call c else ret (Throws TypeError).

(** *** waitForBridge *)

Definition maxAttempts : nat := 30.

(** The [setInterval] callback, once per remaining attempt: the bridge if
    [window.bridge] is defined by now, [null] after the last attempt. *)
Fixpoint interval (attempts_left : nat) : M (option Bridge) :=
  match attempts_left with
  | O => ret None
  | S remaining =>
      wb <- read_window_bridge ;;
      match wb with
      | Some b => ret (Some b)
      | None => interval remaining
      end
  end.

Definition waitForBridge : M (option Bridge) :=
  wb <- read_window_bridge ;;
  match wb with
  | Some b => ret (Some b)
  | None => interval maxAttempts
  end.

(** *** initPlaygamaSDK *)

Definition initPlaygamaSDK : M (option Bridge) :=
  m <- get_vars ;;
  match isInitialized m, bridge m with
  | true, Some b => ret (Some b)
  | _, _ =>
      try_catch
        (b <- waitForBridge ;;
         modify (set_bridge b) ;;
         match b with
         | None =>
             modify (set_isInitialized true) ;;
             ret None
         | Some br =>
             o <- call BridgeInitialize ;;
             await o ;;
             modify (set_isInitialized true) ;;
             (if is_vk br then
                wv <- read_window_vkBridge ;;
                match wv with
                | Some h =>
                    modify (set_vkBridge (Some h)) ;;
                    try_catch
                      (o <- call (VKSend "VKWebAppInit" VUndef) ;;
                       await o ;;
                       ret tt)
                      (fun _ => modify (set_vkBridge None))
                | None => ret tt
                end
              else ret tt) ;;
             ret (Some br)
         end)
        (fun _ =>
           modify (set_isInitialized true) ;;
           ret None)
  end.

(** *** One-shot signals *)

Definition applyLanguageOnce : M unit :=
  m <- get_vars ;;
  if languageApplied m then ret tt
  else
    modify (set_languageApplied true) ;;
    match bridge m with
    | None => ret tt
    | Some b =>
        try_catch
          (let lang :=
             if truthy (platform_language b) then platform_language b
             else VStr "ru" in
           let gameLang := if is_str lang "ru" then "ru" else "en" in
           call (ImportSetLang gameLang) ;;
           ret tt)
          (fun _ => ret tt)
    end.

Definition sendGameReadyOnce : M unit :=
  m <- get_vars ;;
  if gameReadySent m then ret tt
  else
    modify (set_gameReadySent true) ;;
    match bridge m with
    | None => ret tt
    | Some _ =>
        try_catch
          (o <- call (PlatformSendMessage "game_ready") ;;
           sync o)
          (fun _ => ret tt)
    end.

Definition gameplayStart : M unit :=
  m <- get_vars ;;
  match bridge m with
  | None => ret tt
  | Some _ =>
      try_catch
        (o <- call (PlatformSendMessage "gameplay_started") ;;
         sync o)
        (fun _ => ret tt)
  end.

Definition gameplayStop : M unit :=
  m <- get_vars ;;
  match bridge m with
  | None => ret tt
  | Some _ =>
      try_catch
        (o <- call (PlatformSendMessage "gameplay_stopped") ;;
         sync o)
        (fun _ => ret tt)
  end.

(** *** Advertisements *)

(** [{ shown: b }] *)
Definition shown (b : bool) : JsVal := VObj [("shown", VBool b)].

(** [{ rewarded: b }] *)
Definition rewarded (b : bool) : JsVal := VObj [("rewarded", VBool b)].

Definition showInterstitialAd (reason : string) : M JsVal :=
  m <- get_vars ;;
  if truthy (isAdsDisabled m) then ret (shown false)
  else
    now <- Date_now ;;
    if (now - lastInterstitialTime m <? INTERSTITIAL_COOLDOWN)%Z
    then ret (shown false)
    else
      match bridge m with
      | None => ret (shown true)
      | Some b =>
          try_catch
            (gameplayStop ;;
             o <- call_advertisement b ShowInterstitial ;;
             await o ;;
             t <- Date_now ;;
             modify (set_lastInterstitialTime t) ;;
             gameplayStart ;;
             ret (shown true))
            (fun _ =>
               gameplayStart ;;
               ret (shown false))
      end.

Definition showRewardedAd (reason : string) : M JsVal :=
  m <- get_vars ;;
  match bridge m with
  | None => ret (rewarded true)
  | Some b =>
      try_catch
        (gameplayStop ;;
         o <- call_advertisement b ShowRewarded ;;
         await o ;;
         gameplayStart ;;
         ret (rewarded true))
        (fun _ =>
           gameplayStart ;;
           ret (rewarded false))
  end.

(** [{ rewarded, cooldown, remainingTime }] *)
Definition shop_result (r : JsVal) (cooldown : bool) (remainingTime : Z) : JsVal :=
  VObj [("rewarded", r); ("cooldown", VBool cooldown);
        ("remainingTime", VNum remainingTime)].

Definition showShopRewardedAd : M JsVal :=
  now <- Date_now ;;
  m <- get_vars ;;
  let timeSinceLastAd := (now - lastShopRewardedTime m)%Z in
  if (timeSinceLastAd <? SHOP_REWARDED_COOLDOWN)%Z
  then
    let remainingTime :=
      ceil_div (SHOP_REWARDED_COOLDOWN - timeSinceLastAd) 1000 in
    ret (shop_result (VBool false) true remainingTime)
  else
    result <- showRewardedAd "shop_coins" ;;
    r <- lift (get_prop result "rewarded") ;;
    (if truthy r
     then t <- Date_now ;; modify (set_lastShopRewardedTime t)
     else ret tt) ;;
    ret (shop_result r false 0).

Definition getShopRewardedCooldown : M Z :=
  now <- Date_now ;;
  m <- get_vars ;;
  let timeSinceLastAd := (now - lastShopRewardedTime m)%Z in
  if (SHOP_REWARDED_COOLDOWN <=? timeSinceLastAd)%Z then ret 0%Z
  else ret (ceil_div (SHOP_REWARDED_COOLDOWN - timeSinceLastAd) 1000).

Definition isAdsDisabledByPurchase : M JsVal :=
  m <- get_vars ;;
  ret (isAdsDisabled m).

Definition setAdsDisabled (disabled : JsVal) : M unit :=
  modify (set_isAdsDisabled disabled).

Definition isVKPlatform : M bool :=
  m <- get_vars ;;
  match bridge m with
  | None => ret false
  | Some b => ret (is_vk b)
  end.

Definition isYandexSDKReady : M bool :=
  m <- get_vars ;;
  ret (isInitialized m).

Definition getYSDK : M (option Bridge) :=
  m <- get_vars ;;
  ret (bridge m).

(** *** Cloud save *)

(** [vkBridge && bridge && bridge.platform.id === 'vk'] *)
Definition vk_storage_in_use (m : ModuleState) : bool :=
  match vkBridge m, bridge m with
  | Some _, Some b => is_vk b
  | _, _ => false
  end.

(** [savePromises.push(vkBridge.send('VKWebAppStorageSet', { key, value }))]:
    a throw at the call leaves the [try] at once, otherwise the promise is
    collected. *)
Definition push_send (key value : string) (savePromises : list Outcome)
  : M (list Outcome) :=
  o <- call (vk_storage_set key value) ;;
  match o with
  | Throws e => throw e
  | Returns _ | Rejects _ => ret (savePromises ++ [o])%list
  end.

(** [if (data.field !== undefined) savePromises.push(...)] *)
Definition save_field (data : JsVal) (field key : string)
    (conv : JsVal -> string) (savePromises : list Outcome) : M (list Outcome) :=
  v <- lift (get_prop data field) ;;
  if is_defined v then push_send key (conv v) savePromises
  else ret savePromises.

(** [await Promise.all(savePromises)]: rejects when one of them does. *)
Fixpoint Promise_all (promises : list Outcome) : M unit :=
  match promises with
  | [] => ret tt
  | Returns _ :: rest => Promise_all rest
  | Rejects e :: _ | Throws e :: _ => throw e
  end.

(** The two storage functions first try the VK cloud, in a block of their
    own: [Some r] stands for [return r] inside that block, [None] for
    falling through to the code below it. *)
Definition savePlayerData_vk (data : JsVal) : M (option bool) :=
  m <- get_vars ;;
  if vk_storage_in_use m then
    try_catch
      (ps <- save_field data "coins" "gameCoins" (ToString E) [] ;;
       ps <- save_field data "hints" "gameHints" (ToString E) ps ;;
       ps <- save_field data "undos" "gameUndos" (ToString E) ps ;;
       ps <- save_field data "maxLevel" "gameMaxLevel" (ToString E) ps ;;
       ps <- save_field data "noAds" "gameNoAds"
               (fun v => if truthy v then "1" else "0") ps ;;
       Promise_all ps ;;
       ret (Some true))
      (fun _ => ret None)
  else ret None.

Definition savePlayerData (data : JsVal) : M bool :=
  viaVK <- savePlayerData_vk data ;;
  match viaVK with
  | Some r => ret r
  | None =>
      m <- get_vars ;;
      match bridge m with
      | None =>
          try_catch
            (json <- lift (JSON_stringify E data) ;;
             localStorage_setItem "cloudSave"
               (match json with Some text => text | None => "undefined" end) ;;
             ret true)
            (fun _ => ret false)
      | Some _ =>
          try_catch
            (o <- call (StorageSet data) ;;
             await o ;;
             ret true)
            (fun _ => ret false)
      end
  end.

(** The body of [result.keys.forEach(item => ...)]. *)
Definition parse_item (data : list (string * JsVal)) (item : JsVal)
  : M (list (string * JsVal)) :=
  key <- lift (get_prop item "key") ;;
  value <- lift (get_prop item "value") ;;
  ret (if is_str key "gameCoins" && truthy value
       then set_field "coins" (parseInt value) data
       else if is_str key "gameHints" && truthy value
       then set_field "hints" (parseInt value) data
       else if is_str key "gameUndos" && truthy value
       then set_field "undos" (parseInt value) data
       else if is_str key "gameMaxLevel" && truthy value
       then set_field "maxLevel" (parseInt value) data
       else if is_str key "gameNoAds" && truthy value
       then set_field "noAds" (VBool (is_str value "1")) data
       else data).

Fixpoint forEach (items : list JsVal) (data : list (string * JsVal))
  : M (list (string * JsVal)) :=
  match items with
  | [] => ret data
  | item :: rest =>
      data' <- parse_item data item ;;
      forEach rest data'
  end.

(** [if (result.keys) result.keys.forEach(...)].  An array runs the body on
    its items.  Any other truthy [keys] has no [forEach] to call, and the
    call throws: so it is when [result] itself is an array, whose [keys] is
    the inherited method.  The exception is an object that carries that
    method as its own [forEach]: called on an object it returns an iterator
    and never runs the body. *)
Definition parse_keys (result : JsVal) : M (list (string * JsVal)) :=
  keys <- lift (get_prop result "keys") ;;
  if truthy keys then
    match keys with
    | VArr items => forEach items []
    | VObj fs =>
        match assoc "forEach" fs with
        | VArrayKeys => ret []
        | _ => throw TypeError
        end
    | _ => throw TypeError
    end
  else ret [].

Definition vk_storage_keys : JsVal :=
  VObj [("keys", VArr [VStr "gameCoins"; VStr "gameHints"; VStr "gameUndos";
                       VStr "gameMaxLevel"; VStr "gameNoAds"])].

(** [syncData], built from the two legacy keys of [localStorage]. *)
Definition legacy_sync_data (localCoins localMaxLevel : JsVal)
  : list (string * JsVal) :=
  let syncData := [] in
  let syncData :=
    if truthy localCoins
    then set_field "coins" (parseInt localCoins) syncData
    else syncData in
  let syncData :=
    if truthy localMaxLevel
    then set_field "maxLevel" (parseInt localMaxLevel) syncData
    else syncData in
  syncData.

Definition loadPlayerData_vk : M (option JsVal) :=
  m <- get_vars ;;
  if vk_storage_in_use m then
    try_catch
      (o <- call (VKSend "VKWebAppStorageGet" vk_storage_keys) ;;
       result <- await o ;;
       data <- parse_keys result ;;
       match data with
       | [] =>
           localCoins <- localStorage_getItem "gameCoins" ;;
           localMaxLevel <- localStorage_getItem "maxLevel" ;;
           if truthy localCoins || truthy localMaxLevel then
             let syncData := legacy_sync_data localCoins localMaxLevel in
             savePlayerData (VObj syncData) ;;
             ret (Some (VObj syncData))
           else ret (Some (VObj data))
       | _ :: _ => ret (Some (VObj data))
       end)
      (fun _ => ret None)
  else ret None.

Definition loadPlayerData : M JsVal :=
  viaVK <- loadPlayerData_vk ;;
  match viaVK with
  | Some r => ret r
  | None =>
      m <- get_vars ;;
      match bridge m with
      | None =>
          try_catch
            (saved <- localStorage_getItem "cloudSave" ;;
             if truthy saved then lift (JSON_parse E saved)
             else ret (VObj []))
            (fun _ => ret (VObj []))
      | Some _ =>
          try_catch
            (o <- call StorageGet ;;
             data <- await o ;;
             ret (if truthy data then data else VObj []))
            (fun _ => ret (VObj []))
      end
  end.

(** *** Purchases *)

Definition makePurchase (productId : JsVal) : M JsVal :=
  m <- get_vars ;;
  match bridge m with
  | None => ret (VObj [("success", VBool true); ("bonuses", VObj [])])
  | Some _ =>
      try_catch
        (o <- call (PaymentsPurchase (VObj [("id", productId)])) ;;
         result <- await o ;;
         ret (VObj [("success", VBool true); ("bonuses", result)]))
        (fun error =>
           message <- lift (get_prop error "message") ;;
           ret (VObj [("success", VBool false); ("error", message)]))
  end.

(** *** VK extras *)

Definition showStickyBanner : M bool :=
  m <- get_vars ;;
  match bridge m with
  | None => ret false
  | Some b =>
      vk <- isVKPlatform ;;
      if negb vk then ret false
      else
        try_catch
          (viaVK <-
             match vkBridge m with
             | Some _ =>
                 try_catch
                   (o <- call (VKSend "VKWebAppShowBannerAd"
                                 (VObj [("banner_location", VStr "bottom")])) ;;
                    await o ;;
                    ret (Some true))
                   (fun vkError =>
                      (* vkError.error_data && vkError.error_data.error_code === 11 *)
                      lift (get_prop vkError "error_data") ;;
                      ret None)
             | None => ret None
             end ;;
           match viaVK with
           | Some r => ret r
           | None =>
               if advertisement b && showSticky_is_function b then
                 o <- call ShowSticky ;;
                 await o ;;
                 ret true
               else ret false
           end)
          (fun _ => ret false)
  end.

Definition openVKGroup : M unit :=
  m <- get_vars ;;
  vk <- isVKPlatform ;;
  match bridge m with
  | None => ret tt
  | Some _ =>
      if negb vk then ret tt
      else
        try_catch
          (o <- call (SocialJoinCommunity 217329390) ;;
           sync o)
          (fun _ =>
             try_catch
               (o <- call (WindowOpen "https://vk.com/public217329390") ;;
                sync o)
               (fun _ => ret tt))
  end.

Definition shareVK : M unit :=
  m <- get_vars ;;
  match bridge m with
  | None => ret tt
  | Some _ =>
      vk <- isVKPlatform ;;
      if negb vk then ret tt
      else
        try_catch
          (o <- call SocialShare ;;
           sync o)
          (fun _ => ret tt)
  end.

(** *** Catalogue and compatibility stubs *)

(** [{ price, currencyImage }] *)
Definition price_tag (price currencyImage : string) : JsVal :=
  VObj [("price", VStr price); ("currencyImage", VStr currencyImage)].

Definition getProductPrice (productId : JsVal) : M JsVal :=
  m <- get_vars ;;
  match bridge m with
  | None => ret (price_tag "99 ₽" "")
  | Some _ =>
      try_catch
        (ret (price_tag "99 ₽" ""))
        (fun _ => ret VNull)
  end.

Definition getAllProductPrices : M JsVal :=
  m <- get_vars ;;
  match bridge m with
  | None => ret (VObj [])
  | Some _ => ret (VObj [])
  end.

Definition showOtherGames : M JsVal := ret VUndef.

Definition canRequestReview : M JsVal :=
  ret (VObj [("canReview", VBool false); ("reason", VStr "not_implemented")]).

Definition requestGameReview : M bool := ret false.

End Wrapper.

(** ** Vocabulary of the statements *)

(** The external calls a computation makes when run from [w], with how each
    ended, in order. *)
Definition calls_of {A} (m : M A) (w : World) : list (ExtCall * Outcome) :=
  drop (length (trace w)) (trace (snd (m w))).

(** [f(); f(); ...; f()], [n] times. *)
Fixpoint repeat_call (n : nat) (f : M unit) : M unit :=
  match n with
  | O => ret tt
  | S k => f ;; repeat_call k f
  end.

(** A call of [showShopRewardedAd] from [w] is turned away by the cooldown. *)
Definition shop_blocked (E : Env) (w : World) : Prop :=
  exists v, fst (showShopRewardedAd E w) = Val v /\
            get_prop v "cooldown" = Val (VBool true).

(** [d] survives [JSON.parse(JSON.stringify(d))]; the text is never empty. *)
Definition JSON_serializable (E : Env) (d : JsVal) : Prop :=
  exists text, JSON_stringify E d = Val (Some text) /\
               text <> "" /\
               JSON_parse E (VStr text) = Val d.

(** [null] or [undefined]: the values a property read throws on. *)
Definition nullish (v : JsVal) : bool :=
  match v with
  | VUndef | VNull => true
  | _ => false
  end.

(** A computation that never ends in a thrown value. *)
Definition total {A} (m : M A) : Prop :=
  forall w, exists a, fst (m w) = Val a.

(** A computation that, when it does not throw, returns [x]. *)
Definition returns_only {A} (x : A) (m : M A) : Prop :=
  forall w, fst (m w) = Val x \/ exists e, fst (m w) = Exn e.

(** A computation that leaves the module variables alone and whose external
    calls all satisfy [P]. *)
Definition emits (P : ExtCall -> Prop) {A} (m : M A) : Prop :=
  forall w, exists calls,
    trace (snd (m w)) = (trace w ++ calls)%list /\
    vars (snd (m w)) = vars w /\
    Forall (fun co => P (fst co)) calls.

(** The calls that go to the VK bridge. *)
Definition is_vk_send (c : ExtCall) : Prop :=
  match c with
  | VKSend _ _ => True
  | _ => False
  end.

(** The calls [savePlayerData] can make: to the VK bridge, and
    [bridge.storage.set] with the data it was given. *)
Definition is_save_call (data : JsVal) (c : ExtCall) : Prop :=
  is_vk_send c \/ c = StorageSet data.

(** The first external call of a run from [w] is [c]. *)
Definition first_call {A} (c : ExtCall) (m : M A) (w : World) : Prop :=
  exists o rest, trace (snd (m w)) = (trace w ++ (c, o) :: rest)%list.

(** The world with the ads flag set to [v]. *)
Definition with_ads (v : JsVal) (w : World) : World :=
  snd (setAdsDisabled v w).

Arguments gameplayStart : simpl never.
Arguments gameplayStop : simpl never.
Arguments waitForBridge : simpl never.
Arguments initPlaygamaSDK : simpl never.
Arguments applyLanguageOnce : simpl never.
Arguments sendGameReadyOnce : simpl never.
Arguments showInterstitialAd : simpl never.
Arguments showRewardedAd : simpl never.
Arguments showShopRewardedAd : simpl never.
Arguments getShopRewardedCooldown : simpl never.
Arguments savePlayerData : simpl never.
Arguments savePlayerData_vk : simpl never.
Arguments loadPlayerData_vk : simpl never.
Arguments loadPlayerData : simpl never.
Arguments makePurchase : simpl never.
Arguments showStickyBanner : simpl never.
Arguments isVKPlatform : simpl never.
Arguments parse_keys : simpl never.

(** The world [t] steps later, nothing else changed. *)
Definition later (t : nat) (w : World) : World :=
  {| vars := vars w; tick := tick w + t; trace := trace w;
     localStorage := localStorage w |}.

(** What is known of the VK handle in any state the module can reach: it is
    only ever set after a successful start on a bridge of platform ['vk']. *)
Definition vk_consistent (m : ModuleState) : Prop :=
  vkBridge m <> None ->
  isInitialized m = true /\ exists b, bridge m = Some b /\ is_vk b = true.

(** The world with the module variables updated by [f]. *)
Definition with_vars (f : ModuleState -> ModuleState) (w : World) : World :=
  snd (modify f w).

(** [vkBridge.send('VKWebAppInit')] *)
Definition vk_init : ExtCall := VKSend "VKWebAppInit" VUndef.


(** The world after the external calls [sends] were made and answered. *)
Definition after_calls (sends : list (ExtCall * Outcome)) (w : World) : World :=
  {| vars := vars w; tick := tick w + length sends;
     trace := (trace w ++ sends)%list; localStorage := localStorage w |}.

(** The VK bridge is asynchronous: a call to it may reject, but does not
    throw at the call. *)
Definition vk_async (E : Env) : Prop :=
  forall n c e, is_vk_send c -> ext_outcome E n c <> Throws e.

(** The write [savePlayerData] sends for one field of [data], if any. *)
Definition field_write (data : JsVal) (field key : string)
    (conv : JsVal -> string) : list ExtCall :=
  match get_prop data field with
  | Val v => if is_defined v then [vk_storage_set key (conv v)] else []
  | Exn _ => []
  end.

(** The writes [savePlayerData] sends to the VK cloud for [data]. *)
Definition vk_writes (E : Env) (data : JsVal) : list ExtCall :=
  (field_write data "coins" "gameCoins" (ToString E) ++
   field_write data "hints" "gameHints" (ToString E) ++
   field_write data "undos" "gameUndos" (ToString E) ++
   field_write data "maxLevel" "gameMaxLevel" (ToString E) ++
   field_write data "noAds" "gameNoAds"
     (fun v => if truthy v then "1" else "0"))%list.

(** Every one of the calls [sends] succeeded. *)
Definition all_ok (sends : list (ExtCall * Outcome)) : bool :=
  forallb (fun co => negb (failed (snd co))) sends.

(** The fields the VK cloud holds as numbers. *)
Definition counter_fields : list string := ["coins"; "hints"; "undos"; "maxLevel"].

(** A property of player data as the VK block builds it: a counter with a
    number (possibly [NaN]) or [noAds] with a boolean. *)
Definition known_field (kv : string * JsVal) : Prop :=
  (fst kv ∈ counter_fields /\ exists n, snd kv = js_number n) \/
  (fst kv = "noAds" /\ exists b, snd kv = VBool b).

Definition player_data_shape (fs : list (string * JsVal)) : Prop :=
  NoDup (map fst fs) /\ Forall known_field fs.

(** A property that may be absent from an object. *)
Definition opt_field {A} (k : string) (f : A -> JsVal) (o : option A)
  : list (string * JsVal) :=
  match o with
  | Some a => [(k, f a)]
  | None => []
  end.

(** Player data with integer counters and a [noAds] flag, each optional. *)
Definition player_data (coins hints undos maxLevel : option Z)
    (noAds : option bool) : list (string * JsVal) :=
  (opt_field "coins" VNum coins ++ opt_field "hints" VNum hints ++
   opt_field "undos" VNum undos ++ opt_field "maxLevel" VNum maxLevel ++
   opt_field "noAds" VBool noAds)%list.

(** The [{ key, value }] object a [VKWebAppStorageSet] call carries. *)
Definition sent_item (c : ExtCall) : list JsVal :=
  match c with
  | VKSend "VKWebAppStorageSet" params => [params]
  | _ => []
  end.

(** The answer of a VK cloud that holds exactly what [writes] stored. *)
Definition cloud_answer (writes : list ExtCall) : JsVal :=
  VObj [("keys", VArr (flat_map sent_item writes))].

(** [String] prints the integer [z] as a non-empty text that [parseInt]
    reads back as [z]. *)
Definition integer_round_trips (E : Env) (z : Z) : Prop :=
  ToString E (VNum z) <> "" /\
  parseInt10 E (VStr (ToString E (VNum z))) = Some z.

(** The same for a counter of the player data, if it is there. *)
Definition counter_round_trips (E : Env) (counter : option Z) : Prop :=
  match counter with
  | Some z => integer_round_trips E z
  | None => True
  end.

(** [vkBridge.send('VKWebAppShowBannerAd', { banner_location: 'bottom' })] *)
Definition vk_banner : ExtCall :=
  VKSend "VKWebAppShowBannerAd" (VObj [("banner_location", VStr "bottom")]).

(** [bridge.social.joinCommunity] with the group of the game, and the page
    opened instead when that call throws. *)
Definition join_group : ExtCall := SocialJoinCommunity 217329390.
Definition group_page : ExtCall := WindowOpen "https://vk.com/public217329390".




(** ** Sample environments *)

(** Concrete bridges, builtins and worlds, to run the functions on. *)
Module Sample.

Definition vk : Bridge :=
  {| platform_id := "vk"; platform_language := VStr "ru";
     advertisement := true; showSticky_is_function := true |}.

Definition web : Bridge :=
  {| platform_id := "yandex"; platform_language := VStr "en";
     advertisement := true; showSticky_is_function := false |}.

(** [String(v)] on the values that occur. *)
Definition to_string (v : JsVal) : string :=
  match v with
  | VUndef => "undefined"
  | VNull => "null"
  | VBool true => "true"
  | VBool false => "false"
  | VNum z => pretty z
  | VNaN => "NaN"
  | VStr s => s
  | VArr _ => ""
  | VObj _ => "[object Object]"
  | VArrayKeys => "function keys() { [native code] }"
  end.

Definition digit (c : ascii) : option Z :=
  let n := Z.of_nat (nat_of_ascii c) in
  if ((48 <=? n) && (n <=? 57))%Z then Some (n - 48)%Z else None.

(** The leading decimal digits of a string, read as a number. *)
Fixpoint digits (s : string) (acc : option Z) : option Z :=
  match s with
  | EmptyString => acc
  | String c rest =>
      match digit c with
      | Some d =>
          digits rest (Some (10 * (match acc with Some a => a | None => 0 end) + d)%Z)
      | None => acc
      end
  end.

(** [parseInt(v, 10)] on unsigned decimal strings and on integers. *)
Definition parse_int (v : JsVal) : option Z :=
  match v with
  | VStr s => digits s None
  | VNum z => Some z
  | _ => None
  end.

Definition quote : string := String (ascii_of_nat 34) EmptyString.

(** The JSON text of an object whose properties are all integers. *)
Fixpoint json_fields (fs : list (string * JsVal)) : option string :=
  match fs with
  | [] => Some ""
  | (k, VNum z) :: rest =>
      let field := quote ++ k ++ quote ++ ":" ++ pretty z in
      match json_fields rest with
      | Some more =>
          Some (if String.eqb more "" then field else field ++ "," ++ more)
      | None => None
      end
  | _ => None
  end.

Definition stringify (v : JsVal) : Res (option string) :=
  match v with
  | VUndef => Val None
  | VObj fs =>
      match json_fields fs with
      | Some body => Val (Some ("{" ++ body ++ "}"))
      | None => Exn TypeError
      end
  | _ => Exn TypeError
  end.

(** The player data the samples save. *)
Definition save : JsVal := VObj [("coins", VNum 120); ("maxLevel", VNum 7)].

Definition SyntaxError : JsVal := VObj [("name", VStr "SyntaxError")].

(** [JSON.parse] on the two texts the samples store. *)
Definition parse (v : JsVal) : Res JsVal :=
  match v with
  | VStr s =>
      if String.eqb s "{}" then Val (VObj [])
      else match stringify save with
           | Val (Some text) => if String.eqb s text then Val save else Exn SyntaxError
           | _ => Exn SyntaxError
           end
  | _ => Exn SyntaxError
  end.

Definition QuotaExceededError : JsVal :=
  VObj [("name", VStr "QuotaExceededError")].

Definition NetworkError : JsVal :=
  VObj [("message", VStr "network")].

(** An environment from a clock, the behaviour of the bridges, the faults of
    [localStorage] and the appearance of [window.bridge]. *)
Definition env (now : nat -> Z) (outcome : nat -> ExtCall -> Outcome)
    (fault : nat -> option JsVal) (wb : nat -> option Bridge) : Env :=
  {| date_now := now; ext_outcome := outcome; storage_fault := fault;
     window_bridge := wb; window_vkBridge := fun _ => Some WindowVkBridge;
     JSON_stringify := stringify; JSON_parse := parse;
     parseInt10 := parse_int; ToString := to_string |}.

(** Every external call succeeds, the storage works, no bridge shows up, and
    the clock starts at [t0] and advances one millisecond per step. *)
Definition quiet (t0 : Z) : Env :=
  env (fun n => (t0 + Z.of_nat n)%Z) (fun _ _ => Returns VUndef)
      (fun _ => None) (fun _ => None).

(** The VK bridge rejects every call, the Playgama bridge accepts them. *)
Definition vk_down (t0 : Z) : Env :=
  env (fun n => (t0 + Z.of_nat n)%Z)
      (fun _ c => match c with
                  | VKSend _ _ => Rejects NetworkError
                  | _ => Returns VUndef
                  end)
      (fun _ => None) (fun _ => None).

(** Every call to a bridge rejects. *)
Definition offline (t0 : Z) : Env :=
  env (fun n => (t0 + Z.of_nat n)%Z) (fun _ _ => Rejects NetworkError)
      (fun _ => None) (fun _ => Some web).

(** [localStorage] throws on every access. *)
Definition storage_full (t0 : Z) : Env :=
  env (fun n => (t0 + Z.of_nat n)%Z) (fun _ _ => Returns VUndef)
      (fun _ => Some QuotaExceededError) (fun _ => None).

(** The VK cloud answers with the five keys, all empty. *)
Definition empty_cloud : JsVal :=
  VObj [("keys",
         VArr [VObj [("key", VStr "gameCoins"); ("value", VStr "")];
               VObj [("key", VStr "gameHints"); ("value", VStr "")];
               VObj [("key", VStr "gameUndos"); ("value", VStr "")];
               VObj [("key", VStr "gameMaxLevel"); ("value", VStr "")];
               VObj [("key", VStr "gameNoAds"); ("value", VStr "")]])].

Definition vk_empty_cloud (t0 : Z) : Env :=
  env (fun n => (t0 + Z.of_nat n)%Z)
      (fun _ c => match c with
                  | VKSend "VKWebAppStorageGet" _ => Returns empty_cloud
                  | _ => Returns VUndef
                  end)
      (fun _ => None) (fun _ => None).

(** A world around module variables, with a given [localStorage]. *)
Definition world (m : ModuleState) (ls : gmap string string) : World :=
  {| vars := m; tick := 0; trace := []; localStorage := ls |}.

(** The module after a successful start on a bridge. *)
Definition started (b : Bridge) (v : option VkHandle) : ModuleState :=
  {| bridge := Some b; vkBridge := v; isInitialized := true;
     languageApplied := false; gameReadySent := false;
     lastInterstitialTime := 0; lastShopRewardedTime := 0;
     isAdsDisabled := VBool false |}.

(** The bridge script of a VK page has loaded, and every call succeeds. *)
Definition on_vk (t0 : Z) : Env :=
  env (fun n => (t0 + Z.of_nat n)%Z) (fun _ _ => Returns VUndef)
      (fun _ => None) (fun _ => Some vk).

(** Every call to a bridge rejects without a reason. *)
Definition silent_failure (t0 : Z) : Env :=
  env (fun n => (t0 + Z.of_nat n)%Z) (fun _ _ => Rejects VUndef)
      (fun _ => None) (fun _ => Some web).

(** The VK cloud holds 350 coins and the no-ads flag. *)
Definition stored_cloud : JsVal :=
  VObj [("keys",
         VArr [VObj [("key", VStr "gameCoins"); ("value", VStr "350")];
               VObj [("key", VStr "gameHints"); ("value", VStr "")];
               VObj [("key", VStr "gameUndos"); ("value", VStr "")];
               VObj [("key", VStr "gameMaxLevel"); ("value", VStr "")];
               VObj [("key", VStr "gameNoAds"); ("value", VStr "1")]])].

Definition vk_stored_cloud (t0 : Z) : Env :=
  env (fun n => (t0 + Z.of_nat n)%Z)
      (fun _ c => match c with
                  | VKSend "VKWebAppStorageGet" _ => Returns stored_cloud
                  | _ => Returns VUndef
                  end)
      (fun _ => None) (fun _ => None).

(** Signed decimal numerals, printed and read back. *)
Definition decimal (v : JsVal) : string :=
  match v with
  | VNum z => DecimalString.NilZero.string_of_int (Z.to_int z)
  | _ => to_string v
  end.

Definition read_decimal (v : JsVal) : option Z :=
  match v with
  | VStr s => option_map Z.of_int (DecimalString.NilZero.int_of_string s)
  | VNum z => Some z
  | _ => None
  end.

Definition signed : Env :=
  {| date_now := fun n => Z.of_nat n;
     ext_outcome := fun _ _ => Returns VUndef;
     storage_fault := fun _ => None;
     window_bridge := fun _ => None;
     window_vkBridge := fun _ => Some WindowVkBridge;
     JSON_stringify := stringify; JSON_parse := parse;
     parseInt10 := read_decimal; ToString := decimal |}.

End Sample.

Local Open Scope list_scope.

(** ** Arithmetic of the remaining time *)

Lemma ceil_div_spec (a : Z) :
  (1000 * (ceil_div a 1000 - 1) < a <= 1000 * ceil_div a 1000)%Z.
Proof.
  unfold ceil_div.
  pose proof (Z.div_mod (- a) 1000 ltac:(lia)) as Hdm.
  pose proof (Z.mod_pos_bound (- a) 1000 ltac:(lia)) as Hb.
  lia.
Qed.

Lemma ceil_div_pos (a : Z) : (0 < a)%Z -> (0 < ceil_div a 1000)%Z.
Proof. intros Ha. pose proof (ceil_div_spec a). lia. Qed.

(** ** Running the primitives *)

(** Case analysis on whatever the next step of a run depends on. *)
Ltac run_step :=
  match goal with
  | |- context [match ?o with Returns _ => _ | Rejects _ => _ | Throws _ => _ end] =>
      destruct o eqn:?; cbn
  | |- context [if ?c then _ else _] => destruct c eqn:?; cbn
  | |- context [match ?o with Some _ => _ | None => _ end] =>
      destruct o eqn:?; cbn
  end.

Ltac unfold_monad :=
  unfold bind, ret, throw, lift, try_catch, get_vars, modify, call, await, sync,
    call_advertisement, Date_now in *.

(** The two gameplay signals never throw: with a bridge they leave one
    [sendMessage] in the trace, without one they do nothing. *)
Lemma gameplayStop_bridge E w b :
  bridge (vars w) = Some b ->
  gameplayStop E w =
    (Val tt, record_call (PlatformSendMessage "gameplay_stopped")
               (ext_outcome E (tick w) (PlatformSendMessage "gameplay_stopped")) w).
Proof.
  intros Hb. unfold gameplayStop. unfold_monad. cbn. rewrite Hb. cbn.
  run_step; reflexivity.
Qed.

Lemma gameplayStop_dev E w :
  bridge (vars w) = None -> gameplayStop E w = (Val tt, w).
Proof. intros Hb. unfold gameplayStop. unfold_monad. cbn. by rewrite Hb. Qed.

Lemma gameplayStart_bridge E w b :
  bridge (vars w) = Some b ->
  gameplayStart E w =
    (Val tt, record_call (PlatformSendMessage "gameplay_started")
               (ext_outcome E (tick w) (PlatformSendMessage "gameplay_started")) w).
Proof.
  intros Hb. unfold gameplayStart. unfold_monad. cbn. rewrite Hb. cbn.
  run_step; reflexivity.
Qed.

Lemma gameplayStart_dev E w :
  bridge (vars w) = None -> gameplayStart E w = (Val tt, w).
Proof. intros Hb. unfold gameplayStart. unfold_monad. cbn. by rewrite Hb. Qed.

(** What [showRewardedAd] does, case by case. *)
Lemma showRewardedAd_dev E reason w :
  bridge (vars w) = None -> showRewardedAd E reason w = (Val (rewarded true), w).
Proof. intros Hb. unfold showRewardedAd. unfold_monad. cbn. by rewrite Hb. Qed.

Lemma showRewardedAd_bridge E reason w b :
  bridge (vars w) = Some b ->
  let stop := PlatformSendMessage "gameplay_stopped" in
  let start := PlatformSendMessage "gameplay_started" in
  let w1 := record_call stop (ext_outcome E (tick w) stop) w in
  let o := ext_outcome E (tick w1) ShowRewarded in
  let w2 := if advertisement b then record_call ShowRewarded o w1 else w1 in
  let w3 := record_call start (ext_outcome E (tick w2) start) w2 in
  showRewardedAd E reason w =
    (Val (rewarded (advertisement b && negb (failed o))), w3).
Proof.
  intros Hb. cbn zeta. unfold showRewardedAd.
  unfold bind at 1. unfold get_vars at 1. rewrite Hb.
  unfold try_catch, bind. rewrite (gameplayStop_bridge E w b Hb).
  unfold call_advertisement.
  destruct (advertisement b); cbn.
  - destruct (ext_outcome E (S (tick w)) ShowRewarded); cbn;
      erewrite gameplayStart_bridge by (cbn; eassumption); reflexivity.
  - erewrite gameplayStart_bridge by (cbn; eassumption); reflexivity.
Qed.

Lemma showRewardedAd_returns E reason w :
  exists b, fst (showRewardedAd E reason w) = Val (rewarded b).
Proof.
  destruct (bridge (vars w)) as [b|] eqn:Hb.
  - rewrite (showRewardedAd_bridge E reason w b Hb). eauto.
  - rewrite (showRewardedAd_dev E reason w Hb). eauto.
Qed.

Lemma showRewardedAd_vars E reason w :
  vars (snd (showRewardedAd E reason w)) = vars w.
Proof.
  destruct (bridge (vars w)) as [b|] eqn:Hb.
  - rewrite (showRewardedAd_bridge E reason w b Hb). cbn.
    by destruct (advertisement b).
  - by rewrite (showRewardedAd_dev E reason w Hb).
Qed.

(** C7: [getShopRewardedCooldown] reads the clock once and touches nothing
    else: module variables, trace and storage are as before.  It returns 0
    when at least 600000 ms have passed since [lastShopRewardedTime] and
    ceil((600000 - elapsed) / 1000) otherwise, and it returns 0 exactly when
    [showShopRewardedAd], called at the same instant, is not turned away by
    the cooldown. *)
Theorem getShopRewardedCooldown_spec E w :
  let elapsed := (date_now E (tick w) - lastShopRewardedTime (vars w))%Z in
  let r := fst (getShopRewardedCooldown E w) in
  let w' := snd (getShopRewardedCooldown E w) in
  vars w' = vars w /\ trace w' = trace w /\ localStorage w' = localStorage w /\
  ((SHOP_REWARDED_COOLDOWN <= elapsed)%Z -> r = Val 0%Z) /\
  ((elapsed < SHOP_REWARDED_COOLDOWN)%Z ->
     r = Val (ceil_div (SHOP_REWARDED_COOLDOWN - elapsed) 1000)) /\
  (r = Val 0%Z <-> ~ shop_blocked E w).
Proof.
  cbn zeta.
  unfold shop_blocked, getShopRewardedCooldown, showShopRewardedAd.
  unfold_monad. cbn.
  set (elapsed := (date_now E (tick w) - lastShopRewardedTime (vars w))%Z).
  destruct (Z.leb_spec SHOP_REWARDED_COOLDOWN elapsed) as [Hge|Hlt];
    destruct (Z.ltb_spec elapsed SHOP_REWARDED_COOLDOWN) as [Hlt'|Hge']; try lia; cbn.
  - repeat split; try done; try lia.
    intros _ (v & Hv & Hc).
    destruct (showRewardedAd_returns E "shop_coins" (step w)) as [b Hb].
    destruct (showRewardedAd E "shop_coins" (step w)) as [r1 w1]; cbn in Hb; subst r1.
    destruct b; cbn in Hv; injection Hv as <-; cbn in Hc; discriminate.
  - pose proof (ceil_div_pos (SHOP_REWARDED_COOLDOWN - elapsed) ltac:(lia)) as Hpos.
    repeat split; try done; try lia.
    + intros Heq. injection Heq as Heq. lia.
    + intros Hnb. exfalso. apply Hnb. eexists. split; [reflexivity|]. reflexivity.
Qed.

(** What [showInterstitialAd] does, case by case. *)
Lemma showInterstitialAd_disabled E reason w :
  truthy (isAdsDisabled (vars w)) = true ->
  showInterstitialAd E reason w = (Val (shown false), w).
Proof. intros Hd. unfold showInterstitialAd. unfold_monad. cbn. by rewrite Hd. Qed.

Lemma showInterstitialAd_blocked E reason w :
  truthy (isAdsDisabled (vars w)) = false ->
  (date_now E (tick w) - lastInterstitialTime (vars w) < INTERSTITIAL_COOLDOWN)%Z ->
  showInterstitialAd E reason w = (Val (shown false), step w).
Proof.
  intros Hd Hlt. unfold showInterstitialAd. unfold_monad. cbn. rewrite Hd.
  apply Z.ltb_lt in Hlt. by rewrite Hlt.
Qed.

Lemma showInterstitialAd_dev E reason w :
  truthy (isAdsDisabled (vars w)) = false ->
  (INTERSTITIAL_COOLDOWN <= date_now E (tick w) - lastInterstitialTime (vars w))%Z ->
  bridge (vars w) = None ->
  showInterstitialAd E reason w = (Val (shown true), step w).
Proof.
  intros Hd Hge Hb. unfold showInterstitialAd. unfold_monad. cbn. rewrite Hd.
  apply Z.ltb_ge in Hge. by rewrite Hge, Hb.
Qed.

Lemma showInterstitialAd_bridge E reason w b :
  truthy (isAdsDisabled (vars w)) = false ->
  (INTERSTITIAL_COOLDOWN <= date_now E (tick w) - lastInterstitialTime (vars w))%Z ->
  bridge (vars w) = Some b ->
  let stop := PlatformSendMessage "gameplay_stopped" in
  let start := PlatformSendMessage "gameplay_started" in
  let w1 := record_call stop (ext_outcome E (S (tick w)) stop) (step w) in
  let o := ext_outcome E (tick w1) ShowInterstitial in
  let w2 := if advertisement b then record_call ShowInterstitial o w1 else w1 in
  let w3 := if advertisement b && negb (failed o)
            then snd (modify (set_lastInterstitialTime (date_now E (tick w2)))
                        (step w2))
            else w2 in
  showInterstitialAd E reason w =
    (Val (shown (advertisement b && negb (failed o))),
     record_call start (ext_outcome E (tick w3) start) w3).
Proof.
  intros Hd Hge Hb. cbn zeta. unfold showInterstitialAd.
  unfold bind at 1. unfold get_vars at 1. rewrite Hd.
  unfold bind at 1. unfold Date_now at 1.
  apply Z.ltb_ge in Hge. rewrite Hge, Hb.
  unfold try_catch, bind.
  rewrite (gameplayStop_bridge E (step w) b Hb). cbn [tick step].
  unfold call_advertisement.
  destruct (advertisement b); cbn.
  - destruct (ext_outcome E (S (S (tick w))) ShowInterstitial); cbn;
      erewrite gameplayStart_bridge by (cbn; eassumption); reflexivity.
  - erewrite gameplayStart_bridge by (cbn; eassumption); reflexivity.
Qed.


Lemma calls_of_nil {A} (m : M A) w : trace (snd (m w)) = trace w -> calls_of m w = [].
Proof. intros H. unfold calls_of. rewrite H. apply drop_all. Qed.

Lemma calls_of_app {A} (m : M A) w calls :
  trace (snd (m w)) = trace w ++ calls -> calls_of m w = calls.
Proof. intros H. unfold calls_of. rewrite H. apply drop_app_length. Qed.

(** The calls of an allowed [showInterstitialAd] through a bridge. *)
Lemma showInterstitialAd_bridge_calls E reason w b :
  truthy (isAdsDisabled (vars w)) = false ->
  (INTERSTITIAL_COOLDOWN <= date_now E (tick w) - lastInterstitialTime (vars w))%Z ->
  bridge (vars w) = Some b ->
  let o := ext_outcome E (S (S (tick w))) ShowInterstitial in
  exists o1 o3,
    calls_of (showInterstitialAd E reason) w =
      (PlatformSendMessage "gameplay_stopped", o1)
      :: (if advertisement b then [(ShowInterstitial, o)] else [])
      ++ [(PlatformSendMessage "gameplay_started", o3)].
Proof.
  intros Hd Hge Hb. cbn zeta.
  pose proof (showInterstitialAd_bridge E reason w b Hd Hge Hb) as Hrun.
  cbn zeta in Hrun. cbn in Hrun.
  destruct (advertisement b); cbn in Hrun |- *;
    [destruct (failed _); cbn in Hrun|];
    do 2 eexists; apply calls_of_app; rewrite Hrun; cbn;
    rewrite <- !app_assoc; cbn; reflexivity.
Qed.

(** C1 (as amended): a call of [showInterstitialAd] made less than 90000 ms
    after [lastInterstitialTime] returns [{shown:false}], makes no external
    call and leaves the module variables alone.  Once 90000 ms have passed,
    what happens depends on the two guards around the cooldown: with ads
    disabled the call is turned away all the same; without a bridge it
    answers [{shown:true}] with no call and no new stamp; with ads enabled
    and a bridge that has its advertisement object, [showInterstitial] is
    invoked, and when it succeeds the call returns [{shown:true}] and
    [lastInterstitialTime] becomes the [Date.now()] read after the ad, so
    that a later call less than 90000 ms after that stamp is turned away. *)
Theorem showInterstitialAd_cooldown E reason w :
  let elapsed := (date_now E (tick w) - lastInterstitialTime (vars w))%Z in
  let r := fst (showInterstitialAd E reason w) in
  let w' := snd (showInterstitialAd E reason w) in
  ((elapsed < INTERSTITIAL_COOLDOWN)%Z ->
     r = Val (shown false) /\
     calls_of (showInterstitialAd E reason) w = [] /\
     vars w' = vars w) /\
  (truthy (isAdsDisabled (vars w)) = true ->
     r = Val (shown false) /\ w' = w) /\
  ((INTERSTITIAL_COOLDOWN <= elapsed)%Z ->
   truthy (isAdsDisabled (vars w)) = false ->
   bridge (vars w) = None ->
     r = Val (shown true) /\
     calls_of (showInterstitialAd E reason) w = [] /\
     vars w' = vars w) /\
  ((INTERSTITIAL_COOLDOWN <= elapsed)%Z ->
   truthy (isAdsDisabled (vars w)) = false ->
   forall b, bridge (vars w) = Some b -> advertisement b = true ->
     exists o,
       (ShowInterstitial, o) ∈ calls_of (showInterstitialAd E reason) w /\
       (failed o = false ->
          r = Val (shown true) /\
          lastInterstitialTime (vars w') = date_now E (3 + tick w) /\
          forall reason2 w2,
            vars w2 = vars w' ->
            (date_now E (tick w2) - date_now E (3 + tick w)
               < INTERSTITIAL_COOLDOWN)%Z ->
            fst (showInterstitialAd E reason2 w2) = Val (shown false) /\
            calls_of (showInterstitialAd E reason2) w2 = [])).
Proof.
  cbn zeta.
  assert (Hblocked : forall reason0 w0,
    (date_now E (tick w0) - lastInterstitialTime (vars w0)
       < INTERSTITIAL_COOLDOWN)%Z ->
    fst (showInterstitialAd E reason0 w0) = Val (shown false) /\
    calls_of (showInterstitialAd E reason0) w0 = [] /\
    vars (snd (showInterstitialAd E reason0 w0)) = vars w0).
  { intros reason0 w0 Hlt.
    destruct (truthy (isAdsDisabled (vars w0))) eqn:Hd.
    - rewrite showInterstitialAd_disabled by done.
      repeat split. apply calls_of_nil. by rewrite showInterstitialAd_disabled.
    - rewrite showInterstitialAd_blocked by done.
      repeat split. apply calls_of_nil. by rewrite showInterstitialAd_blocked. }
  split; [apply Hblocked|].
  split.
  { intros Hd. by rewrite showInterstitialAd_disabled. }
  split.
  { intros Hge Hd Hb. rewrite showInterstitialAd_dev by done.
    repeat split. apply calls_of_nil. by rewrite showInterstitialAd_dev. }
  intros Hge Hd b Hb Hadv.
  exists (ext_outcome E (S (S (tick w))) ShowInterstitial).
  destruct (showInterstitialAd_bridge_calls E reason w b Hd Hge Hb) as (o1 & o3 & Hcalls).
  rewrite Hcalls, Hadv. split.
  { cbn. apply elem_of_cons. right. apply elem_of_cons. by left. }
  intros Hok.
  pose proof (showInterstitialAd_bridge E reason w b Hd Hge Hb) as Hrun.
  cbn zeta in Hrun. cbn in Hrun. rewrite Hadv in Hrun. cbn in Hrun.
  rewrite Hok in Hrun. cbn in Hrun.
  rewrite Hrun. cbn. repeat split.
  all: apply Hblocked; match goal with Hv : vars _ = _ |- _ => rewrite Hv end; done.
Qed.

(** Either a call of [showInterstitialAd] is over before it reaches the
    bridge, or it goes through the bridge with ads enabled and the cooldown
    over. *)
Lemma showInterstitialAd_cases E reason w :
  (calls_of (showInterstitialAd E reason) w = [] /\
   vars (snd (showInterstitialAd E reason w)) = vars w) \/
  (exists b, bridge (vars w) = Some b /\
     truthy (isAdsDisabled (vars w)) = false /\
     (INTERSTITIAL_COOLDOWN
        <= date_now E (tick w) - lastInterstitialTime (vars w))%Z).
Proof.
  destruct (truthy (isAdsDisabled (vars w))) eqn:Hd.
  { left. rewrite showInterstitialAd_disabled by done.
    split; [|done]. apply calls_of_nil. by rewrite showInterstitialAd_disabled. }
  destruct (Z.lt_ge_cases (date_now E (tick w) - lastInterstitialTime (vars w))
              INTERSTITIAL_COOLDOWN) as [Hlt|Hge].
  { left. rewrite showInterstitialAd_blocked by done.
    split; [|done]. apply calls_of_nil. by rewrite showInterstitialAd_blocked. }
  destruct (bridge (vars w)) as [b|] eqn:Hb; [right; eauto|].
  left. rewrite showInterstitialAd_dev by done.
  split; [|done]. apply calls_of_nil. by rewrite showInterstitialAd_dev.
Qed.

Lemma showInterstitialAd_failure E reason w o :
  (ShowInterstitial, o) ∈ calls_of (showInterstitialAd E reason) w ->
  failed o = true ->
  fst (showInterstitialAd E reason w) = Val (shown false) /\
  lastInterstitialTime (vars (snd (showInterstitialAd E reason w)))
    = lastInterstitialTime (vars w).
Proof.
  intros Hin Hfail.
  destruct (showInterstitialAd_cases E reason w) as [[Hnil _]|(b & Hb & Hd & Hge)].
  { rewrite Hnil in Hin. inversion Hin. }
  destruct (showInterstitialAd_bridge_calls E reason w b Hd Hge Hb)
    as (o1 & o3 & Hcalls).
  rewrite Hcalls in Hin.
  pose proof (showInterstitialAd_bridge E reason w b Hd Hge Hb) as Hrun.
  cbn zeta in Hrun. cbn in Hrun.
  destruct (advertisement b); cbn in Hin, Hrun.
  + apply elem_of_cons in Hin as [Hin|Hin]; [discriminate|].
    apply elem_of_cons in Hin as [Hin|Hin].
    * injection Hin as ->. rewrite Hfail in Hrun. cbn in Hrun.
      rewrite Hrun. done.
    * apply list_elem_of_singleton in Hin. discriminate.
  + apply elem_of_cons in Hin as [Hin|Hin]; [discriminate|].
    apply list_elem_of_singleton in Hin. discriminate.
Qed.

(** C10: the cooldown stamps move only when an ad was shown.  If the
    bridge's [showInterstitial] throws or rejects, [showInterstitialAd]
    returns [{shown:false}] and [lastInterstitialTime] is what it was; more
    generally any call that answers [{shown:false}] leaves it alone.  If
    the result of [showShopRewardedAd] is not rewarded,
    [lastShopRewardedTime] is what it was. *)
Theorem cooldown_stamps_only_on_success E reason w :
  (forall o,
     (ShowInterstitial, o) ∈ calls_of (showInterstitialAd E reason) w ->
     failed o = true ->
     fst (showInterstitialAd E reason w) = Val (shown false) /\
     lastInterstitialTime (vars (snd (showInterstitialAd E reason w)))
       = lastInterstitialTime (vars w)) /\
  (fst (showInterstitialAd E reason w) = Val (shown false) ->
     lastInterstitialTime (vars (snd (showInterstitialAd E reason w)))
       = lastInterstitialTime (vars w)) /\
  (forall v r,
     fst (showShopRewardedAd E w) = Val v ->
     get_prop v "rewarded" = Val r ->
     truthy r = false ->
     lastShopRewardedTime (vars (snd (showShopRewardedAd E w)))
       = lastShopRewardedTime (vars w)).
Proof.
  pose proof (showInterstitialAd_cases E reason w) as Hcases.
  split; [|split].
  - intros o. apply showInterstitialAd_failure.
  - intros Hres.
    destruct Hcases as [[_ Hv]|(b & Hb & Hd & Hge)]; [by rewrite Hv|].
    pose proof (showInterstitialAd_bridge E reason w b Hd Hge Hb) as Hrun.
    cbn zeta in Hrun. cbn in Hrun. rewrite Hrun in Hres |- *. cbn in Hres |- *.
    destruct (advertisement b && negb (failed _)); [discriminate|].
    by destruct (advertisement b).
  - intros v r. unfold showShopRewardedAd. unfold_monad. cbn.
    destruct (Z.ltb_spec (date_now E (tick w) - lastShopRewardedTime (vars w))
                SHOP_REWARDED_COOLDOWN) as [Hlt|Hge]; cbn; [done|].
    destruct (showRewardedAd_returns E "shop_coins" (step w)) as [b Hb].
    pose proof (showRewardedAd_vars E "shop_coins" (step w)) as Hv.
    destruct (showRewardedAd E "shop_coins" (step w)) as [r1 w1].
    cbn in Hb, Hv. subst r1. cbn.
    destruct b; cbn.
    + intros Hres Hget Ht. injection Hres as <-. cbn in Hget.
      injection Hget as <-. discriminate.
    + intros _ _ _. by rewrite Hv.
Qed.

(** C2: a call of [showShopRewardedAd] made less than 600000 ms after
    [lastShopRewardedTime] returns [{rewarded:false, cooldown:true,
    remainingTime}] with [remainingTime] = ceil((600000 - elapsed) / 1000),
    makes no external call and leaves the module variables alone.  Otherwise
    it runs [showRewardedAd('shop_coins')]; exactly when that result is
    rewarded, [lastShopRewardedTime] becomes the [Date.now()] read after the
    ad and the call returns [{rewarded:true, cooldown:false,
    remainingTime:0}]; when it is not, the stamp stays and [rewarded] is
    [false]. *)
Theorem showShopRewardedAd_cooldown E w :
  let elapsed := (date_now E (tick w) - lastShopRewardedTime (vars w))%Z in
  let r := fst (showShopRewardedAd E w) in
  let w' := snd (showShopRewardedAd E w) in
  ((elapsed < SHOP_REWARDED_COOLDOWN)%Z ->
     r = Val (shop_result (VBool false) true
                (ceil_div (SHOP_REWARDED_COOLDOWN - elapsed) 1000)) /\
     calls_of (showShopRewardedAd E) w = [] /\
     vars w' = vars w) /\
  ((SHOP_REWARDED_COOLDOWN <= elapsed)%Z ->
     let ad := showRewardedAd E "shop_coins" (step w) in
     exists b,
       fst ad = Val (rewarded b) /\
       r = Val (shop_result (VBool b) false 0) /\
       trace w' = trace (snd ad) /\
       lastShopRewardedTime (vars w') =
         (if b then date_now E (tick (snd ad))
          else lastShopRewardedTime (vars w))).
Proof.
  cbn zeta. split.
  - intros Hlt. apply Z.ltb_lt in Hlt.
    assert (Hrun : showShopRewardedAd E w =
      (Val (shop_result (VBool false) true
              (ceil_div (SHOP_REWARDED_COOLDOWN
                 - (date_now E (tick w) - lastShopRewardedTime (vars w))) 1000)),
       step w)).
    { unfold showShopRewardedAd. unfold_monad. cbn. by rewrite Hlt. }
    rewrite Hrun. repeat split. apply calls_of_nil. by rewrite Hrun.
  - intros Hge. apply Z.ltb_ge in Hge.
    destruct (showRewardedAd_returns E "shop_coins" (step w)) as [b Hb].
    pose proof (showRewardedAd_vars E "shop_coins" (step w)) as Hv.
    exists b. split; [exact Hb|].
    unfold showShopRewardedAd. unfold_monad. cbn. rewrite Hge.
    destruct (showRewardedAd E "shop_coins" (step w)) as [r1 w1].
    cbn in Hb, Hv. subst r1. cbn.
    destruct b; cbn; repeat split. by rewrite Hv.
Qed.

(** Once the shop cooldown is over, [showShopRewardedAd] runs
    [showRewardedAd('shop_coins')] and reports its [rewarded]. *)
Lemma showShopRewardedAd_allowed E w :
  (SHOP_REWARDED_COOLDOWN
     <= date_now E (tick w) - lastShopRewardedTime (vars w))%Z ->
  exists r,
    fst (showRewardedAd E "shop_coins" (step w)) = Val (rewarded r) /\
    fst (showShopRewardedAd E w) = Val (shop_result (VBool r) false 0) /\
    trace (snd (showShopRewardedAd E w))
      = trace (snd (showRewardedAd E "shop_coins" (step w))).
Proof.
  intros Hge. apply Z.ltb_ge in Hge.
  destruct (showRewardedAd_returns E "shop_coins" (step w)) as [r Hr].
  exists r. split; [exact Hr|].
  unfold showShopRewardedAd. unfold_monad. cbn. rewrite Hge.
  destruct (showRewardedAd E "shop_coins" (step w)) as [r1 w1].
  cbn in Hr. subst r1. cbn.
  destruct r; cbn; by split.
Qed.

(** C9: the ads-disabled flag gates interstitials only.  After
    [setAdsDisabled(true)] a call of [showInterstitialAd], and so any number
    of them, returns [{shown:false}] and leaves the whole world as it was: no
    external call, no clock read, no module variable changed.
    [showRewardedAd] and [showShopRewardedAd] do not look at the flag: run
    with the flag set to any value, they return the same result, make the
    same calls and leave the same world, flag aside; in particular
    [showRewardedAd] through a bridge still invokes [showRewarded].  So does
    [showShopRewardedAd] with the flag set, once its own cooldown is over:
    it runs [showRewardedAd('shop_coins')], makes exactly the calls of that
    run, reports its [rewarded], and through a bridge [showRewarded] is
    invoked. *)
Theorem ads_disabled_gates_only_interstitials E reason w v :
  (let w1 := with_ads (VBool true) w in
   showInterstitialAd E reason w1 = (Val (shown false), w1) /\
   forall n, snd (repeat_call n (x <- showInterstitialAd E reason ;; ret tt) w1) = w1) /\
  showRewardedAd E reason (with_ads v w) =
    (fst (showRewardedAd E reason w), with_ads v (snd (showRewardedAd E reason w))) /\
  showShopRewardedAd E (with_ads v w) =
    (fst (showShopRewardedAd E w), with_ads v (snd (showShopRewardedAd E w))) /\
  (forall b, bridge (vars w) = Some b -> advertisement b = true ->
     exists o, (ShowRewarded, o) ∈ calls_of (showRewardedAd E reason)
                                      (with_ads (VBool true) w)) /\
  (let w1 := with_ads (VBool true) w in
   (SHOP_REWARDED_COOLDOWN
      <= date_now E (tick w) - lastShopRewardedTime (vars w))%Z ->
   (exists r,
      fst (showRewardedAd E "shop_coins" (step w1)) = Val (rewarded r) /\
      fst (showShopRewardedAd E w1) = Val (shop_result (VBool r) false 0)) /\
   calls_of (showShopRewardedAd E) w1
     = calls_of (showRewardedAd E "shop_coins") (step w1) /\
   (forall b, bridge (vars w) = Some b -> advertisement b = true ->
      exists o, (ShowRewarded, o) ∈ calls_of (showShopRewardedAd E) w1)).
Proof.
  assert (Hrew : forall reason0 w0,
    showRewardedAd E reason0 (with_ads v w0) =
      (fst (showRewardedAd E reason0 w0),
       with_ads v (snd (showRewardedAd E reason0 w0)))).
  { intros reason0 w0. destruct (bridge (vars w0)) as [b|] eqn:Hb.
    - rewrite (showRewardedAd_bridge E reason0 w0 b Hb).
      rewrite (showRewardedAd_bridge E reason0 (with_ads v w0) b) by exact Hb.
      cbn. by destruct (advertisement b).
    - rewrite (showRewardedAd_dev E reason0 w0 Hb).
      by rewrite (showRewardedAd_dev E reason0 (with_ads v w0)) by exact Hb. }
  split; [|split; [apply Hrew|split; [|split]]].
  - cbn zeta.
    assert (Hone : showInterstitialAd E reason (with_ads (VBool true) w)
                   = (Val (shown false), with_ads (VBool true) w)).
    { by apply showInterstitialAd_disabled. }
    split; [exact Hone|].
    generalize (with_ads (VBool true) w) Hone. intros u Hu.
    induction n as [|n IH]; [done|].
    cbn [repeat_call]. unfold bind at 1. unfold bind at 1. rewrite Hu.
    unfold ret at 1. exact IH.
  - unfold showShopRewardedAd. unfold_monad. cbn.
    destruct (_ <? _)%Z; [done|].
    change (step {| vars := set_isAdsDisabled v (vars w); tick := tick w;
                    trace := trace w; localStorage := localStorage w |})
      with (with_ads v (step w)).
    rewrite Hrew.
    destruct (showRewardedAd_returns E "shop_coins" (step w)) as [b Hb].
    destruct (showRewardedAd E "shop_coins" (step w)) as [r1 w1].
    cbn in Hb. subst r1. cbn. by destruct b.
  - intros b Hb Hadv.
    pose proof (showRewardedAd_bridge E reason (with_ads (VBool true) w) b Hb)
      as Hrun.
    cbn zeta in Hrun. cbn in Hrun. rewrite Hadv in Hrun.
    unfold with_ads, setAdsDisabled, modify. cbn [snd].
    eexists. erewrite calls_of_app.
    2:{ rewrite Hrun. cbn. rewrite <- !app_assoc. cbn. reflexivity. }
    apply elem_of_cons. right. apply elem_of_cons. by left.
  - cbn zeta. intros Hge.
    assert (Hge1 : (SHOP_REWARDED_COOLDOWN
                      <= date_now E (tick (with_ads (VBool true) w))
                         - lastShopRewardedTime (vars (with_ads (VBool true) w)))%Z)
      by exact Hge.
    revert Hge1.
    assert (Hb1 : bridge (vars (with_ads (VBool true) w)) = bridge (vars w))
      by reflexivity.
    revert Hb1. generalize (with_ads (VBool true) w). intros w1 Hb1 Hge1.
    destruct (showShopRewardedAd_allowed E w1 Hge1) as (r & Hr & Hres & Htr).
    assert (Hcalls : calls_of (showShopRewardedAd E) w1
                     = calls_of (showRewardedAd E "shop_coins") (step w1)).
    { unfold calls_of. by rewrite Htr. }
    split; [by exists r|]. split; [exact Hcalls|].
    intros b Hb Hadv. rewrite Hcalls. rewrite <- Hb1 in Hb.
    pose proof (showRewardedAd_bridge E "shop_coins" (step w1) b Hb) as Hrun.
    cbn zeta in Hrun. cbn in Hrun. rewrite Hadv in Hrun.
    eexists. erewrite calls_of_app.
    2:{ rewrite Hrun. cbn. rewrite <- !app_assoc. cbn. reflexivity. }
    apply elem_of_cons. right. apply elem_of_cons. by left.
Qed.

(** What the two one-shot functions do, case by case. *)
Lemma applyLanguageOnce_done E w :
  languageApplied (vars w) = true -> applyLanguageOnce E w = (Val tt, w).
Proof. intros H. unfold applyLanguageOnce. unfold_monad. cbn. by rewrite H. Qed.

Lemma applyLanguageOnce_first E w :
  languageApplied (vars w) = false ->
  let w1 := snd (modify (set_languageApplied true) w) in
  applyLanguageOnce E w =
    (Val tt,
     match bridge (vars w) with
     | None => w1
     | Some b =>
         let gameLang :=
           if truthy (platform_language b)
           then if is_str (platform_language b) "ru" then "ru" else "en"
           else "ru" in
         record_call (ImportSetLang gameLang)
           (ext_outcome E (tick w) (ImportSetLang gameLang)) w1
     end).
Proof.
  intros H. unfold applyLanguageOnce. unfold_monad. cbn. rewrite H.
  destruct (bridge (vars w)) as [b|]; cbn; [|done].
  by destruct (truthy (platform_language b)).
Qed.

Lemma sendGameReadyOnce_done E w :
  gameReadySent (vars w) = true -> sendGameReadyOnce E w = (Val tt, w).
Proof. intros H. unfold sendGameReadyOnce. unfold_monad. cbn. by rewrite H. Qed.

Lemma sendGameReadyOnce_first E w :
  gameReadySent (vars w) = false ->
  let w1 := snd (modify (set_gameReadySent true) w) in
  sendGameReadyOnce E w =
    (Val tt,
     match bridge (vars w) with
     | None => w1
     | Some _ =>
         record_call (PlatformSendMessage "game_ready")
           (ext_outcome E (tick w) (PlatformSendMessage "game_ready")) w1
     end).
Proof.
  intros H. unfold sendGameReadyOnce. unfold_monad. cbn. rewrite H.
  destruct (bridge (vars w)) as [b|]; cbn; [|done].
  by run_step.
Qed.

(** A function that never throws and, once run, has become the identity can
    be called any number of times for the price of one. *)
Lemma repeat_call_once (f : M unit) :
  (forall w, exists w', f w = (Val tt, w') /\ f w' = (Val tt, w')) ->
  forall n w, 1 <= n -> repeat_call n f w = f w.
Proof.
  intros Hf n w Hn.
  destruct n as [|n]; [lia|clear Hn].
  destruct (Hf w) as (w' & Hrun & Hfix).
  cbn [repeat_call]. unfold bind. rewrite Hrun.
  induction n as [|n IH]; [done|].
  cbn [repeat_call]. unfold bind. by rewrite Hfix.
Qed.

(** C8: [applyLanguageOnce] and [sendGameReadyOnce] are idempotent.  Called
    [n >= 1] times in a row, each leaves exactly the result and the world of
    a single call.  The call that finds the flag down raises it and, with a
    bridge, performs the action once (the language import, the [game_ready]
    message); a call that finds the flag up returns at once and changes
    nothing. *)
Theorem once_functions_idempotent E w n :
  1 <= n ->
  repeat_call n (applyLanguageOnce E) w = applyLanguageOnce E w /\
  repeat_call n (sendGameReadyOnce E) w = sendGameReadyOnce E w /\
  languageApplied (vars (snd (applyLanguageOnce E w))) = true /\
  gameReadySent (vars (snd (sendGameReadyOnce E w))) = true /\
  (languageApplied (vars w) = true -> applyLanguageOnce E w = (Val tt, w)) /\
  (gameReadySent (vars w) = true -> sendGameReadyOnce E w = (Val tt, w)) /\
  (languageApplied (vars w) = false ->
   forall b, bridge (vars w) = Some b ->
     exists o,
       calls_of (applyLanguageOnce E) w =
         [(ImportSetLang
             (if truthy (platform_language b)
              then if is_str (platform_language b) "ru" then "ru" else "en"
              else "ru"), o)]) /\
  (gameReadySent (vars w) = false ->
   forall b, bridge (vars w) = Some b ->
     exists o,
       calls_of (sendGameReadyOnce E) w = [(PlatformSendMessage "game_ready", o)]).
Proof.
  intros Hn.
  assert (Hlang : forall u, exists u',
    applyLanguageOnce E u = (Val tt, u') /\ languageApplied (vars u') = true).
  { intros u. destruct (languageApplied (vars u)) eqn:Hl.
    - exists u. by rewrite applyLanguageOnce_done.
    - eexists. rewrite applyLanguageOnce_first by done. split; [reflexivity|].
      by destruct (bridge (vars u)). }
  assert (Hready : forall u, exists u',
    sendGameReadyOnce E u = (Val tt, u') /\ gameReadySent (vars u') = true).
  { intros u. destruct (gameReadySent (vars u)) eqn:Hl.
    - exists u. by rewrite sendGameReadyOnce_done.
    - eexists. rewrite sendGameReadyOnce_first by done. split; [reflexivity|].
      by destruct (bridge (vars u)). }
  repeat split.
  - apply repeat_call_once; [|exact Hn].
    intros u. destruct (Hlang u) as (u' & Hrun & Hflag).
    exists u'. split; [exact Hrun|]. by apply applyLanguageOnce_done.
  - apply repeat_call_once; [|exact Hn].
    intros u. destruct (Hready u) as (u' & Hrun & Hflag).
    exists u'. split; [exact Hrun|]. by apply sendGameReadyOnce_done.
  - destruct (Hlang w) as (u' & Hrun & Hflag). by rewrite Hrun.
  - destruct (Hready w) as (u' & Hrun & Hflag). by rewrite Hrun.
  - apply applyLanguageOnce_done.
  - apply sendGameReadyOnce_done.
  - intros Hl b Hb. eexists. apply calls_of_app.
    rewrite applyLanguageOnce_first by done. rewrite Hb. reflexivity.
  - intros Hl b Hb. eexists. apply calls_of_app.
    rewrite sendGameReadyOnce_first by done. rewrite Hb. reflexivity.
Qed.

(** ** Waiting for the bridge *)

(** Polling only lets time pass: it never throws and touches neither the
    module variables nor the trace nor the storage. *)
Lemma interval_run E n w :
  exists r k,
    interval E n w =
      (Val r, {| vars := vars w; tick := tick w + k; trace := trace w;
                 localStorage := localStorage w |}).
Proof.
  revert w. induction n as [|n IH]; intros w; cbn [interval].
  - exists None, 0. unfold ret. rewrite Nat.add_0_r. by destruct w.
  - unfold bind, read_window_bridge.
    destruct (window_bridge E (tick w)) as [b|].
    + exists (Some b), 1. unfold ret, step. by rewrite Nat.add_1_r.
    + destruct (IH (step w)) as (r & k & Hrun).
      exists r, (S k). rewrite Hrun. cbn. by rewrite Nat.add_succ_r.
Qed.

(** With [window.bridge] undefined at every poll, the wait gives up. *)
Lemma interval_timeout E n w :
  (forall k, k < n -> window_bridge E (tick w + k) = None) ->
  fst (interval E n w) = Val None.
Proof.
  revert w. induction n as [|n IH]; intros w Hnone; cbn [interval]; [done|].
  unfold bind, read_window_bridge.
  pose proof (Hnone 0 ltac:(lia)) as H0. rewrite Nat.add_0_r in H0. rewrite H0.
  apply IH. intros k Hk. cbn.
  specialize (Hnone (S k) ltac:(lia)). by rewrite Nat.add_succ_r in Hnone.
Qed.

Lemma waitForBridge_run E w :
  exists r k,
    waitForBridge E w =
      (Val r, {| vars := vars w; tick := tick w + k; trace := trace w;
                 localStorage := localStorage w |}).
Proof.
  unfold waitForBridge, bind, read_window_bridge.
  destruct (window_bridge E (tick w)) as [b|].
  - exists (Some b), 1. unfold ret, step. by rewrite Nat.add_1_r.
  - destruct (interval_run E maxAttempts (step w)) as (r & k & Hrun).
    exists r, (S k). rewrite Hrun. cbn. by rewrite Nat.add_succ_r.
Qed.

Lemma waitForBridge_timeout E w :
  (forall k, k <= maxAttempts -> window_bridge E (tick w + k) = None) ->
  fst (waitForBridge E w) = Val None.
Proof.
  intros Hnone. unfold waitForBridge, bind, read_window_bridge.
  pose proof (Hnone 0 ltac:(lia)) as H0. rewrite Nat.add_0_r in H0. rewrite H0.
  apply interval_timeout. intros k Hk. cbn.
  specialize (Hnone (S k) ltac:(lia)). by rewrite Nat.add_succ_r in Hnone.
Qed.

(** The three ways a call of [initPlaygamaSDK] that gets past the
    already-initialised shortcut can end. *)
Lemma initPlaygamaSDK_fresh E w :
  isInitialized (vars w) = false \/ bridge (vars w) = None ->
  let r := fst (initPlaygamaSDK E w) in
  let w' := snd (initPlaygamaSDK E w) in
  isInitialized (vars w') = true /\
  ((fst (waitForBridge E w) = Val None /\ r = Val None /\
    calls_of (initPlaygamaSDK E) w = []) \/
   (exists br o,
      fst (waitForBridge E w) = Val (Some br) /\ failed o = true /\
      r = Val None /\ calls_of (initPlaygamaSDK E) w = [(BridgeInitialize, o)]) \/
   (exists br v rest,
      fst (waitForBridge E w) = Val (Some br) /\
      r = Val (Some br) /\
      calls_of (initPlaygamaSDK E) w = (BridgeInitialize, Returns v) :: rest /\
      forall c o, (c, o) ∈ rest -> c = VKSend "VKWebAppInit" VUndef)).
Proof.
  intros Hguard. cbn zeta.
  destruct (waitForBridge_run E w) as (r0 & k & Hwait).
  assert (Hbody : initPlaygamaSDK E w =
    try_catch
      (b <- waitForBridge E ;;
       modify (set_bridge b) ;;
       match b with
       | None => modify (set_isInitialized true) ;; ret None
       | Some br =>
           o <- call E BridgeInitialize ;;
           await o ;;
           modify (set_isInitialized true) ;;
           (if is_vk br then
              wv <- read_window_vkBridge E ;;
              match wv with
              | Some h =>
                  modify (set_vkBridge (Some h)) ;;
                  try_catch
                    (o <- call E (VKSend "VKWebAppInit" VUndef) ;;
                     await o ;;
                     ret tt)
                    (fun _ => modify (set_vkBridge None))
              | None => ret tt
              end
            else ret tt) ;;
           ret (Some br)
       end)
      (fun _ => modify (set_isInitialized true) ;; ret None) w).
  { unfold initPlaygamaSDK. unfold bind at 1. unfold get_vars at 1.
    destruct Hguard as [Hi|Hb]; [rewrite Hi; reflexivity|].
    rewrite Hb. by destruct (isInitialized (vars w)). }
  unfold calls_of.
  destruct (initPlaygamaSDK E w) as [r w'].
  unfold try_catch in Hbody. unfold bind at 1 in Hbody. rewrite Hwait in Hbody.
  cbn [fst snd].
  destruct r0 as [br|].
  2:{ unfold_monad. cbn in Hbody. injection Hbody as -> ->. cbn.
      split; [done|]. left. rewrite Hwait. repeat split. apply drop_all. }
  rewrite Hwait. cbn [fst].
  unfold_monad. unfold read_window_vkBridge in Hbody. cbn in Hbody.
  destruct (ext_outcome E (tick w + k) BridgeInitialize) as [v|e|e] eqn:Hinit;
    cbn in Hbody.
  - destruct (is_vk br); cbn in Hbody;
      [destruct (window_vkBridge E (S (tick w + k))); cbn in Hbody;
       [destruct (ext_outcome E (S (S (tick w + k))) (VKSend "VKWebAppInit" VUndef));
        cbn in Hbody|]|];
      injection Hbody as -> ->; cbn;
      (split; [done|]); right; right; exists br, v;
      rewrite <- ?app_assoc, drop_app_length; cbn;
      eexists; (split; [done|]); (split; [done|]); (split; [reflexivity|]);
      intros c o Hin;
      repeat (apply elem_of_cons in Hin as [Hin|Hin]; [congruence|]);
      inversion Hin.
  - injection Hbody as -> ->; cbn.
    split; [done|]. right; left. exists br, (Rejects e).
    rewrite drop_app_length. done.
  - injection Hbody as -> ->; cbn.
    split; [done|]. right; left. exists br, (Throws e).
    rewrite drop_app_length. done.
Qed.

Lemma initPlaygamaSDK_shortcut E w b :
  isInitialized (vars w) = true -> bridge (vars w) = Some b ->
  initPlaygamaSDK E w = (Val (Some b), w).
Proof.
  intros Hi Hb. unfold initPlaygamaSDK. unfold_monad. cbn. by rewrite Hi, Hb.
Qed.

(** C6: [initPlaygamaSDK] tolerates a bridge that is absent or that fails.
    If the call waits for the bridge (it did not return the bridge of an
    earlier successful call) and [window.bridge] stays undefined at the first
    check and at all 30 polls, or if [bridge.initialize()] is called and
    throws or rejects, then [initPlaygamaSDK] does not throw, returns
    [null], and leaves [isInitialized] set, so that [isYandexSDKReady()]
    answers [true] afterwards. *)
Theorem initPlaygamaSDK_tolerates_failure E w :
  ((isInitialized (vars w) = false \/ bridge (vars w) = None) /\
   forall k, k <= maxAttempts -> window_bridge E (tick w + k) = None) \/
  (exists o, (BridgeInitialize, o) ∈ calls_of (initPlaygamaSDK E) w /\
             failed o = true) ->
  let w' := snd (initPlaygamaSDK E w) in
  fst (initPlaygamaSDK E w) = Val None /\
  isInitialized (vars w') = true /\
  fst (isYandexSDKReady w') = Val true.
Proof.
  intros Hcause. cbn zeta.
  assert (Hready : forall u, isInitialized (vars u) = true ->
                             fst (isYandexSDKReady u) = Val true).
  { intros u Hu. unfold isYandexSDKReady. unfold_monad. cbn. by rewrite Hu. }
  assert (Hguard : isInitialized (vars w) = false \/ bridge (vars w) = None).
  { destruct Hcause as [[Hg _]|(o & Hin & _)]; [exact Hg|].
    destruct (isInitialized (vars w)) eqn:Hi; [|by left].
    destruct (bridge (vars w)) as [b|] eqn:Hb; [|by right].
    unfold calls_of in Hin. rewrite (initPlaygamaSDK_shortcut E w b Hi Hb) in Hin.
    cbn in Hin. rewrite drop_all in Hin. inversion Hin. }
  destruct (initPlaygamaSDK_fresh E w Hguard) as [Hinit Hcases].
  cbn zeta in Hcases.
  split; [|split; [exact Hinit|by apply Hready]].
  destruct Hcases as [(_ & Hr & _)|[(br & o & _ & _ & Hr & _)
                                   |(br & v & rest & Hwait & Hr & Hcalls & Hrest)]];
    [exact Hr|exact Hr|].
  exfalso. destruct Hcause as [[_ Hnone]|(o & Hin & Hfail)].
  - rewrite (waitForBridge_timeout E w Hnone) in Hwait. discriminate.
  - rewrite Hcalls in Hin. apply elem_of_cons in Hin as [Hin|Hin].
    + injection Hin as ->. discriminate.
    + specialize (Hrest _ _ Hin). discriminate.
Qed.

(** ** Composing runs *)

Lemma total_ret {A} (a : A) : total (ret a).
Proof. intros w. by exists a. Qed.

Lemma total_bind {A B} (m : M A) (k : A -> M B) :
  total m -> (forall a, total (k a)) -> total (bind m k).
Proof.
  intros Hm Hk w. unfold bind. destruct (Hm w) as [a Ha].
  destruct (m w) as [r w1]. cbn in Ha. subst r. apply Hk.
Qed.

Lemma total_try_catch {A} (body : M A) (handler : JsVal -> M A) :
  (forall e, total (handler e)) -> total (try_catch body handler).
Proof.
  intros Hh w. unfold try_catch. destruct (body w) as [[a|e] w1]; [by exists a|].
  apply Hh.
Qed.

Lemma total_get_vars : total get_vars.
Proof. intros w. by eexists. Qed.

Lemma returns_only_ret {A} (x : A) : returns_only x (ret x).
Proof. intros w. by left. Qed.

Lemma returns_only_bind {A B} (x : B) (m : M A) (k : A -> M B) :
  (forall a, returns_only x (k a)) -> returns_only x (bind m k).
Proof.
  intros Hk w. unfold bind. destruct (m w) as [[a|e] w1]; [apply Hk|].
  right. by exists e.
Qed.

Lemma try_catch_returns {A} (x y : A) (body : M A) :
  returns_only x body ->
  forall w, fst (try_catch body (fun _ => ret y) w) = Val x \/
            fst (try_catch body (fun _ => ret y) w) = Val y.
Proof.
  intros Hb w. unfold try_catch. destruct (Hb w) as [Hv|[e He]];
    destruct (body w) as [[a|e'] w1]; cbn in *; try discriminate.
  - by left.
  - by right.
Qed.

Lemma emits_ret P {A} (a : A) : emits P (ret a).
Proof. intros w. exists []. by rewrite app_nil_r. Qed.

Lemma emits_throw P {A} e : emits P (@throw A e).
Proof. intros w. exists []. by rewrite app_nil_r. Qed.

Lemma emits_lift P {A} (r : Res A) : emits P (lift r).
Proof. intros w. exists []. by rewrite app_nil_r. Qed.

Lemma emits_get_vars P : emits P get_vars.
Proof. intros w. exists []. by rewrite app_nil_r. Qed.

Lemma emits_call E (P : ExtCall -> Prop) c : P c -> emits P (call E c).
Proof.
  intros Hc w. exists [(c, ext_outcome E (tick w) c)]. repeat split.
  by apply Forall_singleton.
Qed.

Lemma emits_getItem E P k : emits P (localStorage_getItem E k).
Proof.
  intros w. exists []. unfold localStorage_getItem.
  rewrite app_nil_r. by destruct (storage_fault E (tick w)).
Qed.

Lemma emits_setItem E P k v : emits P (localStorage_setItem E k v).
Proof.
  intros w. exists []. unfold localStorage_setItem.
  rewrite app_nil_r. by destruct (storage_fault E (tick w)).
Qed.

Lemma emits_bind P {A B} (m : M A) (k : A -> M B) :
  emits P m -> (forall a, emits P (k a)) -> emits P (bind m k).
Proof.
  intros Hm Hk w. unfold bind.
  destruct (Hm w) as (c1 & Ht1 & Hv1 & Hf1).
  destruct (m w) as [[a|e] w1]; cbn in *.
  - destruct (Hk a w1) as (c2 & Ht2 & Hv2 & Hf2).
    exists (c1 ++ c2). rewrite Ht2, Ht1, Hv2, Hv1, app_assoc.
    repeat split. by apply Forall_app.
  - by exists c1.
Qed.

Lemma emits_try_catch P {A} (body : M A) (handler : JsVal -> M A) :
  emits P body -> (forall e, emits P (handler e)) ->
  emits P (try_catch body handler).
Proof.
  intros Hm Hk w. unfold try_catch.
  destruct (Hm w) as (c1 & Ht1 & Hv1 & Hf1).
  destruct (body w) as [[a|e] w1]; cbn in *.
  - by exists c1.
  - destruct (Hk e w1) as (c2 & Ht2 & Hv2 & Hf2).
    exists (c1 ++ c2). rewrite Ht2, Ht1, Hv2, Hv1, app_assoc.
    repeat split. by apply Forall_app.
Qed.

Lemma emits_weaken (P Q : ExtCall -> Prop) {A} (m : M A) :
  (forall c, P c -> Q c) -> emits P m -> emits Q m.
Proof.
  intros HPQ Hm w. destruct (Hm w) as (calls & Ht & Hv & Hf).
  exists calls. repeat split; try done.
  eapply Forall_impl; [exact Hf|]. intros [c o]. apply HPQ.
Qed.

(** What [emits] says about the calls of a run. *)
Lemma emits_calls_of P {A} (m : M A) w c o :
  emits P m -> (c, o) ∈ calls_of m w -> P c.
Proof.
  intros Hm Hin. destruct (Hm w) as (calls & Ht & _ & Hf).
  rewrite (calls_of_app m w calls Ht) in Hin.
  rewrite Forall_forall in Hf. exact (Hf _ Hin).
Qed.

Lemma await_cases (o : Outcome) w :
  await o w = (match o with
               | Returns v => Val v
               | Rejects e | Throws e => Exn e
               end, w).
Proof. by destruct o. Qed.

Lemma emits_await P o : emits P (await o).
Proof. intros w. exists []. rewrite await_cases, app_nil_r. done. Qed.

Lemma emits_sync P o : emits P (sync o).
Proof. intros w. exists []. rewrite app_nil_r. by destruct o. Qed.

Ltac emits_tac :=
  repeat first
    [ apply emits_ret | apply emits_throw | apply emits_lift
    | apply emits_get_vars | apply emits_await | apply emits_sync
    | apply emits_getItem | apply emits_setItem
    | apply emits_call
    | apply emits_bind; [|intros ?]
    | apply emits_try_catch; [|intros ?]
    | match goal with
      | |- emits _ (if ?c then _ else _) => destruct c
      | |- emits _ (match ?o with Some _ => _ | None => _ end) => destruct o
      | |- emits _ (match ?o with Returns _ => _ | Rejects _ => _ | Throws _ => _ end) =>
          destruct o
      end ].

(** ** The storage functions *)

Lemma save_field_emits E data field key conv ps :
  emits is_vk_send (save_field E data field key conv ps).
Proof.
  unfold save_field, push_send. emits_tac. exact I.
Qed.

Lemma Promise_all_pure ps w : snd (Promise_all ps w) = w.
Proof.
  induction ps as [|[v|e|e] ps IH]; cbn; done.
Qed.

Lemma Promise_all_emits P ps : emits P (Promise_all ps).
Proof.
  intros w. exists []. rewrite Promise_all_pure, app_nil_r. done.
Qed.

Lemma savePlayerData_vk_emits E data : emits is_vk_send (savePlayerData_vk E data).
Proof.
  unfold savePlayerData_vk.
  apply emits_bind; [apply emits_get_vars|intros m].
  destruct (vk_storage_in_use m); [|apply emits_ret].
  apply emits_try_catch; [|intros e; apply emits_ret].
  repeat (apply emits_bind; [apply save_field_emits|intros ?]).
  apply emits_bind; [apply Promise_all_emits|intros ?]. apply emits_ret.
Qed.

Lemma savePlayerData_vk_on E data w :
  vk_storage_in_use (vars w) = true ->
  savePlayerData_vk E data w =
    try_catch
      (ps <- save_field E data "coins" "gameCoins" (ToString E) [] ;;
       ps <- save_field E data "hints" "gameHints" (ToString E) ps ;;
       ps <- save_field E data "undos" "gameUndos" (ToString E) ps ;;
       ps <- save_field E data "maxLevel" "gameMaxLevel" (ToString E) ps ;;
       ps <- save_field E data "noAds" "gameNoAds"
               (fun v => if truthy v then "1" else "0") ps ;;
       Promise_all ps ;;
       ret (Some true))
      (fun _ => ret None) w.
Proof.
  intros Hon. unfold savePlayerData_vk. unfold bind at 1. unfold get_vars at 1.
  by rewrite Hon.
Qed.

Lemma savePlayerData_vk_off E data w :
  vk_storage_in_use (vars w) = false ->
  savePlayerData_vk E data w = (Val None, w).
Proof.
  intros Hoff. unfold savePlayerData_vk. unfold bind at 1. unfold get_vars at 1.
  by rewrite Hoff.
Qed.

(** The VK block of [savePlayerData] either returns [true] or falls
    through; it never throws and never returns [false]. *)
Lemma savePlayerData_vk_result E data w :
  fst (savePlayerData_vk E data w) = Val (Some true) \/
  fst (savePlayerData_vk E data w) = Val None.
Proof.
  destruct (vk_storage_in_use (vars w)) eqn:Huse.
  - rewrite savePlayerData_vk_on by done.
    apply try_catch_returns.
    repeat (apply returns_only_bind; intros ?). apply returns_only_ret.
  - rewrite savePlayerData_vk_off by done. by right.
Qed.

Lemma savePlayerData_total E data : total (savePlayerData E data).
Proof.
  intros w. unfold savePlayerData. unfold bind at 1.
  destruct (savePlayerData_vk_result E data w) as [Hr|Hr];
    destruct (savePlayerData_vk E data w) as [r w1]; cbn in Hr; subst r.
  - by eexists.
  - unfold bind at 1. unfold get_vars at 1.
    destruct (bridge (vars w1)); apply total_try_catch; intros e; apply total_ret.
Qed.

Lemma savePlayerData_emits E data : emits (is_save_call data) (savePlayerData E data).
Proof.
  unfold savePlayerData.
  apply emits_bind.
  { eapply emits_weaken; [|apply savePlayerData_vk_emits]. intros c Hc. by left. }
  intros [r|]; [apply emits_ret|].
  emits_tac. by right.
Qed.

(** Parsing the answer of [VKWebAppStorageGet] is a computation on values
    alone. *)
Lemma forEach_pure E items data w : snd (forEach E items data w) = w.
Proof.
  revert data w. induction items as [|item items IH]; intros data w; [done|].
  cbn [forEach]. unfold bind at 1, parse_item. unfold_monad.
  destruct (get_prop item "key"); [|done].
  destruct (get_prop item "value"); [|done].
  apply IH.
Qed.

Lemma parse_keys_pure E result w : snd (parse_keys E result w) = w.
Proof.
  unfold parse_keys. unfold_monad.
  destruct (get_prop result "keys") as [keys|]; [|done].
  destruct (truthy keys); [|done].
  destruct keys as [| |? |? | |? |items|fs|]; try done; [|by destruct (assoc "forEach" fs)].
  apply forEach_pure.
Qed.

(** An answer that is itself an array cannot be parsed: its [keys] is the
    inherited method, which has no [forEach]. *)
Lemma parse_keys_array E items w :
  parse_keys E (VArr items) w = (Exn TypeError, w).
Proof. reflexivity. Qed.

Lemma parse_keys_emits E P result : emits P (parse_keys E result).
Proof.
  intros w. exists []. rewrite parse_keys_pure, app_nil_r. done.
Qed.

(** The calls [loadPlayerData] can make before it falls back to
    [bridge.storage.get]. *)
Lemma loadPlayerData_vk_emits E :
  emits (fun c => c <> StorageGet) (loadPlayerData_vk E).
Proof.
  unfold loadPlayerData_vk.
  apply emits_bind; [apply emits_get_vars|intros m].
  destruct (vk_storage_in_use m); [|apply emits_ret].
  apply emits_try_catch; [|intros e; apply emits_ret].
  apply emits_bind; [by apply emits_call|intros o].
  apply emits_bind; [apply emits_await|intros result].
  apply emits_bind; [apply parse_keys_emits|intros data].
  destruct data; [|apply emits_ret].
  apply emits_bind; [apply emits_getItem|intros localCoins].
  apply emits_bind; [apply emits_getItem|intros localMaxLevel].
  destruct (_ || _); [|apply emits_ret].
  apply emits_bind; [|intros ?; apply emits_ret].
  eapply emits_weaken; [|apply savePlayerData_emits].
  intros c [Hc| ->]; [|done]. by destruct c.
Qed.

Lemma loadPlayerData_vk_total E : total (loadPlayerData_vk E).
Proof.
  unfold loadPlayerData_vk.
  apply total_bind; [apply total_get_vars|intros m].
  destruct (vk_storage_in_use m); [|apply total_ret].
  apply total_try_catch. intros e. apply total_ret.
Qed.

Lemma loadPlayerData_vk_off E w :
  vk_storage_in_use (vars w) = false ->
  loadPlayerData_vk E w = (Val None, w).
Proof.
  intros Hoff. unfold loadPlayerData_vk. unfold bind at 1. unfold get_vars at 1.
  by rewrite Hoff.
Qed.


Lemma vk_storage_in_use_dev m : bridge m = None -> vk_storage_in_use m = false.
Proof. intros Hb. unfold vk_storage_in_use. rewrite Hb. by destruct (vkBridge m). Qed.

(** The [localStorage] branch of the two storage functions. *)
Lemma savePlayerData_dev E data w :
  bridge (vars w) = None ->
  savePlayerData E data w =
    match JSON_stringify E data, storage_fault E (tick w) with
    | Val json, None =>
        (Val true,
         store "cloudSave"
           (match json with Some text => text | None => "undefined" end) w)
    | Val _, Some _ => (Val false, step w)
    | Exn _, _ => (Val false, w)
    end.
Proof.
  intros Hb. unfold savePlayerData. unfold bind at 1.
  rewrite savePlayerData_vk_off by (by apply vk_storage_in_use_dev).
  unfold bind at 1. unfold get_vars at 1. rewrite Hb.
  unfold try_catch, bind, lift, localStorage_setItem, ret.
  destruct (JSON_stringify E data) as [json|e]; [|done].
  by destruct (storage_fault E (tick w)).
Qed.

Lemma loadPlayerData_dev E w :
  bridge (vars w) = None ->
  loadPlayerData E w =
    (match storage_fault E (tick w) with
     | Some _ => Val (VObj [])
     | None =>
         let saved := item_value (localStorage w !! "cloudSave") in
         if truthy saved
         then match JSON_parse E saved with
              | Val d => Val d
              | Exn _ => Val (VObj [])
              end
         else Val (VObj [])
     end, step w).
Proof.
  intros Hb. unfold loadPlayerData. unfold bind at 1.
  rewrite loadPlayerData_vk_off by (by apply vk_storage_in_use_dev).
  unfold bind at 1. unfold get_vars at 1. rewrite Hb.
  unfold try_catch, bind, lift, localStorage_getItem, ret.
  destruct (storage_fault E (tick w)); [done|]. cbn zeta.
  destruct (truthy _); [|done].
  by destruct (JSON_parse E _).
Qed.

(** C3 (as amended): the storage fallback round-trips.  With no bridge and
    a [localStorage] that does not throw, for every JSON-serializable [d],
    [savePlayerData(d)] stores [JSON.stringify(d)] under ['cloudSave'] and
    returns [true], and the [loadPlayerData()] that follows returns [d];
    when nothing is stored under the key, [loadPlayerData()] returns [{}]. *)
Theorem storage_fallback_roundtrip E w d :
  bridge (vars w) = None ->
  (forall n, storage_fault E n = None) ->
  JSON_serializable E d ->
  let saved := savePlayerData E d w in
  let loaded := loadPlayerData E (snd saved) in
  fst saved = Val true /\
  (exists text,
     JSON_stringify E d = Val (Some text) /\
     localStorage (snd saved) = <["cloudSave" := text]> (localStorage w)) /\
  fst loaded = Val d /\
  (forall u, bridge (vars u) = None ->
             localStorage u !! "cloudSave" = None ->
             fst (loadPlayerData E u) = Val (VObj [])).
Proof.
  intros Hb Hok (text & Hstr & Hne & Hparse). cbn zeta.
  rewrite (savePlayerData_dev E d w Hb), Hstr, Hok. cbn [fst snd].
  split; [done|]. split; [by exists text|]. split.
  - rewrite loadPlayerData_dev by done. rewrite Hok. cbn.
    rewrite lookup_insert_eq. cbn.
    destruct (String.eqb_spec text ""); [done|]. cbn. by rewrite Hparse.
  - intros u Hu Hnone. rewrite loadPlayerData_dev by done.
    by rewrite Hok, Hnone.
Qed.

(** ** The first call of a run *)

Lemma first_call_call E c w : first_call c (call E c) w.
Proof. eexists _, []. reflexivity. Qed.

Lemma first_call_bind P {A B} c (m : M A) (k : A -> M B) w :
  first_call c m w -> (forall a, emits P (k a)) -> first_call c (bind m k) w.
Proof.
  intros (o & rest & Ht) Hk. unfold first_call, bind.
  destruct (m w) as [[a|e] w1]; cbn in Ht.
  - destruct (Hk a w1) as (calls & Ht2 & _ & _).
    exists o, (rest ++ calls). rewrite Ht2, Ht, <- app_assoc. done.
  - by exists o, rest.
Qed.

Lemma first_call_try_catch P {A} c (body : M A) (handler : JsVal -> M A) w :
  first_call c body w -> (forall e, emits P (handler e)) ->
  first_call c (try_catch body handler) w.
Proof.
  intros (o & rest & Ht) Hk. unfold first_call, try_catch.
  destruct (body w) as [[a|e] w1]; cbn in Ht.
  - by exists o, rest.
  - destruct (Hk e w1) as (calls & Ht2 & _ & _).
    exists o, (rest ++ calls). rewrite Ht2, Ht, <- app_assoc. done.
Qed.

Lemma first_call_skip {A B} c (m : M A) (k : A -> M B) a w :
  m w = (Val a, w) -> first_call c (k a) w -> first_call c (bind m k) w.
Proof. intros Hm Hk. unfold first_call, bind. rewrite Hm. exact Hk. Qed.

Lemma first_call_ext {A} c (m m' : M A) w :
  m w = m' w -> first_call c m' w -> first_call c m w.
Proof. intros Heq. unfold first_call. by rewrite Heq. Qed.

Lemma save_field_first E data field key conv ps w v :
  get_prop data field = Val v -> is_defined v = true ->
  first_call (vk_storage_set key (conv v)) (save_field E data field key conv ps) w.
Proof.
  intros Hget Hdef. unfold save_field.
  eapply first_call_skip; [unfold lift; by rewrite Hget|].
  rewrite Hdef. unfold push_send.
  eapply (first_call_bind (fun _ => True)); [apply first_call_call|].
  intros o. emits_tac.
Qed.

Lemma save_field_skip E data field key conv ps w :
  get_prop data field = Val VUndef ->
  save_field E data field key conv ps w = (Val ps, w).
Proof. intros Hget. unfold save_field, bind, lift. by rewrite Hget. Qed.

(** On VK, the first thing [savePlayerData] does with data that carries
    [coins] is to send them to the VK cloud; with no [coins], [hints] or
    [undos] but a [maxLevel], it is to send the level. *)
Lemma savePlayerData_first_coins E data w v :
  vk_storage_in_use (vars w) = true ->
  get_prop data "coins" = Val v -> is_defined v = true ->
  first_call (vk_storage_set "gameCoins" (ToString E v)) (savePlayerData E data) w.
Proof.
  intros Huse Hget Hdef. unfold savePlayerData.
  eapply (first_call_bind (is_save_call data));
    [|intros [r|]; [apply emits_ret|emits_tac; by right]].
  eapply first_call_ext; [apply savePlayerData_vk_on; exact Huse|].
  eapply (first_call_try_catch is_vk_send); [|intros e; apply emits_ret].
  eapply first_call_bind; [by apply save_field_first|].
  intros ps.
  repeat (apply emits_bind; [apply save_field_emits|intros ?]).
  apply emits_bind; [apply Promise_all_emits|intros ?]. apply emits_ret.
Qed.

Lemma savePlayerData_first_maxLevel E data w v :
  vk_storage_in_use (vars w) = true ->
  get_prop data "coins" = Val VUndef ->
  get_prop data "hints" = Val VUndef ->
  get_prop data "undos" = Val VUndef ->
  get_prop data "maxLevel" = Val v -> is_defined v = true ->
  first_call (vk_storage_set "gameMaxLevel" (ToString E v)) (savePlayerData E data) w.
Proof.
  intros Huse Hc Hh Hu Hget Hdef. unfold savePlayerData.
  eapply (first_call_bind (is_save_call data));
    [|intros [r|]; [apply emits_ret|emits_tac; by right]].
  eapply first_call_ext; [apply savePlayerData_vk_on; exact Huse|].
  eapply (first_call_try_catch is_vk_send); [|intros e; apply emits_ret].
  do 3 (eapply first_call_skip; [by apply save_field_skip|]).
  eapply first_call_bind; [by apply save_field_first|].
  intros ps.
  repeat (apply emits_bind; [apply save_field_emits|intros ?]).
  apply emits_bind; [apply Promise_all_emits|intros ?]. apply emits_ret.
Qed.

(** The parse of a [VKWebAppStorageGet] result does not depend on the world
    it is run in. *)
Lemma forEach_fst E items data w u :
  fst (forEach E items data w) = fst (forEach E items data u).
Proof.
  revert data. induction items as [|item items IH]; intros data; [done|].
  cbn [forEach]. unfold parse_item. unfold_monad.
  destruct (get_prop item "key"); [|done].
  destruct (get_prop item "value"); [|done].
  apply IH.
Qed.

Lemma parse_keys_fst E result w u :
  fst (parse_keys E result w) = fst (parse_keys E result u).
Proof.
  unfold parse_keys. unfold_monad.
  destruct (get_prop result "keys") as [keys|]; [|done].
  destruct (truthy keys); [|done].
  destruct keys as [| |? |? | |? |items|fs|]; try done; [|by destruct (assoc "forEach" fs)].
  apply forEach_fst.
Qed.

Lemma loadPlayerData_vk_on E w :
  vk_storage_in_use (vars w) = true ->
  loadPlayerData_vk E w =
    try_catch
      (o <- call E (VKSend "VKWebAppStorageGet" vk_storage_keys) ;;
       result <- await o ;;
       data <- parse_keys E result ;;
       match data with
       | [] =>
           localCoins <- localStorage_getItem E "gameCoins" ;;
           localMaxLevel <- localStorage_getItem E "maxLevel" ;;
           if truthy localCoins || truthy localMaxLevel then
             let syncData := legacy_sync_data E localCoins localMaxLevel in
             savePlayerData E (VObj syncData) ;;
             ret (Some (VObj syncData))
           else ret (Some (VObj data))
       | _ :: _ => ret (Some (VObj data))
       end)
      (fun _ => ret None) w.
Proof.
  intros Hon. unfold loadPlayerData_vk. unfold bind at 1. unfold get_vars at 1.
  by rewrite Hon.
Qed.

(** C5: the merge of the legacy local keys on VK.  When the VK cloud is in
    use (VK bridge and Playgama bridge present, platform ['vk']), the
    [VKWebAppStorageGet] result parses to no key at all, and [localStorage]
    holds a non-empty ['gameCoins'] and/or ['maxLevel'], [loadPlayerData]
    parses them with [parseInt(.., 10)], hands the object
    [{coins}] and/or [{maxLevel}] to [savePlayerData], whose first act is to
    send the first of these values to the VK cloud, and returns exactly that
    object. *)
Theorem loadPlayerData_merges_legacy E w b h result :
  vkBridge (vars w) = Some h ->
  bridge (vars w) = Some b ->
  platform_id b = "vk" ->
  ext_outcome E (tick w) (VKSend "VKWebAppStorageGet" vk_storage_keys)
    = Returns result ->
  fst (parse_keys E result w) = Val [] ->
  storage_fault E (1 + tick w) = None ->
  storage_fault E (2 + tick w) = None ->
  let localCoins := item_value (localStorage w !! "gameCoins") in
  let localMaxLevel := item_value (localStorage w !! "maxLevel") in
  truthy localCoins || truthy localMaxLevel = true ->
  let syncData :=
    (if truthy localCoins then [("coins", parseInt E localCoins)] else []) ++
    (if truthy localMaxLevel then [("maxLevel", parseInt E localMaxLevel)] else []) in
  let w3 :=
    step (step (record_call (VKSend "VKWebAppStorageGet" vk_storage_keys)
                  (Returns result) w)) in
  fst (loadPlayerData E w) = Val (VObj syncData) /\
  snd (loadPlayerData E w) = snd (savePlayerData E (VObj syncData) w3) /\
  first_call
    (if truthy localCoins
     then vk_storage_set "gameCoins" (ToString E (parseInt E localCoins))
     else vk_storage_set "gameMaxLevel" (ToString E (parseInt E localMaxLevel)))
    (savePlayerData E (VObj syncData)) w3.
Proof.
  intros Hvk Hb Hid Hget Hparse Hf1 Hf2 localCoins localMaxLevel Hlocal syncData w3.
  assert (Huse : vk_storage_in_use (vars w) = true).
  { unfold vk_storage_in_use, is_vk. by rewrite Hvk, Hb, Hid. }
  assert (Hsync : legacy_sync_data E localCoins localMaxLevel = syncData).
  { unfold legacy_sync_data, syncData.
    destruct (truthy localCoins), (truthy localMaxLevel); reflexivity. }
  assert (Hrun : loadPlayerData E w =
    (Val (VObj syncData), snd (savePlayerData E (VObj syncData) w3))).
  { unfold loadPlayerData. unfold bind at 1.
    rewrite (loadPlayerData_vk_on E w Huse).
    unfold try_catch. unfold bind at 1. unfold call at 1. rewrite Hget.
    unfold bind at 1. unfold await at 1, ret at 1.
    unfold bind at 1.
    set (w1 := record_call (VKSend "VKWebAppStorageGet" vk_storage_keys)
                 (Returns result) w).
    pose proof (parse_keys_pure E result w1) as Hpure.
    pose proof (parse_keys_fst E result w1 w) as Hfst.
    rewrite Hparse in Hfst.
    destruct (parse_keys E result w1) as [r1 w1']. cbn in Hpure, Hfst.
    subst r1 w1'. unfold w1.
    unfold bind at 1. unfold localStorage_getItem at 1. cbn [tick record_call].
    cbn in Hf1, Hf2. rewrite Hf1.
    unfold bind at 1. unfold localStorage_getItem at 1. cbn [tick step record_call].
    rewrite Hf2. cbn [localStorage step record_call].
    fold localCoins localMaxLevel. rewrite Hlocal. cbn zeta. rewrite Hsync.
    unfold bind at 1. fold w3.
    destruct (savePlayerData_total E (VObj syncData) w3) as [ok Hok].
    destruct (savePlayerData E (VObj syncData) w3) as [r4 w4].
    cbn in Hok. subst r4. reflexivity. }
  rewrite Hrun. split; [done|]. split; [done|].
  assert (Huse3 : vk_storage_in_use (vars w3) = true) by exact Huse.
  unfold syncData, parseInt.
  destruct (truthy localCoins) eqn:Hc.
  - apply savePlayerData_first_coins; [exact Huse3|reflexivity|].
    by destruct (parseInt10 E localCoins).
  - cbn in Hlocal. rewrite Hlocal.
    apply savePlayerData_first_maxLevel; try done.
    by destruct (parseInt10 E localMaxLevel).
Qed.

(** ** Failing external calls *)

Lemma vk_storage_in_use_bridge m :
  vk_storage_in_use m = true -> exists b, bridge m = Some b /\ is_vk b = true.
Proof.
  unfold vk_storage_in_use. destruct (vkBridge m); [|done].
  destruct (bridge m) as [b|]; [|done]. eauto.
Qed.

Lemma Promise_all_run (sends : list (ExtCall * Outcome)) w :
  exists e,
    Promise_all (map snd sends) w
      = (if all_ok sends then Val tt else Exn e, w).
Proof.
  induction sends as [|[c o] sends [e IH]]; [by exists VUndef|].
  destruct o as [v|e'|e']; cbn; eauto.
Qed.

(** The Playgama branch of [savePlayerData], reached with a bridge. *)
Lemma savePlayerData_playgama_tail E data w b :
  bridge (vars w) = Some b ->
  let o := ext_outcome E (tick w) (StorageSet data) in
  (m <- get_vars ;;
   match bridge m with
   | None =>
       try_catch
         (json <- lift (JSON_stringify E data) ;;
          localStorage_setItem E "cloudSave"
            (match json with Some text => text | None => "undefined" end) ;;
          ret true)
         (fun _ => ret false)
   | Some _ =>
       try_catch
         (o <- call E (StorageSet data) ;;
          await o ;;
          ret true)
         (fun _ => ret false)
   end) w
  = (Val (negb (failed o)), record_call (StorageSet data) o w).
Proof.
  intros Hb. cbn zeta. unfold bind at 1. unfold get_vars at 1. rewrite Hb.
  unfold try_catch, bind, call. rewrite await_cases.
  by destruct (ext_outcome E (tick w) (StorageSet data)).
Qed.

(** The Playgama branch of [loadPlayerData], reached with a bridge. *)
Lemma loadPlayerData_playgama_tail E w b :
  bridge (vars w) = Some b ->
  let o := ext_outcome E (tick w) StorageGet in
  (m <- get_vars ;;
   match bridge m with
   | None =>
       try_catch
         (saved <- localStorage_getItem E "cloudSave" ;;
          if truthy saved then lift (JSON_parse E saved)
          else ret (VObj []))
         (fun _ => ret (VObj []))
   | Some _ =>
       try_catch
         (o <- call E StorageGet ;;
          data <- await o ;;
          ret (if truthy data then data else VObj []))
         (fun _ => ret (VObj []))
   end) w
  = (Val (match o with
          | Returns data => if truthy data then data else VObj []
          | Rejects _ | Throws _ => VObj []
          end),
     record_call StorageGet o w).
Proof.
  intros Hb. cbn zeta. unfold bind at 1. unfold get_vars at 1. rewrite Hb.
  unfold try_catch, bind, call. rewrite await_cases.
  by destruct (ext_outcome E (tick w) StorageGet).
Qed.




(** Case analysis on whatever the run recorded in [H] depends on next. *)
Ltac run_in H :=
  repeat match type of H with
         | context [match ?o with Returns _ => _ | Rejects _ => _ | Throws _ => _ end] =>
             let Ho := fresh "Hout" in destruct o eqn:Ho; cbn in H
         | context [match get_prop ?v ?k with Val _ => _ | Exn _ => _ end] =>
             let Hg := fresh "Hget" in destruct (get_prop v k) eqn:Hg; cbn in H
         | context [match ?o with Some _ => _ | None => _ end] =>
             let Ho := fresh "Hopt" in destruct o eqn:Ho; cbn in H
         | context [if ?c then _ else _] =>
             let Hc := fresh "Hif" in destruct c eqn:Hc; cbn in H
         end.

Lemma isVKPlatform_run w :
  isVKPlatform w =
    (Val (match bridge (vars w) with Some b => is_vk b | None => false end), w).
Proof. unfold isVKPlatform. unfold_monad. cbn. by destruct (bridge (vars w)). Qed.



Lemma get_prop_not_nullish e k :
  nullish e = false -> exists v, get_prop e k = Val v.
Proof. destruct e; cbn; intros H; try discriminate; eauto. Qed.


(** The slip the fallback of [makePurchase] has: a purchase that rejects
    with [undefined] makes the [catch] block itself throw. *)
Lemma makePurchase_undefined_rejection E productId w b :
  bridge (vars w) = Some b ->
  ext_outcome E (tick w) (PaymentsPurchase (VObj [("id", productId)]))
    = Rejects VUndef ->
  fst (makePurchase E productId w) = Exn TypeError.
Proof.
  intros Hb Hout. unfold makePurchase. unfold_monad. cbn.
  rewrite Hb. cbn. by rewrite Hout.
Qed.

(** ** Failing calls to the VK bridge *)










(** ** The statements on sample runs *)

(** An interstitial through the web bridge, long after the last one: shown,
    stamped, and the next one 4 ms later would be turned away. *)
Lemma showInterstitialAd_cooldown_witness :
  let E := Sample.quiet 100000 in
  let w := Sample.world (Sample.started Sample.web None) ∅ in
  fst (showInterstitialAd E "level_end" w) = Val (shown true) /\
  lastInterstitialTime (vars (snd (showInterstitialAd E "level_end" w))) = 100003%Z /\
  fst (showInterstitialAd E "level_end" (snd (showInterstitialAd E "level_end" w)))
    = Val (shown false).
Proof.
  intros E w.
  destruct (showInterstitialAd_cooldown E "level_end" w)
    as (_ & _ & _ & Hbridge).
  destruct (Hbridge ltac:(vm_compute; discriminate) eq_refl Sample.web eq_refl eq_refl)
    as (o & Hin & Hok).
  assert (Ho : failed o = false).
  { vm_compute in Hin.
    apply elem_of_cons in Hin as [Hin|Hin]; [discriminate|].
    apply elem_of_cons in Hin as [Hin|Hin]; [by injection Hin as ->|].
    apply elem_of_cons in Hin as [Hin|Hin]; [discriminate|].
    inversion Hin. }
  destruct (Hok Ho) as (Hres & Hlast & Hnext).
  split; [exact Hres|]. split; [exact Hlast|].
  apply (Hnext "level_end" (snd (showInterstitialAd E "level_end" w)) eq_refl).
  vm_compute. reflexivity.
Defined.

(** C1 as stated does not hold: 100 s after the last interstitial, with
    ads disabled by purchase, the call is turned away and [showInterstitial]
    is never attempted; and without a bridge the call says [{shown:true}]
    but sets no stamp, so the very next call is let through again. *)
Lemma showInterstitialAd_cooldown_counterexample :
  let E := Sample.quiet 100000 in
  let paid := with_ads (VBool true) (Sample.world (Sample.started Sample.web None) ∅) in
  let dev := Sample.world module_init ∅ in
  ((INTERSTITIAL_COOLDOWN
      <= date_now E (tick paid) - lastInterstitialTime (vars paid))%Z /\
   fst (showInterstitialAd E "level_end" paid) = Val (shown false) /\
   ~ exists o, (ShowInterstitial, o) ∈ calls_of (showInterstitialAd E "level_end") paid) /\
  ((INTERSTITIAL_COOLDOWN
      <= date_now E (tick dev) - lastInterstitialTime (vars dev))%Z /\
   fst (showInterstitialAd E "level_end" dev) = Val (shown true) /\
   calls_of (showInterstitialAd E "level_end") dev = [] /\
   lastInterstitialTime (vars (snd (showInterstitialAd E "level_end" dev))) = 0%Z /\
   fst (showInterstitialAd E "level_end" (snd (showInterstitialAd E "level_end" dev)))
     = Val (shown true)).
Proof.
  cbn zeta. split.
  - split; [vm_compute; discriminate|]. split; [reflexivity|].
    intros [o Hin]. vm_compute in Hin. inversion Hin.
  - split; [vm_compute; discriminate|]. repeat split; reflexivity.
Qed.

(** A shop ad on the web bridge ten minutes and more after the last one. *)
Lemma showShopRewardedAd_cooldown_witness :
  let E := Sample.quiet 700000 in
  let w := Sample.world (Sample.started Sample.web None) ∅ in
  fst (showShopRewardedAd E w) = Val (shop_result (VBool true) false 0) /\
  lastShopRewardedTime (vars (snd (showShopRewardedAd E w))) = 700004%Z /\
  fst (showShopRewardedAd E (snd (showShopRewardedAd E w)))
    = Val (shop_result (VBool false) true 600).
Proof.
  intros E w.
  destruct (showShopRewardedAd_cooldown E w) as [_ Hfree].
  destruct (Hfree ltac:(vm_compute; discriminate)) as (b & Hb & Hres & _ & Hlast).
  assert (b = true) as -> by (vm_compute in Hb; by injection Hb as <-).
  split; [exact Hres|]. split; [exact Hlast|].
  destruct (showShopRewardedAd_cooldown E (snd (showShopRewardedAd E w)))
    as [Hblocked _].
  destruct (Hblocked ltac:(vm_compute; reflexivity)) as (Hres2 & _ & _).
  exact Hres2.
Defined.

Lemma sample_save_serializable E :
  JSON_stringify E = Sample.stringify -> JSON_parse E = Sample.parse ->
  JSON_serializable E Sample.save.
Proof.
  intros Hs Hp. unfold JSON_serializable. rewrite Hs, Hp.
  eexists. split; [reflexivity|]. split; [discriminate|reflexivity].
Qed.

(** Saving and loading back without a bridge, on a working storage. *)
Lemma storage_fallback_roundtrip_witness :
  let E := Sample.quiet 0 in
  let w := Sample.world module_init ∅ in
  fst (savePlayerData E Sample.save w) = Val true /\
  fst (loadPlayerData E (snd (savePlayerData E Sample.save w))) = Val Sample.save.
Proof.
  intros E w.
  destruct (storage_fallback_roundtrip E w Sample.save eq_refl (fun n => eq_refl)
              (sample_save_serializable E eq_refl eq_refl))
    as (Hsave & _ & Hload & _).
  split; [exact Hsave|exact Hload].
Defined.

(** C3 as stated does not hold: with no bridge and serializable data, a
    [localStorage] that throws makes [savePlayerData] return [false], and
    the load that follows returns [{}], not the data. *)
Lemma storage_fallback_roundtrip_counterexample :
  let E := Sample.storage_full 0 in
  let w := Sample.world module_init ∅ in
  bridge (vars w) = None /\
  JSON_serializable E Sample.save /\
  fst (savePlayerData E Sample.save w) = Val false /\
  fst (loadPlayerData E (snd (savePlayerData E Sample.save w))) = Val (VObj []) /\
  fst (loadPlayerData E (snd (savePlayerData E Sample.save w))) <> Val Sample.save.
Proof.
  cbn zeta. split; [reflexivity|].
  split; [by apply sample_save_serializable|].
  split; [reflexivity|]. split; [reflexivity|].
  vm_compute. discriminate.
Qed.



(** An empty VK cloud and 350 coins, level 12 in the legacy local keys. *)
Lemma loadPlayerData_merges_legacy_witness :
  let E := Sample.vk_empty_cloud 0 in
  let w := Sample.world (Sample.started Sample.vk (Some WindowVkBridge))
             {["gameCoins" := "350"; "maxLevel" := "12"]} in
  fst (loadPlayerData E w)
    = Val (VObj [("coins", VNum 350); ("maxLevel", VNum 12)]) /\
  (vk_storage_set "gameCoins" "350", Returns VUndef) ∈ calls_of (loadPlayerData E) w.
Proof.
  intros E w.
  destruct (loadPlayerData_merges_legacy E w Sample.vk WindowVkBridge
              Sample.empty_cloud eq_refl eq_refl eq_refl eq_refl eq_refl
              eq_refl eq_refl eq_refl)
    as (Hres & _ & _).
  split; [exact Hres|].
  vm_compute. apply elem_of_cons; right. by apply elem_of_cons; left.
Defined.

(** A page where the bridge script never loads, and one where it loads but
    fails to initialise. *)
Lemma initPlaygamaSDK_tolerates_failure_witness :
  (fst (initPlaygamaSDK (Sample.quiet 0) world_init) = Val None /\
   fst (isYandexSDKReady (snd (initPlaygamaSDK (Sample.quiet 0) world_init)))
     = Val true) /\
  (fst (initPlaygamaSDK (Sample.offline 0) world_init) = Val None /\
   fst (isYandexSDKReady (snd (initPlaygamaSDK (Sample.offline 0) world_init)))
     = Val true).
Proof.
  split.
  - destruct (initPlaygamaSDK_tolerates_failure (Sample.quiet 0) world_init)
      as (Hres & _ & Hready); [|by split].
    left. split; [by left|]. intros k _. reflexivity.
  - destruct (initPlaygamaSDK_tolerates_failure (Sample.offline 0) world_init)
      as (Hres & _ & Hready); [|by split].
    right. exists (Rejects Sample.NetworkError). split; [|reflexivity].
    vm_compute. by apply elem_of_cons; left.
Defined.

(** Half a second into the shop cooldown, and well after it. *)
Lemma getShopRewardedCooldown_spec_witness :
  let w := Sample.world (Sample.started Sample.web None) ∅ in
  fst (getShopRewardedCooldown (Sample.quiet 500) w) = Val 600%Z /\
  fst (getShopRewardedCooldown (Sample.quiet 700000) w) = Val 0%Z /\
  ~ shop_blocked (Sample.quiet 700000) w.
Proof.
  intros w.
  destruct (getShopRewardedCooldown_spec (Sample.quiet 500) w)
    as (_ & _ & _ & _ & Hlt & _).
  destruct (getShopRewardedCooldown_spec (Sample.quiet 700000) w)
    as (_ & _ & _ & Hge & _ & Hiff).
  split; [exact (Hlt ltac:(vm_compute; reflexivity))|].
  assert (H0 : fst (getShopRewardedCooldown (Sample.quiet 700000) w) = Val 0%Z)
    by exact (Hge ltac:(vm_compute; discriminate)).
  split; [exact H0|]. by apply Hiff.
Defined.

(** Three calls of each one-shot function on a fresh module with the web
    bridge. *)
Lemma once_functions_idempotent_witness :
  let E := Sample.quiet 0 in
  let w := Sample.world (set_bridge (Some Sample.web) module_init) ∅ in
  repeat_call 3 (applyLanguageOnce E) w = applyLanguageOnce E w /\
  repeat_call 3 (sendGameReadyOnce E) w = sendGameReadyOnce E w /\
  calls_of (repeat_call 3 (sendGameReadyOnce E)) w
    = [(PlatformSendMessage "game_ready", Returns VUndef)].
Proof.
  intros E w.
  destruct (once_functions_idempotent E w 3 ltac:(lia)) as (Hlang & Hready & _).
  split; [exact Hlang|]. split; [exact Hready|].
  unfold calls_of. rewrite Hready. reflexivity.
Defined.

(** After the no-ads purchase: no interstitial, but the rewarded ad still
    goes to the bridge, and so does the shop ad, here 700 seconds after the
    start. *)
Lemma ads_disabled_gates_only_interstitials_witness :
  let E := Sample.quiet 100000 in
  let w := with_ads (VBool true) (Sample.world (Sample.started Sample.web None) ∅) in
  showInterstitialAd E "level_end" w = (Val (shown false), w) /\
  fst (showRewardedAd E "hint" w) = Val (rewarded true) /\
  (exists o, (ShowRewarded, o) ∈ calls_of (showRewardedAd E "hint") w) /\
  fst (showShopRewardedAd (Sample.quiet 700000) w)
    = Val (shop_result (VBool true) false 0) /\
  (exists o, (ShowRewarded, o) ∈ calls_of (showShopRewardedAd (Sample.quiet 700000)) w).
Proof.
  intros E w.
  destruct (ads_disabled_gates_only_interstitials E "level_end"
              (Sample.world (Sample.started Sample.web None) ∅) (VBool true))
    as ((Hone & _) & _ & _ & _).
  destruct (ads_disabled_gates_only_interstitials E "hint"
              (Sample.world (Sample.started Sample.web None) ∅) (VBool true))
    as (_ & Hrew & _ & Hstill & _).
  destruct (ads_disabled_gates_only_interstitials (Sample.quiet 700000) "hint"
              (Sample.world (Sample.started Sample.web None) ∅) (VBool true))
    as (_ & _ & _ & _ & Hshop).
  destruct (Hshop ltac:(vm_compute; discriminate))
    as ((r & Hr & Hres) & _ & Hcall).
  split; [exact Hone|]. split; [|split; [|split]].
  - fold w in Hrew. rewrite Hrew. reflexivity.
  - exact (Hstill Sample.web eq_refl eq_refl).
  - vm_compute in Hr. injection Hr as <-. exact Hres.
  - exact (Hcall Sample.web eq_refl eq_refl).
Defined.

(** A bridge that rejects every ad: neither stamp moves. *)
Lemma cooldown_stamps_only_on_success_witness :
  let E := Sample.offline 700000 in
  let w := Sample.world (Sample.started Sample.web None) ∅ in
  lastInterstitialTime (vars (snd (showInterstitialAd E "level_end" w))) = 0%Z /\
  lastShopRewardedTime (vars (snd (showShopRewardedAd E w))) = 0%Z.
Proof.
  intros E w.
  destruct (cooldown_stamps_only_on_success E "level_end" w)
    as (Hthrow & _ & Hshop).
  split.
  - apply (Hthrow (Rejects Sample.NetworkError)); [|reflexivity].
    vm_compute. apply elem_of_cons; right. by apply elem_of_cons; left.
  - apply (Hshop (shop_result (VBool false) false 0) (VBool false));
      reflexivity.
Defined.

(** ** More on the start-up *)

(** The polling loop stops at the first attempt that finds [window.bridge]
    and otherwise runs out its attempts. *)
Lemma interval_first E n w :
  (exists k b,
     k < n /\ window_bridge E (tick w + k) = Some b /\
     (forall j, j < k -> window_bridge E (tick w + j) = None) /\
     interval E n w = (Val (Some b), later (S k) w)) \/
  ((forall j, j < n -> window_bridge E (tick w + j) = None) /\
   interval E n w = (Val None, later n w)).
Proof.
  revert w. induction n as [|n IH]; intros w.
  - right. split; [lia|]. cbn. unfold ret, later. rewrite Nat.add_0_r.
    by destruct w.
  - cbn [interval]. unfold bind, read_window_bridge.
    destruct (window_bridge E (tick w)) as [b|] eqn:Hw.
    + left. exists 0, b. rewrite Nat.add_0_r. repeat split; [lia|done|lia|].
      unfold ret, step, later. by rewrite Nat.add_1_r.
    + destruct (IH (step w)) as [(k & b & Hk & Hdef & Hnone & Hrun)|[Hnone Hrun]].
      * left. exists (S k), b. cbn in Hdef. rewrite Nat.add_succ_r.
        repeat split; [lia|exact Hdef| |].
        -- intros [|j] Hj; [by rewrite Nat.add_0_r|].
           rewrite Nat.add_succ_r. apply (Hnone j). lia.
        -- rewrite Hrun. unfold later, step. cbn. by rewrite !Nat.add_succ_r.
      * right. split.
        -- intros [|j] Hj; [by rewrite Nat.add_0_r|].
           rewrite Nat.add_succ_r. apply (Hnone j). lia.
        -- rewrite Hrun. unfold later, step. cbn. by rewrite !Nat.add_succ_r.
Qed.

(** X1: [waitForBridge] looks at [window.bridge] once at the call and then
    at most 30 more times.  It resolves with the bridge found at the first
    look that sees one, and stops looking there; if all 31 looks find it
    undefined it resolves with [null].  It never throws and changes nothing
    but the time. *)
Theorem waitForBridge_first_defined E w :
  (exists k b,
     k <= maxAttempts /\ window_bridge E (tick w + k) = Some b /\
     (forall j, j < k -> window_bridge E (tick w + j) = None) /\
     waitForBridge E w = (Val (Some b), later (S k) w)) \/
  ((forall j, j <= maxAttempts -> window_bridge E (tick w + j) = None) /\
   waitForBridge E w = (Val None, later (S maxAttempts) w)).
Proof.
  assert (Hsame : waitForBridge E w = interval E (S maxAttempts) w) by reflexivity.
  rewrite Hsame.
  destruct (interval_first E (S maxAttempts) w)
    as [(k & b & Hk & Hdef & Hnone & Hrun)|[Hnone Hrun]].
  - left. exists k, b. repeat split; try done. lia.
  - right. split; [|done]. intros j Hj. apply Hnone. lia.
Qed.

(** The run of [initPlaygamaSDK] once the wait has found a bridge. *)
Lemma initPlaygamaSDK_found E w br k :
  isInitialized (vars w) = false \/ bridge (vars w) = None ->
  waitForBridge E w = (Val (Some br), later k w) ->
  let w1 := with_vars (set_bridge (Some br)) (later k w) in
  let o := ext_outcome E (tick w1) BridgeInitialize in
  let w2 := with_vars (set_isInitialized true) (record_call BridgeInitialize o w1) in
  initPlaygamaSDK E w =
    if failed o then (Val None, w2)
    else if is_vk br then
      match window_vkBridge E (tick w2) with
      | Some h =>
          let w3 := with_vars (set_vkBridge (Some h)) (step w2) in
          let o2 := ext_outcome E (tick w3) vk_init in
          (Val (Some br),
           if failed o2
           then with_vars (set_vkBridge None) (record_call vk_init o2 w3)
           else record_call vk_init o2 w3)
      | None => (Val (Some br), step w2)
      end
    else (Val (Some br), w2).
Proof.
  intros Hguard Hwait. cbn zeta.
  assert (Hbody : initPlaygamaSDK E w =
    try_catch
      (b <- waitForBridge E ;;
       modify (set_bridge b) ;;
       match b with
       | None => modify (set_isInitialized true) ;; ret None
       | Some br =>
           o <- call E BridgeInitialize ;;
           await o ;;
           modify (set_isInitialized true) ;;
           (if is_vk br then
              wv <- read_window_vkBridge E ;;
              match wv with
              | Some h =>
                  modify (set_vkBridge (Some h)) ;;
                  try_catch
                    (o <- call E (VKSend "VKWebAppInit" VUndef) ;;
                     await o ;;
                     ret tt)
                    (fun _ => modify (set_vkBridge None))
              | None => ret tt
              end
            else ret tt) ;;
           ret (Some br)
       end)
      (fun _ => modify (set_isInitialized true) ;; ret None) w).
  { unfold initPlaygamaSDK. unfold bind at 1. unfold get_vars at 1.
    destruct Hguard as [Hi|Hb]; [rewrite Hi; reflexivity|].
    rewrite Hb. by destruct (isInitialized (vars w)). }
  rewrite Hbody. clear Hbody.
  unfold try_catch. unfold bind at 1. rewrite Hwait.
  unfold_monad. unfold read_window_vkBridge, with_vars, vk_init. cbn.
  destruct (ext_outcome E (tick w + k) BridgeInitialize) as [v|e|e]; cbn;
    try reflexivity.
  destruct (is_vk br); cbn; [|reflexivity].
  destruct (window_vkBridge E (S (tick w + k))); cbn; [|reflexivity].
  by destruct (ext_outcome E (S (S (tick w + k))) (VKSend "VKWebAppInit" VUndef)).
Qed.

Lemma initPlaygamaSDK_timeout E w k :
  isInitialized (vars w) = false \/ bridge (vars w) = None ->
  waitForBridge E w = (Val None, later k w) ->
  initPlaygamaSDK E w =
    (Val None,
     with_vars (set_isInitialized true) (with_vars (set_bridge None) (later k w))).
Proof.
  intros Hguard Hwait.
  unfold initPlaygamaSDK. unfold bind at 1. unfold get_vars at 1.
  destruct Hguard as [Hi|Hb].
  - rewrite Hi. unfold try_catch. unfold bind at 1. rewrite Hwait. reflexivity.
  - rewrite Hb. destruct (isInitialized (vars w));
      unfold try_catch; unfold bind at 1; rewrite Hwait; reflexivity.
Qed.

Lemma waitForBridge_later E w :
  exists r k, waitForBridge E w = (Val r, later k w).
Proof. apply waitForBridge_run. Qed.

(** A call of [initPlaygamaSDK] always leaves the module initialised. *)
Lemma initPlaygamaSDK_initialized E w :
  isInitialized (vars (snd (initPlaygamaSDK E w))) = true.
Proof.
  destruct (isInitialized (vars w)) eqn:Hi;
    [destruct (bridge (vars w)) as [b0|] eqn:Hb0|].
  { by rewrite (initPlaygamaSDK_shortcut E w b0 Hi Hb0). }
  all: assert (Hguard : isInitialized (vars w) = false \/ bridge (vars w) = None)
         by (first [by left | by right]).
  all: destruct (waitForBridge_later E w) as ([br|] & k & Hwait).
  all: try (by rewrite (initPlaygamaSDK_timeout E w k Hguard Hwait)).
  all: rewrite (initPlaygamaSDK_found E w br k Hguard Hwait); cbn zeta.
  all: destruct (failed (ext_outcome E _ BridgeInitialize)); [done|].
  all: destruct (is_vk br);
         [destruct (window_vkBridge E _);
            [destruct (failed (ext_outcome E _ vk_init))|]|]; done.
Qed.

(** X2: whatever the page and the bridge do, a call of [initPlaygamaSDK]
    returns without throwing and leaves [isInitialized] set and
    [localStorage] untouched.  When it returns a bridge, that bridge is the
    one the module now holds (the one [getYSDK()] returns); when the module
    holds none afterwards, it returned [null]. *)
Theorem initPlaygamaSDK_always_ready E w :
  let w' := snd (initPlaygamaSDK E w) in
  exists r,
    fst (initPlaygamaSDK E w) = Val r /\
    isInitialized (vars w') = true /\
    localStorage w' = localStorage w /\
    (forall b, r = Some b -> fst (getYSDK w') = Val (Some b)) /\
    (bridge (vars w') = None -> r = None).
Proof.
  cbn zeta.
  destruct (isInitialized (vars w)) eqn:Hi;
    [destruct (bridge (vars w)) as [b0|] eqn:Hb0|].
  { rewrite (initPlaygamaSDK_shortcut E w b0 Hi Hb0). exists (Some b0). cbn.
    repeat split; try done.
    - intros b [= <-]. unfold getYSDK. unfold_monad. cbn. by rewrite Hb0.
    - by rewrite Hb0. }
  all: assert (Hguard : isInitialized (vars w) = false \/ bridge (vars w) = None)
         by (first [by left | by right]).
  all: destruct (waitForBridge_later E w) as ([br|] & k & Hwait).
  all: try (rewrite (initPlaygamaSDK_timeout E w k Hguard Hwait);
            exists None; cbn; repeat split; done).
  all: rewrite (initPlaygamaSDK_found E w br k Hguard Hwait); cbn zeta.
  all: destruct (failed (ext_outcome E _ BridgeInitialize));
         [exists None; cbn; repeat split; done|].
  all: destruct (is_vk br);
         [destruct (window_vkBridge E _);
            [destruct (failed (ext_outcome E _ vk_init))|]|].
  all: exists (Some br); cbn; repeat split; try done.
  all: intros b [= <-]; reflexivity.
Qed.

(** X3: once a call of [initPlaygamaSDK] has left a bridge in the module,
    the next call returns that bridge at once: no wait, no external call, no
    change.  This holds whether or not [bridge.initialize()] succeeded in the
    first call: after a failed initialisation the first call returns [null]
    and the second the bridge. *)
Theorem initPlaygamaSDK_second_call E w b :
  let w' := snd (initPlaygamaSDK E w) in
  bridge (vars w') = Some b ->
  initPlaygamaSDK E w' = (Val (Some b), w').
Proof.
  cbn zeta. intros Hb.
  apply initPlaygamaSDK_shortcut; [|exact Hb].
  apply initPlaygamaSDK_initialized.
Qed.

(** The three shapes of a run of [initPlaygamaSDK]. *)
Lemma initPlaygamaSDK_shapes E w :
  (exists b, isInitialized (vars w) = true /\ bridge (vars w) = Some b) \/
  ((isInitialized (vars w) = false \/ bridge (vars w) = None) /\
   exists k, waitForBridge E w = (Val None, later k w)) \/
  ((isInitialized (vars w) = false \/ bridge (vars w) = None) /\
   exists k br, waitForBridge E w = (Val (Some br), later k w)).
Proof.
  destruct (isInitialized (vars w)) eqn:Hi;
    [destruct (bridge (vars w)) as [b0|] eqn:Hb0; [left; eauto|]|].
  all: right.
  all: destruct (waitForBridge_later E w) as ([br|] & k & Hwait);
         [right|left]; (split; [first [by left | by right]|]); eauto.
Qed.

Lemma vk_consistent_in_use m :
  vk_consistent m -> (vk_storage_in_use m = true <-> vkBridge m <> None).
Proof.
  intros Hc. unfold vk_storage_in_use. split.
  - by destruct (vkBridge m).
  - intros Hvk. destruct (Hc Hvk) as (_ & b & Hb & Hisvk).
    rewrite Hb. by destruct (vkBridge m).
Qed.

(** X4: the VK handle is only ever held together with an initialised
    bridge of platform ['vk'].  [initPlaygamaSDK] keeps this true of the
    module variables, so after it the VK cloud is used by the storage
    functions exactly when [vkBridge] is set. *)
Theorem initPlaygamaSDK_keeps_vk_consistent E w :
  vk_consistent (vars w) ->
  let m' := vars (snd (initPlaygamaSDK E w)) in
  vk_consistent m' /\
  (vk_storage_in_use m' = true <-> vkBridge m' <> None).
Proof.
  intros Hc. cbn zeta.
  assert (Hgoal : vk_consistent (vars (snd (initPlaygamaSDK E w)))).
  2:{ split; [exact Hgoal|by apply vk_consistent_in_use]. }
  destruct (initPlaygamaSDK_shapes E w)
    as [(b & Hi & Hb)|[(Hguard & k & Hwait)|(Hguard & k & br & Hwait)]].
  { by rewrite (initPlaygamaSDK_shortcut E w b Hi Hb). }
  all: assert (Hnone : vkBridge (vars w) = None).
  1,3: destruct (vkBridge (vars w)) eqn:Hvk; [|done];
       destruct Hc as (Hi & b & Hb & _); [by rewrite Hvk|];
       destruct Hguard; congruence.
  - rewrite (initPlaygamaSDK_timeout E w k Hguard Hwait).
    unfold vk_consistent. cbn. intros Hvk. by rewrite Hnone in Hvk.
  - rewrite (initPlaygamaSDK_found E w br k Hguard Hwait). cbn zeta.
    unfold vk_consistent.
    destruct (failed (ext_outcome E _ BridgeInitialize)).
    { cbn. intros Hvk. by rewrite Hnone in Hvk. }
    destruct (is_vk br) eqn:Hisvk.
    2:{ cbn. intros Hvk. by rewrite Hnone in Hvk. }
    destruct (window_vkBridge E _).
    2:{ cbn. intros Hvk. by rewrite Hnone in Hvk. }
    destruct (failed (ext_outcome E _ vk_init)); cbn.
    + intros Hvk. done.
    + intros _. eauto.
Qed.

(** X5: starting without a VK handle, [initPlaygamaSDK] ends with
    [vkBridge] set exactly when it sent [VKWebAppInit] and that call
    succeeded.  It sends [VKWebAppInit] only on a bridge of platform ['vk'],
    and a failure of that call does not fail the start: the bridge is
    returned all the same, with [vkBridge] left [null]. *)
Theorem initPlaygamaSDK_vk_handle E w :
  vkBridge (vars w) = None ->
  let w' := snd (initPlaygamaSDK E w) in
  (vkBridge (vars w') <> None <->
   exists o, (vk_init, o) ∈ calls_of (initPlaygamaSDK E) w /\ failed o = false) /\
  (forall o, (vk_init, o) ∈ calls_of (initPlaygamaSDK E) w ->
     exists br, fst (initPlaygamaSDK E w) = Val (Some br) /\ is_vk br = true).
Proof.
  intros Hnone. cbn zeta. unfold calls_of.
  destruct (initPlaygamaSDK_shapes E w)
    as [(b & Hi & Hb)|[(Hguard & k & Hwait)|(Hguard & k & br & Hwait)]].
  - rewrite (initPlaygamaSDK_shortcut E w b Hi Hb). cbn. rewrite drop_all.
    split; [split|].
    + intros Hvk. by rewrite Hnone in Hvk.
    + intros (o & Hin & _). inversion Hin.
    + intros o Hin. inversion Hin.
  - rewrite (initPlaygamaSDK_timeout E w k Hguard Hwait). cbn. rewrite drop_all.
    split; [split|].
    + intros Hvk. by rewrite Hnone in Hvk.
    + intros (o & Hin & _). inversion Hin.
    + intros o Hin. inversion Hin.
  - rewrite (initPlaygamaSDK_found E w br k Hguard Hwait). cbn zeta.
    destruct (failed (ext_outcome E _ BridgeInitialize)) eqn:Hinit;
      [|destruct (is_vk br) eqn:Hisvk;
        [destruct (window_vkBridge E _);
         [destruct (failed (ext_outcome E _ vk_init)) eqn:Hvkinit|]|]];
      cbn; rewrite <- ?app_assoc, drop_app_length; cbn.
    + split; [split|].
      * intros Hvk. by rewrite Hnone in Hvk.
      * intros (o & Hin & _). apply list_elem_of_singleton in Hin. discriminate.
      * intros o Hin. apply list_elem_of_singleton in Hin. discriminate.
    + split; [split|].
      * done.
      * intros (o & Hin & Hok).
        apply elem_of_cons in Hin as [Hin|Hin]; [discriminate|].
        apply list_elem_of_singleton in Hin. injection Hin as ->.
        cbn in Hvkinit. congruence.
      * intros o _. by exists br.
    + split; [split|].
      * intros _. eexists. split; [|exact Hvkinit].
        apply elem_of_cons. right. by apply list_elem_of_singleton.
      * done.
      * intros o _. by exists br.
    + split; [split|].
      * intros Hvk. by rewrite Hnone in Hvk.
      * intros (o & Hin & _). apply list_elem_of_singleton in Hin. discriminate.
      * intros o Hin. apply list_elem_of_singleton in Hin. discriminate.
    + split; [split|].
      * intros Hvk. by rewrite Hnone in Hvk.
      * intros (o & Hin & _). apply list_elem_of_singleton in Hin. discriminate.
      * intros o Hin. apply list_elem_of_singleton in Hin. discriminate.
Qed.

(** ** What the functions leave alone *)

Lemma emits_vars P {A} (m : M A) w : emits P m -> vars (snd (m w)) = vars w.
Proof. intros Hm. by destruct (Hm w) as (calls & _ & Hv & _). Qed.

Lemma emits_any {A} (m : M A) :
  (forall w, vars (snd (m w)) = vars w /\ trace (snd (m w)) = trace w) ->
  forall P, emits P m.
Proof.
  intros Hm P w. destruct (Hm w) as [Hv Ht]. exists [].
  rewrite app_nil_r. done.
Qed.

Lemma gameplayStart_emits E : emits (fun _ => True) (gameplayStart E).
Proof. unfold gameplayStart. emits_tac. done. Qed.

Lemma gameplayStop_emits E : emits (fun _ => True) (gameplayStop E).
Proof. unfold gameplayStop. emits_tac. done. Qed.

Lemma isVKPlatform_emits P : emits P isVKPlatform.
Proof. unfold isVKPlatform. emits_tac. Qed.

Lemma makePurchase_emits E productId :
  emits (fun c => c = PaymentsPurchase (VObj [("id", productId)]))
    (makePurchase E productId).
Proof. unfold makePurchase. emits_tac. done. Qed.

Lemma showStickyBanner_emits E : emits (fun _ => True) (showStickyBanner E).
Proof.
  unfold showStickyBanner.
  apply emits_bind; [apply emits_get_vars|intros m].
  destruct (bridge m); [|apply emits_ret].
  apply emits_bind; [apply isVKPlatform_emits|intros vk].
  emits_tac; done.
Qed.

Lemma openVKGroup_emits E : emits (fun _ => True) (openVKGroup E).
Proof.
  unfold openVKGroup.
  apply emits_bind; [apply emits_get_vars|intros m].
  apply emits_bind; [apply isVKPlatform_emits|intros vk].
  emits_tac; done.
Qed.

Lemma shareVK_emits E : emits (fun _ => True) (shareVK E).
Proof.
  unfold shareVK.
  apply emits_bind; [apply emits_get_vars|intros m].
  destruct (bridge m); [|apply emits_ret].
  apply emits_bind; [apply isVKPlatform_emits|intros vk].
  emits_tac; done.
Qed.

Lemma loadPlayerData_emits E : emits (fun _ => True) (loadPlayerData E).
Proof.
  unfold loadPlayerData.
  apply emits_bind.
  { eapply emits_weaken; [|apply loadPlayerData_vk_emits]. done. }
  intros [r|]; [apply emits_ret|]. emits_tac. done.
Qed.

(** X6: the functions that only talk to the outside leave every module
    variable as it was: the rewarded ad, the storage functions, the
    purchase, the banner, the gameplay signals, the VK social functions and
    the cooldown query.  In particular a purchase does not by itself disable
    ads, and saving or loading does not touch the cooldown stamps.  The
    catalogue and review stubs do not even let time pass: they leave the
    whole world as it is, with or without a bridge. *)
Theorem external_functions_keep_module_state E w :
  (forall productId, snd (getProductPrice productId w) = w) /\
  snd (getAllProductPrices w) = w /\
  snd (showOtherGames w) = w /\
  snd (canRequestReview w) = w /\
  snd (requestGameReview w) = w /\
  (forall reason, vars (snd (showRewardedAd E reason w)) = vars w) /\
  (forall data, vars (snd (savePlayerData E data w)) = vars w) /\
  vars (snd (loadPlayerData E w)) = vars w /\
  (forall productId, vars (snd (makePurchase E productId w)) = vars w) /\
  vars (snd (showStickyBanner E w)) = vars w /\
  vars (snd (gameplayStart E w)) = vars w /\
  vars (snd (gameplayStop E w)) = vars w /\
  vars (snd (openVKGroup E w)) = vars w /\
  vars (snd (shareVK E w)) = vars w /\
  vars (snd (getShopRewardedCooldown E w)) = vars w.
Proof.
  split.
  { intros productId. unfold getProductPrice. unfold_monad. cbn.
    by destruct (bridge (vars w)). }
  split.
  { unfold getAllProductPrices. unfold_monad. cbn. by destruct (bridge (vars w)). }
  do 3 (split; [reflexivity|]).
  split; [intros reason; apply showRewardedAd_vars|].
  split; [intros data; eapply emits_vars, savePlayerData_emits|].
  split; [eapply emits_vars, loadPlayerData_emits|].
  split; [intros productId; eapply emits_vars, makePurchase_emits|].
  split; [eapply emits_vars, showStickyBanner_emits|].
  split; [eapply emits_vars, gameplayStart_emits|].
  split; [eapply emits_vars, gameplayStop_emits|].
  split; [eapply emits_vars, openVKGroup_emits|].
  split; [eapply emits_vars, shareVK_emits|].
  unfold getShopRewardedCooldown. unfold_monad. cbn. by destruct (_ <=? _)%Z.
Qed.

(** X7: each of the remaining module variables has one writer.
    [showInterstitialAd] changes nothing but [lastInterstitialTime],
    [showShopRewardedAd] nothing but [lastShopRewardedTime] (so neither
    cooldown starts or resets the other, and neither touches the ads flag),
    and the two one-shot functions nothing but their own flag. *)
Theorem module_variables_have_one_writer E reason w :
  (vars (snd (showInterstitialAd E reason w)) = vars w \/
   exists t, vars (snd (showInterstitialAd E reason w))
             = set_lastInterstitialTime t (vars w)) /\
  (vars (snd (showShopRewardedAd E w)) = vars w \/
   exists t, vars (snd (showShopRewardedAd E w))
             = set_lastShopRewardedTime t (vars w)) /\
  (vars (snd (applyLanguageOnce E w)) = vars w \/
   vars (snd (applyLanguageOnce E w)) = set_languageApplied true (vars w)) /\
  (vars (snd (sendGameReadyOnce E w)) = vars w \/
   vars (snd (sendGameReadyOnce E w)) = set_gameReadySent true (vars w)).
Proof.
  split; [|split; [|split]].
  - destruct (showInterstitialAd_cases E reason w) as [[_ Hv]|(b & Hb & Hd & Hge)];
      [by left|].
    pose proof (showInterstitialAd_bridge E reason w b Hd Hge Hb) as Hrun.
    cbn zeta in Hrun. rewrite Hrun. cbn.
    destruct (advertisement b); cbn; [destruct (failed _); cbn|]; eauto.
  - unfold showShopRewardedAd. unfold_monad. cbn.
    destruct (_ <? _)%Z; cbn; [by left|].
    destruct (showRewardedAd_returns E "shop_coins" (step w)) as [b Hb].
    pose proof (showRewardedAd_vars E "shop_coins" (step w)) as Hv.
    destruct (showRewardedAd E "shop_coins" (step w)) as [r1 w1].
    cbn in Hb, Hv. subst r1. destruct b; cbn; rewrite Hv; eauto.
  - destruct (languageApplied (vars w)) eqn:Hl.
    + left. by rewrite applyLanguageOnce_done.
    + right. rewrite applyLanguageOnce_first by done.
      by destruct (bridge (vars w)).
  - destruct (gameReadySent (vars w)) eqn:Hl.
    + left. by rewrite sendGameReadyOnce_done.
    + right. rewrite sendGameReadyOnce_first by done.
      by destruct (bridge (vars w)).
Qed.

(** ** Ads and gameplay signals *)

(** X8: an ad never leaves the game paused.  Whenever [showInterstitialAd]
    or [showRewardedAd] talks to the bridge at all, its calls are exactly:
    [gameplay_stopped], then at most the one ad call, then
    [gameplay_started], whether the ad succeeded, failed, or could not even
    be requested, and whatever the two signals themselves answered. *)
Theorem ads_bracket_gameplay E reason w :
  let stop := PlatformSendMessage "gameplay_stopped" in
  let start := PlatformSendMessage "gameplay_started" in
  (calls_of (showInterstitialAd E reason) w = [] \/
   exists o1 o3 mid,
     calls_of (showInterstitialAd E reason) w = (stop, o1) :: mid ++ [(start, o3)] /\
     (mid = [] \/ exists o, mid = [(ShowInterstitial, o)])) /\
  (calls_of (showRewardedAd E reason) w = [] \/
   exists o1 o3 mid,
     calls_of (showRewardedAd E reason) w = (stop, o1) :: mid ++ [(start, o3)] /\
     (mid = [] \/ exists o, mid = [(ShowRewarded, o)])).
Proof.
  cbn zeta. split.
  - destruct (showInterstitialAd_cases E reason w) as [[Hnil _]|(b & Hb & Hd & Hge)];
      [by left|right].
    destruct (showInterstitialAd_bridge_calls E reason w b Hd Hge Hb)
      as (o1 & o3 & Hcalls).
    exists o1, o3. eexists. split; [exact Hcalls|].
    destruct (advertisement b); eauto.
  - destruct (bridge (vars w)) as [b|] eqn:Hb.
    + right. pose proof (showRewardedAd_bridge E reason w b Hb) as Hrun.
      cbn zeta in Hrun. unfold calls_of. rewrite Hrun. cbn [snd].
      destruct (advertisement b) eqn:Hadv; cbn [record_call trace tick];
        rewrite <- !app_assoc, drop_app_length; cbn [app].
      * eexists _, _, [_]. split; [reflexivity|]. right. by eexists.
      * eexists _, _, []. split; [reflexivity|]. by left.
    + left. apply calls_of_nil. by rewrite showRewardedAd_dev.
Qed.

(** X9: the remaining time of the shop cooldown is the time left in whole
    seconds, rounded up: while the cooldown runs,
    1000 * (r - 1) < 600000 - elapsed <= 1000 * r.  So it is at least 1
    while the cooldown runs, at most 600 when the clock has not gone back
    behind the stamp, and more than 600 when it has. *)
Theorem shop_remaining_time_bounds E w :
  let elapsed := (date_now E (tick w) - lastShopRewardedTime (vars w))%Z in
  exists r,
    fst (getShopRewardedCooldown E w) = Val r /\
    (0 <= r)%Z /\
    ((elapsed < SHOP_REWARDED_COOLDOWN)%Z ->
       (1000 * (r - 1) < SHOP_REWARDED_COOLDOWN - elapsed <= 1000 * r)%Z /\
       (1 <= r)%Z) /\
    ((0 <= elapsed)%Z -> (r <= 600)%Z) /\
    ((elapsed < 0)%Z -> (600 < r)%Z).
Proof.
  cbn zeta. unfold getShopRewardedCooldown. unfold_monad. cbn.
  set (elapsed := (date_now E (tick w) - lastShopRewardedTime (vars w))%Z).
  unfold SHOP_REWARDED_COOLDOWN in *.
  destruct (Z.leb_spec 600000 elapsed) as [Hge|Hlt]; cbn.
  - exists 0%Z. repeat split; lia.
  - pose proof (ceil_div_spec (600000 - elapsed)) as Hc.
    eexists. split; [reflexivity|]. repeat split; lia.
Qed.

(** X10: without a bridge the shop ad is granted without any external
    call, and it still starts the shop cooldown: outside the cooldown
    [showShopRewardedAd] answers [{rewarded:true, cooldown:false,
    remainingTime:0}] and stamps [lastShopRewardedTime] with the next clock
    reading, so a call that follows less than 600000 ms after that reading
    is turned away. *)
Theorem showShopRewardedAd_dev_mode E w :
  bridge (vars w) = None ->
  (SHOP_REWARDED_COOLDOWN
     <= date_now E (tick w) - lastShopRewardedTime (vars w))%Z ->
  let w' := snd (showShopRewardedAd E w) in
  fst (showShopRewardedAd E w) = Val (shop_result (VBool true) false 0) /\
  calls_of (showShopRewardedAd E) w = [] /\
  vars w' = set_lastShopRewardedTime (date_now E (1 + tick w)) (vars w) /\
  ((date_now E (tick w') - date_now E (1 + tick w) < SHOP_REWARDED_COOLDOWN)%Z ->
     shop_blocked E w').
Proof.
  intros Hb Hge. cbn zeta.
  assert (Hrun : showShopRewardedAd E w =
    (Val (shop_result (VBool true) false 0),
     with_vars (set_lastShopRewardedTime (date_now E (1 + tick w)))
       (step (step w)))).
  { unfold showShopRewardedAd. unfold_monad. cbn.
    apply Z.ltb_ge in Hge. rewrite Hge.
    rewrite showRewardedAd_dev by exact Hb. reflexivity. }
  rewrite Hrun. cbn [fst snd]. split; [done|]. split; [|split; [done|]].
  - apply calls_of_nil. by rewrite Hrun.
  - intros Hlt. unfold shop_blocked, showShopRewardedAd. unfold_monad. cbn.
    cbn in Hlt. apply Z.ltb_lt in Hlt. rewrite Hlt. cbn.
    eexists. split; reflexivity.
Qed.

(** ** Saving to the VK cloud *)

Lemma after_calls_nil w : after_calls [] w = w.
Proof.
  unfold after_calls. cbn. rewrite Nat.add_0_r, app_nil_r. by destruct w.
Qed.

Lemma after_calls_app s1 s2 w :
  after_calls s2 (after_calls s1 w) = after_calls (s1 ++ s2) w.
Proof.
  unfold after_calls. cbn. by rewrite length_app, Nat.add_assoc, app_assoc.
Qed.

Lemma record_call_after c o w : record_call c o w = after_calls [(c, o)] w.
Proof. unfold record_call, after_calls. cbn. by rewrite Nat.add_1_r. Qed.

(** One field of the data on an asynchronous VK bridge: the write is sent
    if the field is defined, and its promise collected. *)
Lemma save_field_async E data field key conv ps w :
  vk_async E -> nullish data = false ->
  exists sends,
    save_field E data field key conv ps w
      = (Val (ps ++ map snd sends), after_calls sends w) /\
    map fst sends = field_write data field key conv.
Proof.
  intros Hasync Hdata.
  destruct (get_prop_not_nullish data field Hdata) as [v Hv].
  unfold save_field, field_write, bind, lift. rewrite Hv.
  destruct (is_defined v).
  - unfold push_send, bind, call.
    set (c := vk_storage_set key (conv v)).
    exists [(c, ext_outcome E (tick w) c)].
    split; [|done]. rewrite <- record_call_after.
    pose proof (Hasync (tick w) c) as Hc.
    destruct (ext_outcome E (tick w) c) as [r|e|e]; try done.
    by destruct (Hc e I).
  - exists []. by rewrite after_calls_nil, app_nil_r.
Qed.

(** The VK block of [savePlayerData] on an asynchronous VK bridge. *)
Lemma savePlayerData_vk_async E data w :
  vk_storage_in_use (vars w) = true ->
  vk_async E -> nullish data = false ->
  exists sends,
    map fst sends = vk_writes E data /\
    savePlayerData_vk E data w
      = (Val (if all_ok sends then Some true else None), after_calls sends w).
Proof.
  intros Huse Hasync Hdata.
  rewrite (savePlayerData_vk_on E data w Huse).
  unfold try_catch.
  destruct (save_field_async E data "coins" "gameCoins" (ToString E) [] w
              Hasync Hdata) as (s1 & Hr1 & Hw1).
  unfold bind at 1. rewrite Hr1.
  destruct (save_field_async E data "hints" "gameHints" (ToString E)
              ([] ++ map snd s1) (after_calls s1 w) Hasync Hdata)
    as (s2 & Hr2 & Hw2).
  unfold bind at 1. rewrite Hr2.
  destruct (save_field_async E data "undos" "gameUndos" (ToString E)
              (([] ++ map snd s1) ++ map snd s2)
              (after_calls s2 (after_calls s1 w)) Hasync Hdata)
    as (s3 & Hr3 & Hw3).
  unfold bind at 1. rewrite Hr3.
  destruct (save_field_async E data "maxLevel" "gameMaxLevel" (ToString E)
              ((([] ++ map snd s1) ++ map snd s2) ++ map snd s3)
              (after_calls s3 (after_calls s2 (after_calls s1 w))) Hasync Hdata)
    as (s4 & Hr4 & Hw4).
  unfold bind at 1. rewrite Hr4.
  destruct (save_field_async E data "noAds" "gameNoAds"
              (fun v => if truthy v then "1" else "0")
              (((([] ++ map snd s1) ++ map snd s2) ++ map snd s3) ++ map snd s4)
              (after_calls s4 (after_calls s3 (after_calls s2 (after_calls s1 w))))
              Hasync Hdata)
    as (s5 & Hr5 & Hw5).
  unfold bind at 1. rewrite Hr5.
  rewrite !after_calls_app.
  set (sends := s1 ++ s2 ++ s3 ++ s4 ++ s5).
  assert (Hps : (((([] ++ map snd s1) ++ map snd s2) ++ map snd s3) ++ map snd s4)
                  ++ map snd s5 = map snd sends).
  { unfold sends. rewrite !map_app, <- !app_assoc. done. }
  rewrite Hps.
  exists sends. split.
  { unfold sends, vk_writes. by rewrite !map_app, Hw1, Hw2, Hw3, Hw4, Hw5. }
  unfold bind.
  destruct (Promise_all_run sends (after_calls sends w)) as [e He].
  rewrite He. by destruct (all_ok sends).
Qed.

Lemma savePlayerData_vk_run E data w :
  vk_storage_in_use (vars w) = true ->
  vk_async E -> nullish data = false ->
  exists sends,
    map fst sends = vk_writes E data /\
    savePlayerData E data w =
      if all_ok sends then (Val true, after_calls sends w)
      else
        let o := ext_outcome E (tick w + length sends) (StorageSet data) in
        (Val (negb (failed o)),
         record_call (StorageSet data) o (after_calls sends w)).
Proof.
  intros Huse Hasync Hdata.
  destruct (savePlayerData_vk_async E data w Huse Hasync Hdata)
    as (sends & Hw & Hrun).
  exists sends. split; [exact Hw|].
  unfold savePlayerData. unfold bind at 1. rewrite Hrun.
  destruct (all_ok sends); [done|].
  destruct (vk_storage_in_use_bridge _ Huse) as (b & Hb & _).
  by rewrite (savePlayerData_playgama_tail E data (after_calls sends w) b).
Qed.

Lemma savePlayerData_vk_nullish E data w :
  vk_storage_in_use (vars w) = true ->
  nullish data = true ->
  let o := ext_outcome E (tick w) (StorageSet data) in
  savePlayerData E data w
    = (Val (negb (failed o)), record_call (StorageSet data) o w).
Proof.
  intros Huse Hdata. cbn zeta.
  unfold savePlayerData. unfold bind at 1.
  rewrite (savePlayerData_vk_on E data w Huse).
  assert (Hget : get_prop data "coins" = Exn TypeError) by (by destruct data).
  unfold try_catch. unfold bind at 1. unfold save_field at 1.
  unfold bind at 1. unfold lift at 1. rewrite Hget.
  destruct (vk_storage_in_use_bridge _ Huse) as (b & Hb & _).
  exact (savePlayerData_playgama_tail E data w b Hb).
Qed.

(** X11: [savePlayerData] on VK, with a VK bridge that answers through
    promises.  For data that is an object, one [VKWebAppStorageSet] is sent
    for each of [coins], [hints], [undos], [maxLevel], [noAds] that is
    defined, in that order, under the keys [gameCoins], [gameHints],
    [gameUndos], [gameMaxLevel], [gameNoAds], with [String(value)] (and
    ['1']/['0'] for [noAds]); a rejected write does not stop the later
    ones.  If all of them succeed the result is [true] and nothing else is
    called; if one is rejected the whole data is also handed to
    [bridge.storage.set], whose outcome is the result.  For [null] or
    [undefined] nothing is sent to VK and [bridge.storage.set] decides.
    [localStorage] is never touched. *)
Theorem savePlayerData_on_vk E data w :
  vk_storage_in_use (vars w) = true ->
  vk_async E ->
  localStorage (snd (savePlayerData E data w)) = localStorage w /\
  (nullish data = false ->
   exists sends,
     map fst sends = vk_writes E data /\
     (all_ok sends = true ->
        fst (savePlayerData E data w) = Val true /\
        calls_of (savePlayerData E data) w = sends) /\
     (all_ok sends = false ->
        exists o,
          fst (savePlayerData E data w) = Val (negb (failed o)) /\
          calls_of (savePlayerData E data) w = sends ++ [(StorageSet data, o)])) /\
  (nullish data = true ->
   exists o,
     fst (savePlayerData E data w) = Val (negb (failed o)) /\
     calls_of (savePlayerData E data) w = [(StorageSet data, o)]).
Proof.
  intros Huse Hasync.
  destruct (nullish data) eqn:Hdata.
  - pose proof (savePlayerData_vk_nullish E data w Huse Hdata) as Hrun.
    cbn zeta in Hrun. split; [by rewrite Hrun|]. split; [done|].
    intros _. eexists. rewrite Hrun. split; [reflexivity|].
    apply calls_of_app. by rewrite Hrun.
  - destruct (savePlayerData_vk_run E data w Huse Hasync Hdata)
      as (sends & Hw & Hrun).
    split; [rewrite Hrun; by destruct (all_ok sends)|]. split; [|done].
    intros _. exists sends. split; [exact Hw|]. split; intros Hok.
    + rewrite Hok in Hrun. rewrite Hrun. split; [done|].
      apply calls_of_app. by rewrite Hrun.
    + rewrite Hok in Hrun. cbn zeta in Hrun. eexists. rewrite Hrun.
      split; [reflexivity|]. apply calls_of_app. rewrite Hrun. cbn.
      by rewrite <- app_assoc.
Qed.

(** ** Loading from the VK cloud *)

Lemma set_field_keys k v fs :
  map fst (set_field k v fs) =
    if decide (k ∈ map fst fs) then map fst fs else map fst fs ++ [k].
Proof.
  induction fs as [|[k' v'] fs IH]; cbn.
  - destruct (decide (k ∈ [])) as [Hin|_]; [inversion Hin|done].
  - destruct (String.eqb_spec k k') as [->|Hne]; cbn.
    + destruct (decide (k' ∈ k' :: map fst fs)) as [_|Hn]; [done|].
      destruct Hn. by left.
    + rewrite IH.
      destruct (decide (k ∈ map fst fs)) as [Hin|Hnin];
        destruct (decide (k ∈ k' :: map fst fs)) as [Hin'|Hnin']; try done.
      * destruct Hnin'. by right.
      * apply elem_of_cons in Hin' as [->|Hin']; done.
Qed.

Lemma set_field_shape k v fs :
  known_field (k, v) -> player_data_shape fs -> player_data_shape (set_field k v fs).
Proof.
  intros Hkv [Hnd Hall]. split.
  - rewrite set_field_keys. destruct (decide (k ∈ map fst fs)); [done|].
    apply NoDup_app. split; [done|]. split; [|apply NoDup_singleton].
    intros x Hx Hx'. apply list_elem_of_singleton in Hx'. by subst.
  - clear Hnd. induction fs as [|[k' v'] fs IH]; cbn.
    + by constructor.
    + apply Forall_cons in Hall as [Hhd Htl].
      destruct (String.eqb k k'); constructor; auto.
Qed.

Lemma parse_item_shape E data item w :
  player_data_shape data ->
  exists r, parse_item E data item w = (r, w) /\
            forall data', r = Val data' -> player_data_shape data'.
Proof.
  intros Hshape. unfold parse_item. unfold_monad.
  destruct (get_prop item "key") as [key|e]; [|eexists; split; [done|done]].
  destruct (get_prop item "value") as [value|e]; [|eexists; split; [done|done]].
  eexists. split; [reflexivity|]. intros data' [= <-].
  assert (Hnum : forall k, k ∈ counter_fields -> known_field (k, parseInt E value)).
  { intros k Hk. left. split; [done|]. by eexists. }
  repeat match goal with
         | |- context [if ?c then _ else _] => destruct c
         end; try done.
  - apply set_field_shape; [|done]. apply Hnum. set_solver.
  - apply set_field_shape; [|done]. apply Hnum. set_solver.
  - apply set_field_shape; [|done]. apply Hnum. set_solver.
  - apply set_field_shape; [|done]. apply Hnum. set_solver.
  - apply set_field_shape; [|done]. right. split; [done|]. by eexists.
Qed.

Lemma forEach_shape E items data w data' :
  player_data_shape data ->
  fst (forEach E items data w) = Val data' -> player_data_shape data'.
Proof.
  revert data. induction items as [|item items IH]; intros data Hshape.
  - cbn. by intros [= <-].
  - cbn [forEach]. unfold bind.
    destruct (parse_item_shape E data item w Hshape) as (r & Hrun & Hr).
    rewrite Hrun. destruct r as [d|e]; [|done].
    apply IH. by apply Hr.
Qed.

Lemma parse_keys_shape E result w data :
  fst (parse_keys E result w) = Val data -> player_data_shape data.
Proof.
  unfold parse_keys. unfold_monad.
  assert (Hnil : player_data_shape []).
  { split; [constructor|constructor]. }
  destruct (get_prop result "keys") as [keys|e]; [|done].
  destruct (truthy keys); [|by intros [= <-]].
  destruct keys as [| |? |? | |? |items|fs|]; try done;
    [|destruct (assoc "forEach" fs); try done; by intros [= <-]].
  by apply forEach_shape.
Qed.

Lemma legacy_sync_data_shape E localCoins localMaxLevel :
  player_data_shape (legacy_sync_data E localCoins localMaxLevel).
Proof.
  assert (Hnil : player_data_shape []).
  { split; [constructor|constructor]. }
  assert (Hnum : forall k v, k ∈ counter_fields -> known_field (k, parseInt E v)).
  { intros k v Hk. left. split; [done|]. by eexists. }
  unfold legacy_sync_data.
  destruct (truthy localCoins), (truthy localMaxLevel); try done;
    repeat (apply set_field_shape; [apply Hnum; set_solver|]); done.
Qed.

(** Whatever the VK block of [loadPlayerData] returns has the shape. *)
Lemma loadPlayerData_vk_shape E w v :
  fst (loadPlayerData_vk E w) = Val (Some v) ->
  exists data, v = VObj data /\ player_data_shape data.
Proof.
  destruct (vk_storage_in_use (vars w)) eqn:Huse.
  2:{ by rewrite loadPlayerData_vk_off. }
  rewrite (loadPlayerData_vk_on E w Huse).
  unfold try_catch. unfold bind at 1. unfold call at 1.
  unfold bind at 1. rewrite await_cases.
  destruct (ext_outcome E (tick w) _) as [result|e|e]; [|done|done].
  unfold bind at 1.
  pose proof (parse_keys_shape E result (record_call
    (VKSend "VKWebAppStorageGet" vk_storage_keys) (Returns result) w)) as Hshape.
  destruct (parse_keys E result _) as [[data|e] w1]; [|done].
  cbn in Hshape. specialize (Hshape data eq_refl).
  destruct data as [|kv data].
  2:{ cbn. intros [= <-]. eauto. }
  unfold bind at 1.
  destruct (localStorage_getItem E "gameCoins" w1) as [[localCoins|e] w2]; [|done].
  unfold bind at 1.
  destruct (localStorage_getItem E "maxLevel" w2) as [[localMaxLevel|e] w3];
    [|done].
  destruct (truthy localCoins || truthy localMaxLevel).
  - cbn zeta. unfold bind.
    destruct (savePlayerData E _ w3) as [[ok|e] w4]; [|done].
    cbn. intros [= <-]. eexists. split; [reflexivity|].
    apply legacy_sync_data_shape.
  - cbn. intros [= <-]. eauto.
Qed.

(** X13: what [loadPlayerData] returns from the VK cloud is always
    well-formed player data, whatever the cloud answered.  When the VK cloud
    is in use and the Playgama storage was not consulted, the result is an
    object whose keys are among [coins], [hints], [undos], [maxLevel],
    [noAds], each at most once, with a number (possibly [NaN]) for the
    counters and a boolean for [noAds]: unknown keys and empty values in the
    answer are dropped. *)
Theorem loadPlayerData_vk_well_formed E w :
  vk_storage_in_use (vars w) = true ->
  (forall o, (StorageGet, o) ∉ calls_of (loadPlayerData E) w) ->
  exists data,
    fst (loadPlayerData E w) = Val (VObj data) /\ player_data_shape data.
Proof.
  intros Huse Hno.
  destruct (vk_storage_in_use_bridge _ Huse) as (b & Hb & _).
  unfold calls_of in Hno.
  destruct (loadPlayerData E w) as [r w'] eqn:Hrun. cbn [fst snd] in *.
  unfold loadPlayerData in Hrun. unfold bind at 1 in Hrun.
  pose proof (loadPlayerData_vk_shape E w) as Hshape.
  destruct (loadPlayerData_vk_emits E w) as (c1 & Ht1 & Hv1 & _).
  destruct (loadPlayerData_vk_total E w) as [r0 Hres].
  destruct (loadPlayerData_vk E w) as [r1 w1]. cbn in Ht1, Hv1, Hres, Hshape.
  subst r1. destruct r0 as [v|].
  - injection Hrun as <- <-. destruct (Hshape v eq_refl) as (data & -> & Hd).
    eauto.
  - exfalso. unfold bind at 1 in Hrun. unfold get_vars at 1 in Hrun.
    rewrite Hv1, Hb in Hrun.
    unfold try_catch, bind, call in Hrun. rewrite await_cases in Hrun.
    apply (Hno (ext_outcome E (tick w1) StorageGet)).
    destruct (ext_outcome E (tick w1) StorageGet);
      injection Hrun as <- <-; cbn;
      rewrite Ht1, <- app_assoc, drop_app_length;
      apply elem_of_app; right; by apply list_elem_of_singleton.
Qed.

(** X12: the VK encoding round-trips.  For player data with integer
    [coins], [hints], [undos], [maxLevel] and a boolean [noAds] (any of them
    absent), if the cloud answers [VKWebAppStorageGet] with the key/value
    pairs [savePlayerData] writes for it, [loadPlayerData]'s parse of the
    answer gives the data back, [noAds: false] included.  What this needs
    of [String] and [parseInt] is asked of the counters the data holds
    only: each of them is printed as a non-empty text that
    [parseInt(.., 10)] reads back. *)
Theorem vk_encoding_round_trip E coins hints undos maxLevel noAds w :
  counter_round_trips E coins ->
  counter_round_trips E hints ->
  counter_round_trips E undos ->
  counter_round_trips E maxLevel ->
  let data := player_data coins hints undos maxLevel noAds in
  parse_keys E (cloud_answer (vk_writes E (VObj data))) w = (Val data, w).
Proof.
  intros Hc Hh Hu Hm. cbn zeta.
  assert (Hrt : forall z, integer_round_trips E z ->
            String.eqb (ToString E (VNum z)) "" = false /\
            parseInt E (VStr (ToString E (VNum z))) = VNum z).
  { intros z [Hne Hz]. split; [by apply String.eqb_neq|].
    unfold parseInt. by rewrite Hz. }
  unfold parse_keys, cloud_answer, vk_writes, field_write, player_data, opt_field.
  destruct coins as [c|], hints as [h|], undos as [u|], maxLevel as [l|],
           noAds as [[|]|];
    cbn [counter_round_trips] in Hc, Hh, Hu, Hm;
    repeat match goal with
           | H : integer_round_trips E _ |- _ => apply Hrt in H; destruct H
           end;
    cbn; unfold parse_item; unfold_monad; cbn;
    repeat match goal with
           | H : String.eqb _ _ = false |- _ => rewrite H
           end; cbn;
    repeat match goal with
           | H : parseInt E _ = _ |- _ => rewrite H
           end; reflexivity.
Qed.

(** The VK block of [loadPlayerData] up to the parse of the answer. *)
Lemma loadPlayerData_vk_answered E w result data :
  vk_storage_in_use (vars w) = true ->
  ext_outcome E (tick w) (VKSend "VKWebAppStorageGet" vk_storage_keys)
    = Returns result ->
  fst (parse_keys E result w) = Val data ->
  let w1 := record_call (VKSend "VKWebAppStorageGet" vk_storage_keys)
              (Returns result) w in
  loadPlayerData_vk E w =
    try_catch
      (match data with
       | [] =>
           localCoins <- localStorage_getItem E "gameCoins" ;;
           localMaxLevel <- localStorage_getItem E "maxLevel" ;;
           if truthy localCoins || truthy localMaxLevel then
             let syncData := legacy_sync_data E localCoins localMaxLevel in
             savePlayerData E (VObj syncData) ;;
             ret (Some (VObj syncData))
           else ret (Some (VObj data))
       | _ :: _ => ret (Some (VObj data))
       end)
      (fun _ => ret None) w1.
Proof.
  intros Huse Hget Hparse. cbn zeta.
  rewrite (loadPlayerData_vk_on E w Huse).
  unfold try_catch. unfold bind at 1. unfold call at 1. rewrite Hget.
  unfold bind at 1. unfold await at 1, ret at 1.
  unfold bind at 1.
  set (w1 := record_call (VKSend "VKWebAppStorageGet" vk_storage_keys)
               (Returns result) w).
  pose proof (parse_keys_pure E result w1) as Hpure.
  pose proof (parse_keys_fst E result w1 w) as Hfst.
  rewrite Hparse in Hfst.
  destruct (parse_keys E result w1) as [r1 w1']. cbn in Hpure, Hfst.
  by subst r1 w1'.
Qed.

(** X14: on VK, the legacy local values never override the cloud.  When
    the [VKWebAppStorageGet] answer parses to at least one field,
    [loadPlayerData] returns exactly the parsed data; its only external call
    is that [VKWebAppStorageGet], and [localStorage] is not even read.  When
    the answer parses to nothing and neither legacy key holds a non-empty
    value, it returns [{}] and saves nothing. *)
Theorem loadPlayerData_vk_cloud_first E w result data :
  vk_storage_in_use (vars w) = true ->
  ext_outcome E (tick w) (VKSend "VKWebAppStorageGet" vk_storage_keys)
    = Returns result ->
  fst (parse_keys E result w) = Val data ->
  let w1 := record_call (VKSend "VKWebAppStorageGet" vk_storage_keys)
              (Returns result) w in
  (data <> [] -> loadPlayerData E w = (Val (VObj data), w1)) /\
  (data = [] ->
   storage_fault E (1 + tick w) = None ->
   storage_fault E (2 + tick w) = None ->
   truthy (item_value (localStorage w !! "gameCoins")) = false ->
   truthy (item_value (localStorage w !! "maxLevel")) = false ->
   loadPlayerData E w = (Val (VObj []), step (step w1))).
Proof.
  intros Huse Hget Hparse. cbn zeta. split.
  - intros Hne. unfold loadPlayerData. unfold bind at 1.
    rewrite (loadPlayerData_vk_answered E w result data Huse Hget Hparse).
    by destruct data.
  - intros -> Hf1 Hf2 Hc Hl. unfold loadPlayerData. unfold bind at 1.
    rewrite (loadPlayerData_vk_answered E w result [] Huse Hget Hparse).
    unfold try_catch. unfold bind at 1. unfold localStorage_getItem at 1.
    cbn in Hf1, Hf2. cbn [tick record_call]. rewrite Hf1.
    unfold bind at 1. unfold localStorage_getItem at 1.
    cbn [tick step record_call]. rewrite Hf2.
    cbn [localStorage step record_call]. by rewrite Hc, Hl.
Qed.

(** X15: when the VK cloud cannot be read, [loadPlayerData] falls back to
    the Playgama storage.  If [VKWebAppStorageGet] throws or rejects, or if
    reading the legacy keys from [localStorage] throws while the cloud is
    empty, the result is what [bridge.storage.get()] gives ([{}] if that is
    falsy or fails too), and nothing is saved. *)
Theorem loadPlayerData_vk_falls_back E w :
  vk_storage_in_use (vars w) = true ->
  let get := VKSend "VKWebAppStorageGet" vk_storage_keys in
  let playgama (u : World) :=
    (Val (match ext_outcome E (tick u) StorageGet with
          | Returns data => if truthy data then data else VObj []
          | Rejects _ | Throws _ => VObj []
          end),
     record_call StorageGet (ext_outcome E (tick u) StorageGet) u) in
  (failed (ext_outcome E (tick w) get) = true ->
   loadPlayerData E w = playgama (record_call get (ext_outcome E (tick w) get) w)) /\
  (forall result e,
     ext_outcome E (tick w) get = Returns result ->
     fst (parse_keys E result w) = Val [] ->
     storage_fault E (1 + tick w) = Some e ->
     loadPlayerData E w = playgama (step (record_call get (Returns result) w))).
Proof.
  intros Huse. cbn zeta.
  destruct (vk_storage_in_use_bridge _ Huse) as (b & Hb & _).
  split.
  - intros Hfail. unfold loadPlayerData. unfold bind at 1.
    rewrite (loadPlayerData_vk_on E w Huse).
    unfold try_catch. unfold bind at 1. unfold call at 1.
    unfold bind at 1. rewrite await_cases.
    destruct (ext_outcome E (tick w) _) as [v|e|e] eqn:Hout; [done| |];
      exact (loadPlayerData_playgama_tail E (record_call _ _ w) b Hb).
  - intros result e Hget Hparse Hfault. unfold loadPlayerData. unfold bind at 1.
    rewrite (loadPlayerData_vk_answered E w result [] Huse Hget Hparse).
    unfold try_catch. unfold bind at 1. unfold localStorage_getItem at 1.
    cbn in Hfault. cbn [tick record_call]. rewrite Hfault.
    exact (loadPlayerData_playgama_tail E (step (record_call _ _ w)) b Hb).
Qed.

(** ** The other storage paths *)

(** X16: with a bridge but without the VK cloud (another platform, or VK
    without a working VK handle), each storage function makes exactly one
    call to the Playgama storage and never touches [localStorage].
    [savePlayerData] hands the data over as it is and returns whether
    [bridge.storage.set] succeeded; [loadPlayerData] returns what
    [bridge.storage.get] gave, or [{}] if that is falsy or the call failed. *)
Theorem storage_on_playgama_bridge E data w b :
  bridge (vars w) = Some b ->
  vk_storage_in_use (vars w) = false ->
  let set := ext_outcome E (tick w) (StorageSet data) in
  let get := ext_outcome E (tick w) StorageGet in
  savePlayerData E data w
    = (Val (negb (failed set)), record_call (StorageSet data) set w) /\
  loadPlayerData E w
    = (Val (match get with
            | Returns d => if truthy d then d else VObj []
            | Rejects _ | Throws _ => VObj []
            end),
       record_call StorageGet get w).
Proof.
  intros Hb Hoff. cbn zeta. split.
  - unfold savePlayerData. unfold bind at 1.
    rewrite (savePlayerData_vk_off E data w Hoff).
    exact (savePlayerData_playgama_tail E data w b Hb).
  - unfold loadPlayerData. unfold bind at 1.
    rewrite (loadPlayerData_vk_off E w Hoff).
    exact (loadPlayerData_playgama_tail E w b Hb).
Qed.

(** X17: without a bridge the storage functions are local and robust.
    They make no external call and change no module variable;
    [savePlayerData] changes no key of [localStorage] other than
    ['cloudSave'], and [loadPlayerData] changes none at all.
    [loadPlayerData] returns [{}] when the key is missing, when it holds the
    empty string, and when [JSON.parse] throws on what it holds. *)
Theorem storage_without_bridge E data w :
  bridge (vars w) = None ->
  let saved := snd (savePlayerData E data w) in
  let loaded := snd (loadPlayerData E w) in
  (calls_of (savePlayerData E data) w = [] /\
   calls_of (loadPlayerData E) w = [] /\
   vars saved = vars w /\ vars loaded = vars w) /\
  (forall k, k <> "cloudSave" -> localStorage saved !! k = localStorage w !! k) /\
  localStorage loaded = localStorage w /\
  (localStorage w !! "cloudSave" = None ->
     fst (loadPlayerData E w) = Val (VObj [])) /\
  (localStorage w !! "cloudSave" = Some "" ->
     fst (loadPlayerData E w) = Val (VObj [])) /\
  (forall text e,
     localStorage w !! "cloudSave" = Some text ->
     JSON_parse E (VStr text) = Exn e ->
     fst (loadPlayerData E w) = Val (VObj [])).
Proof.
  intros Hb. cbn zeta.
  rewrite (savePlayerData_dev E data w Hb), (loadPlayerData_dev E w Hb).
  split; [|split; [|split; [|split; [|split]]]].
  - repeat split.
    + apply calls_of_nil. rewrite (savePlayerData_dev E data w Hb).
      destruct (JSON_stringify E data); [|done].
      by destruct (storage_fault E (tick w)).
    + apply calls_of_nil. by rewrite (loadPlayerData_dev E w Hb).
    + destruct (JSON_stringify E data); [|done].
      by destruct (storage_fault E (tick w)).
  - intros k Hk. destruct (JSON_stringify E data); [|done].
    destruct (storage_fault E (tick w)); [done|]. cbn.
    by rewrite lookup_insert_ne.
  - done.
  - intros Hnone. rewrite Hnone. by destruct (storage_fault E (tick w)).
  - intros Hempty. rewrite Hempty. by destruct (storage_fault E (tick w)).
  - intros text e Htext Hparse. rewrite Htext. cbn.
    destruct (storage_fault E (tick w)); [done|].
    destruct (negb _); [|done]. by rewrite Hparse.
Qed.

(** ** Purchases, banner and social functions *)

(** X18: [makePurchase] in full.  Without a bridge it reports success
    with empty bonuses and calls nothing.  With a bridge it makes the one
    call [bridge.payments.purchase({id})]; if that resolves with [r] the
    answer is [{success:true, bonuses:r}]; if it fails with a value [e] that
    is neither [null] nor [undefined] the answer is [{success:false,
    error:e.message}]; and if it fails with [null] or [undefined], reading
    [e.message] in the [catch] block throws and [makePurchase] itself ends
    in a [TypeError]. *)
Theorem makePurchase_outcomes E productId w :
  (bridge (vars w) = None ->
     makePurchase E productId w
       = (Val (VObj [("success", VBool true); ("bonuses", VObj [])]), w)) /\
  (forall b, bridge (vars w) = Some b ->
     let c := PaymentsPurchase (VObj [("id", productId)]) in
     let o := ext_outcome E (tick w) c in
     snd (makePurchase E productId w) = record_call c o w /\
     match o with
     | Returns r =>
         fst (makePurchase E productId w)
           = Val (VObj [("success", VBool true); ("bonuses", r)])
     | Rejects e | Throws e =>
         if nullish e
         then fst (makePurchase E productId w) = Exn TypeError
         else exists message,
                get_prop e "message" = Val message /\
                fst (makePurchase E productId w)
                  = Val (VObj [("success", VBool false); ("error", message)])
     end).
Proof.
  split.
  - intros Hb. unfold makePurchase. unfold_monad. cbn. by rewrite Hb.
  - intros b Hb. cbn zeta. unfold makePurchase. unfold_monad. cbn. rewrite Hb.
    cbn.
    destruct (ext_outcome E (tick w) _) as [r|e|e]; cbn; [done| |];
      destruct e; cbn; eauto.
Qed.

(** X19: the sticky banner.  [showStickyBanner] returns [false] without
    calling anything when there is no bridge or the platform is not VK.
    When it returns [true], its last call was a [VKWebAppShowBannerAd] or a
    [bridge.advertisement.showSticky()] that succeeded.  The Playgama
    [showSticky] is only tried after the VK banner failed or without a VK
    handle: a run never contains both a successful VK banner call and a
    [showSticky] call. *)
Theorem showStickyBanner_outcomes E w :
  ((bridge (vars w) = None \/
    exists b, bridge (vars w) = Some b /\ is_vk b = false) ->
   showStickyBanner E w = (Val false, w)) /\
  (fst (showStickyBanner E w) = Val true ->
   exists c v rest,
     calls_of (showStickyBanner E) w = rest ++ [(c, Returns v)] /\
     (c = vk_banner \/ c = ShowSticky)) /\
  (forall o o',
     (ShowSticky, o) ∈ calls_of (showStickyBanner E) w ->
     (vk_banner, o') ∈ calls_of (showStickyBanner E) w ->
     failed o' = true).
Proof.
  unfold calls_of.
  destruct (showStickyBanner E w) as [r w'] eqn:Hrun. cbn [fst snd].
  unfold showStickyBanner in Hrun. unfold bind at 1 in Hrun.
  unfold get_vars at 1 in Hrun.
  destruct (bridge (vars w)) as [b|] eqn:Hb.
  2:{ injection Hrun as <- <-. rewrite drop_all.
      split; [done|]. split; [done|]. intros o o' Hin. inversion Hin. }
  unfold bind at 1 in Hrun. rewrite isVKPlatform_run, Hb in Hrun.
  destruct (is_vk b) eqn:Hvk; cbn [negb] in Hrun.
  2:{ injection Hrun as <- <-. rewrite drop_all.
      split; [done|]. split; [done|]. intros o o' Hin. inversion Hin. }
  split.
  { intros [Hnone|(b' & Hb' & Hvk')]; [done|]. congruence. }
  unfold_monad. cbn in Hrun. run_in Hrun.
  all: injection Hrun as <- <-; cbn.
  all: rewrite <- ?app_assoc, ?drop_app_length, ?drop_all; cbn.
  all: split; [try done|].
  all: try (intros _; eexists _, _, []; split; [reflexivity|]; by eauto).
  all: try (intros _; eexists _, _, [_]; split; [reflexivity|]; by eauto).
  all: intros o o' Hin Hin'.
  all: repeat (apply elem_of_cons in Hin as [Hin|Hin]; [try discriminate|]).
  all: try (by inversion Hin).
  all: repeat (apply elem_of_cons in Hin' as [Hin'|Hin']; [try discriminate|]).
  all: try (by inversion Hin').
  all: injection Hin' as <-; congruence.
Qed.

(** X20: the VK social functions never throw and do nothing off VK.
    Without a bridge or on another platform [openVKGroup] and [shareVK]
    leave the world as it is.  On VK, [shareVK] makes the one call
    [bridge.social.share()], and [openVKGroup] the one call
    [bridge.social.joinCommunity] with group 217329390; only if that call
    throws does it open the group page in a new window instead. *)
Theorem vk_social_functions E w :
  ((bridge (vars w) = None \/
    exists b, bridge (vars w) = Some b /\ is_vk b = false) ->
   openVKGroup E w = (Val tt, w) /\ shareVK E w = (Val tt, w)) /\
  (forall b, bridge (vars w) = Some b -> is_vk b = true ->
     fst (openVKGroup E w) = Val tt /\
     fst (shareVK E w) = Val tt /\
     calls_of (shareVK E) w = [(SocialShare, ext_outcome E (tick w) SocialShare)] /\
     let joined := ext_outcome E (tick w) join_group in
     calls_of (openVKGroup E) w =
       (join_group, joined) ::
       match joined with
       | Throws _ => [(group_page, ext_outcome E (1 + tick w) group_page)]
       | Returns _ | Rejects _ => []
       end).
Proof.
  split.
  - intros [Hnone|(b & Hb & Hvk)];
      unfold openVKGroup, shareVK; unfold_monad.
    + do 3 (rewrite ?isVKPlatform_run, ?Hnone; cbn). done.
    + do 3 (rewrite ?isVKPlatform_run, ?Hb, ?Hvk; cbn). done.
  - intros b Hb Hvk. cbn zeta. unfold calls_of.
    unfold openVKGroup, shareVK; unfold_monad.
    do 3 (rewrite ?isVKPlatform_run, ?Hb, ?Hvk; cbn).
    unfold join_group, group_page.
    destruct (ext_outcome E (tick w) SocialShare);
      destruct (ext_outcome E (tick w) (SocialJoinCommunity 217329390));
      cbn; rewrite ?drop_app_length;
      try (destruct (ext_outcome E (S (tick w)) (WindowOpen _)); cbn);
      rewrite <- ?app_assoc, ?drop_app_length; done.
Qed.

(** ** The further statements on sample runs *)

(** A bridge whose [initialize()] rejects: [null] first, the bridge on the
    second call. *)
Lemma initPlaygamaSDK_second_call_witness :
  let E := Sample.offline 0 in
  let w' := snd (initPlaygamaSDK E world_init) in
  fst (initPlaygamaSDK E world_init) = Val None /\
  initPlaygamaSDK E w' = (Val (Some Sample.web), w').
Proof.
  intros E w'. split; [reflexivity|].
  apply (initPlaygamaSDK_second_call E world_init Sample.web). reflexivity.
Defined.

Lemma module_init_vk_consistent : vk_consistent module_init.
Proof. intros H. by destruct H. Qed.

(** The first start on a VK page where everything works. *)
Lemma initPlaygamaSDK_keeps_vk_consistent_witness :
  let m' := vars (snd (initPlaygamaSDK (Sample.on_vk 0) world_init)) in
  vk_consistent m' /\ vkBridge m' = Some WindowVkBridge /\
  vk_storage_in_use m' = true.
Proof.
  intros m'.
  destruct (initPlaygamaSDK_keeps_vk_consistent (Sample.on_vk 0) world_init
              module_init_vk_consistent) as [Hc Hiff].
  split; [exact Hc|]. split; [reflexivity|]. apply Hiff. discriminate.
Defined.

Lemma initPlaygamaSDK_vk_handle_witness :
  let E := Sample.on_vk 0 in
  vkBridge (vars (snd (initPlaygamaSDK E world_init))) <> None /\
  exists o, (vk_init, o) ∈ calls_of (initPlaygamaSDK E) world_init /\
            failed o = false.
Proof.
  intros E.
  destruct (initPlaygamaSDK_vk_handle E world_init eq_refl) as [Hiff _].
  split; [discriminate|]. apply Hiff. discriminate.
Defined.

(** Half a second into the shop cooldown; and a clock set back by a
    minute. *)
Lemma shop_remaining_time_bounds_witness :
  let w := Sample.world (Sample.started Sample.web None) ∅ in
  (exists r, fst (getShopRewardedCooldown (Sample.quiet 500) w) = Val r /\
             (1 <= r <= 600)%Z) /\
  (exists r, fst (getShopRewardedCooldown (Sample.quiet (-60000)) w) = Val r /\
             (600 < r)%Z).
Proof.
  intros w. split.
  - destruct (shop_remaining_time_bounds (Sample.quiet 500) w)
      as (r & Hr & _ & Hrun & Hfwd & _).
    exists r. split; [exact Hr|].
    destruct (Hrun ltac:(vm_compute; reflexivity)) as [_ H1].
    specialize (Hfwd ltac:(vm_compute; discriminate)). lia.
  - destruct (shop_remaining_time_bounds (Sample.quiet (-60000)) w)
      as (r & Hr & _ & _ & _ & Hback).
    exists r. split; [exact Hr|].
    exact (Hback ltac:(vm_compute; reflexivity)).
Defined.

(** The shop ad on a page without the bridge. *)
Lemma showShopRewardedAd_dev_mode_witness :
  let E := Sample.quiet 700000 in
  let w := Sample.world module_init ∅ in
  fst (showShopRewardedAd E w) = Val (shop_result (VBool true) false 0) /\
  shop_blocked E (snd (showShopRewardedAd E w)).
Proof.
  intros E w.
  destruct (showShopRewardedAd_dev_mode E w eq_refl
              ltac:(vm_compute; discriminate)) as (Hres & _ & _ & Hnext).
  split; [exact Hres|]. apply Hnext. vm_compute. reflexivity.
Defined.

Lemma quiet_vk_async t0 : vk_async (Sample.quiet t0).
Proof. intros n c e _. discriminate. Qed.

Lemma vk_down_async t0 : vk_async (Sample.vk_down t0).
Proof. intros n c e Hc. destruct c; try done. Qed.

(** Saving 120 coins at level 7 on VK: both writes are sent even though
    the first one is rejected, and the data then goes to the Playgama
    storage. *)
Lemma savePlayerData_on_vk_witness :
  let E := Sample.vk_down 0 in
  let w := Sample.world (Sample.started Sample.vk (Some WindowVkBridge)) ∅ in
  exists sends o,
    map fst sends = [vk_storage_set "gameCoins" "120";
                     vk_storage_set "gameMaxLevel" "7"] /\
    calls_of (savePlayerData E Sample.save) w
      = sends ++ [(StorageSet Sample.save, o)] /\
    fst (savePlayerData E Sample.save w) = Val (negb (failed o)).
Proof.
  intros E w.
  destruct (savePlayerData_on_vk E Sample.save w eq_refl (vk_down_async 0))
    as (_ & Hobj & _).
  destruct (Hobj eq_refl) as (sends & Hw & Hok & Hbad).
  destruct (all_ok sends) eqn:Hall.
  - exfalso. destruct (Hok eq_refl) as [Hres _]. vm_compute in Hres.
    destruct sends as [|[c1 o1] sends]; [discriminate|].
    assert (Hcalls : calls_of (savePlayerData E Sample.save) w = (c1, o1) :: sends)
      by (by destruct (Hok eq_refl)).
    vm_compute in Hcalls. injection Hcalls as _ <- _.
    discriminate.
  - destruct (Hbad eq_refl) as (o & Hres & Hcalls).
    exists sends, o. split; [exact Hw|]. split; [exact Hcalls|exact Hres].
Defined.

Lemma signed_integers_round_trip z : integer_round_trips Sample.signed z.
Proof.
  assert (Hrt : DecimalString.NilZero.int_of_string
                  (DecimalString.NilZero.string_of_int (Z.to_int z))
                = Some (Z.to_int z)).
  { apply DecimalString.NilZero.isi; destruct z; cbn; try discriminate;
      intros [= H]; revert H; apply DecimalPos.Unsigned.to_uint_nonnil. }
  split; cbn.
  - intros Hempty. rewrite Hempty in Hrt. discriminate.
  - rewrite Hrt. cbn. by rewrite DecimalZ.of_to.
Qed.

(** A debt of 40 coins, level 7, ads not removed. *)
Lemma vk_encoding_round_trip_witness :
  let data := player_data (Some (-40)%Z) None None (Some 7%Z) (Some false) in
  vk_writes Sample.signed (VObj data)
    = [vk_storage_set "gameCoins" "-40"; vk_storage_set "gameMaxLevel" "7";
       vk_storage_set "gameNoAds" "0"] /\
  fst (parse_keys Sample.signed
         (cloud_answer (vk_writes Sample.signed (VObj data))) world_init)
    = Val data.
Proof.
  intros data. split; [reflexivity|]. unfold data.
  by rewrite (vk_encoding_round_trip Sample.signed (Some (-40)%Z) None None
                (Some 7%Z) (Some false) world_init
                (signed_integers_round_trip (-40)) I I
                (signed_integers_round_trip 7)).
Defined.

(** Loading on VK from a cloud that holds coins and the no-ads flag. *)
Lemma loadPlayerData_vk_well_formed_witness :
  let E := Sample.vk_stored_cloud 0 in
  let w := Sample.world (Sample.started Sample.vk (Some WindowVkBridge)) ∅ in
  exists data,
    fst (loadPlayerData E w) = Val (VObj data) /\
    data = [("coins", VNum 350); ("noAds", VBool true)] /\
    player_data_shape data.
Proof.
  intros E w.
  destruct (loadPlayerData_vk_well_formed E w eq_refl) as (data & Hres & Hshape).
  - intros o Hin. vm_compute in Hin.
    apply list_elem_of_singleton in Hin. discriminate.
  - exists data. split; [exact Hres|]. split; [|exact Hshape].
    vm_compute in Hres. by injection Hres as <-.
Defined.

(** The cloud wins over legacy local values; an empty cloud and no legacy
    values give [{}]. *)
Lemma loadPlayerData_vk_cloud_first_witness :
  let vk_state := Sample.started Sample.vk (Some WindowVkBridge) in
  fst (loadPlayerData (Sample.vk_stored_cloud 0)
         (Sample.world vk_state {["gameCoins" := "5"]}))
    = Val (VObj [("coins", VNum 350); ("noAds", VBool true)]) /\
  fst (loadPlayerData (Sample.vk_empty_cloud 0) (Sample.world vk_state ∅))
    = Val (VObj []).
Proof.
  intros vk_state. split.
  - destruct (loadPlayerData_vk_cloud_first (Sample.vk_stored_cloud 0)
                (Sample.world vk_state {["gameCoins" := "5"]})
                Sample.stored_cloud
                [("coins", VNum 350); ("noAds", VBool true)]
                eq_refl eq_refl eq_refl) as [Hfull _].
    by rewrite (Hfull ltac:(discriminate)).
  - destruct (loadPlayerData_vk_cloud_first (Sample.vk_empty_cloud 0)
                (Sample.world vk_state ∅) Sample.empty_cloud []
                eq_refl eq_refl eq_refl) as [_ Hempty].
    by rewrite (Hempty eq_refl eq_refl eq_refl eq_refl eq_refl).
Defined.

(** A VK bridge that rejects the read: the Playgama storage is asked. *)
Lemma loadPlayerData_vk_falls_back_witness :
  let E := Sample.vk_down 0 in
  let w := Sample.world (Sample.started Sample.vk (Some WindowVkBridge)) ∅ in
  fst (loadPlayerData E w) = Val (VObj []) /\
  (StorageGet, Returns VUndef) ∈ calls_of (loadPlayerData E) w.
Proof.
  intros E w.
  destruct (loadPlayerData_vk_falls_back E w eq_refl) as [Hfail _].
  rewrite (calls_of_app (loadPlayerData E) w
             [(VKSend "VKWebAppStorageGet" vk_storage_keys,
               Rejects Sample.NetworkError);
              (StorageGet, Returns VUndef)]).
  - split; [by rewrite (Hfail eq_refl)|].
    apply elem_of_cons. right. by apply list_elem_of_singleton.
  - by rewrite (Hfail eq_refl).
Defined.

(** Saving and loading on the web bridge. *)
Lemma storage_on_playgama_bridge_witness :
  let E := Sample.quiet 0 in
  let w := Sample.world (Sample.started Sample.web None) ∅ in
  fst (savePlayerData E Sample.save w) = Val true /\
  calls_of (savePlayerData E Sample.save) w
    = [(StorageSet Sample.save, Returns VUndef)] /\
  fst (loadPlayerData E w) = Val (VObj []).
Proof.
  intros E w.
  destruct (storage_on_playgama_bridge E Sample.save w Sample.web eq_refl eq_refl)
    as [Hsave Hload].
  split; [by rewrite Hsave|]. split; [|by rewrite Hload].
  apply calls_of_app. by rewrite Hsave.
Defined.

(** A damaged save in [localStorage], and legacy keys next to it. *)
Lemma storage_without_bridge_witness :
  let E := Sample.quiet 0 in
  let w := Sample.world module_init
             {["cloudSave" := "{coins:"; "gameCoins" := "5"]} in
  fst (loadPlayerData E w) = Val (VObj []) /\
  localStorage (snd (savePlayerData E Sample.save w)) !! "gameCoins" = Some "5".
Proof.
  intros E w.
  destruct (storage_without_bridge E Sample.save w eq_refl)
    as (_ & Hkeys & _ & _ & _ & Hbad).
  split.
  - apply (Hbad "{coins:" Sample.SyntaxError); reflexivity.
  - rewrite (Hkeys "gameCoins" ltac:(discriminate)). reflexivity.
Defined.

(** A purchase that is rejected with a reason, and one rejected with
    none. *)
Lemma makePurchase_outcomes_witness :
  let w := Sample.world (Sample.started Sample.web None) ∅ in
  fst (makePurchase (Sample.offline 0) (VStr "no_ads") w)
    = Val (VObj [("success", VBool false); ("error", VStr "network")]) /\
  fst (makePurchase (Sample.silent_failure 0) (VStr "no_ads") w) = Exn TypeError /\
  fst (makePurchase (Sample.quiet 0) (VStr "no_ads") (Sample.world module_init ∅))
    = Val (VObj [("success", VBool true); ("bonuses", VObj [])]).
Proof.
  intros w. split; [|split].
  - destruct (makePurchase_outcomes (Sample.offline 0) (VStr "no_ads") w)
      as [_ Hbridge].
    destruct (Hbridge Sample.web eq_refl) as [_ Hout].
    destruct Hout as (message & Hmsg & Hres).
    rewrite Hres. by injection Hmsg as <-.
  - destruct (makePurchase_outcomes (Sample.silent_failure 0) (VStr "no_ads") w)
      as [_ Hbridge].
    destruct (Hbridge Sample.web eq_refl) as [_ Hout]. exact Hout.
  - destruct (makePurchase_outcomes (Sample.quiet 0) (VStr "no_ads")
                (Sample.world module_init ∅)) as [Hdev _].
    by rewrite (Hdev eq_refl).
Defined.

(** The banner on VK with a VK bridge that rejects it, and on the web. *)
Lemma showStickyBanner_outcomes_witness :
  let on_vk := Sample.world (Sample.started Sample.vk (Some WindowVkBridge)) ∅ in
  let on_web := Sample.world (Sample.started Sample.web None) ∅ in
  showStickyBanner (Sample.quiet 0) on_web = (Val false, on_web) /\
  exists c v rest,
    calls_of (showStickyBanner (Sample.vk_down 0)) on_vk = rest ++ [(c, Returns v)] /\
    (c = vk_banner \/ c = ShowSticky).
Proof.
  intros on_vk on_web.
  destruct (showStickyBanner_outcomes (Sample.quiet 0) on_web) as (Hoff & _ & _).
  destruct (showStickyBanner_outcomes (Sample.vk_down 0) on_vk) as (_ & Htrue & _).
  split.
  - apply Hoff. right. exists Sample.web. by split.
  - apply Htrue. reflexivity.
Defined.

(** The group button on VK when [joinCommunity] throws, and on the web. *)
Lemma vk_social_functions_witness :
  let E := Sample.env (fun n => Z.of_nat n) (fun _ _ => Throws Sample.NetworkError)
             (fun _ => None) (fun _ => None) in
  let on_vk := Sample.world (Sample.started Sample.vk (Some WindowVkBridge)) ∅ in
  let on_web := Sample.world (Sample.started Sample.web None) ∅ in
  openVKGroup E on_web = (Val tt, on_web) /\
  fst (openVKGroup E on_vk) = Val tt /\
  calls_of (openVKGroup E) on_vk
    = [(join_group, Throws Sample.NetworkError);
       (group_page, Throws Sample.NetworkError)].
Proof.
  intros E on_vk on_web.
  destruct (vk_social_functions E on_web) as [Hoff _].
  destruct (vk_social_functions E on_vk) as [_ Hon].
  destruct (Hon Sample.vk eq_refl eq_refl) as (Hres & _ & _ & Hcalls).
  split; [|split; [exact Hres|exact Hcalls]].
  apply Hoff. right. exists Sample.web. by split.
Defined.
